(** * Animation-curve JSON import/export (fcurve_io.py)

    A shallow embedding of the exporter ([ANIMIO_OT_fcurve_exporter]) and
    of the importers ([FCurveImporterMixin], [ANIMIO_OT_action_importer],
    [FCurveResolverMixin]) together with the properties stated about
    them.

    Conventions of the embedding.
    - A Python float is a rational number ([Q]); NaN and the infinities
      are outside the model.  No arithmetic is performed on the way from a
      control point to a JSON record and back, so equalities between
      floats below are plain equalities.
    - A JSON text is represented by the value [json.loads] returns for it
      (type [json]); [json.dumps] followed by [json.loads] is taken to be
      the identity on such values.
    - A Python exception leaves every mutation made before it in place:
      computations return an [outcome] that carries the state in both
      cases. *)

From Stdlib Require Import ZArith QArith Qround String Ascii List.
From stdpp Require Import base option list gmap strings sorting.

Open Scope string_scope.
Open Scope Z_scope.

(** ** Python values and exceptions *)

Inductive pyexn : Type :=
  | KeyError (key : string)
  | TypeError
  | ValueError (msg : string)
  | RuntimeError
  | JSONDecodeError
  | OSError
  | OverflowError.

(** The value of a parsed JSON text, as [json.loads] builds it: objects
    are dicts, arrays are lists, numbers are [int] or [float]. *)
#[warnings="-register-all"]
Inductive json : Type :=
  | JNull
  | JBool (b : bool)
  | JInt (z : Z)
  | JFloat (q : Q)
  | JStr (s : string)
  | JList (l : list json)
  | JObj (fields : list (string * json)).

(** A dict built from the pairs of a JSON object: a later pair with the
    same name overrides an earlier one. *)
Fixpoint dict_get (k : string) (fields : list (string * json)) : option json :=
  match fields with
  | [] => None
  | (k', v) :: rest =>
      match dict_get k rest with
      | Some w => Some w
      | None => if String.eqb k k' then Some v else None
      end
  end.

(** [d[k]] with a string subscript. *)
Definition py_getitem (d : json) (k : string) : pyexn + json :=
  match d with
  | JObj fields =>
      match dict_get k fields with
      | Some v => inr v
      | None => inl (KeyError k)
      end
  | _ => inl TypeError
  end.

Fixpoint chars (s : string) : list json :=
  match s with
  | EmptyString => []
  | String c rest => JStr (String c EmptyString) :: chars rest
  end.

(** The keys of a dict built from the pairs of a JSON object, in the
    order of iteration: a name that is repeated keeps its first place. *)
Fixpoint dict_keys (fields : list (string * json)) : list string :=
  match fields with
  | [] => []
  | (k, _) :: rest => k :: filter (fun k' => k' <> k) (dict_keys rest)
  end.

(** [iter(v)]: lists yield their items, strings their characters, dicts
    their keys; nothing else is iterable. *)
Definition py_iter (v : json) : pyexn + list json :=
  match v with
  | JList l => inr l
  | JStr s => inr (chars s)
  | JObj fields => inr (map JStr (dict_keys fields))
  | _ => inl TypeError
  end.

Definition float_conversion_msg : string := "could not convert string to float".
Definition sequence_length_msg : string := "sequences of dimension 0 should contain 2 items".
Definition no_action_msg : string :=
  "Operator %s should only be called on objects with animation data and action".

Definition bool_to_Z (b : bool) : Z := if b then 1 else 0.

(** The integers [float()] refuses with [OverflowError]: those that do
    not round to a double, from [2^1024 - 2^970] on in absolute value. *)
Definition float_overflows (z : Z) : bool := 2 ^ 1024 - 2 ^ 970 <=? Z.abs z.
Arguments float_overflows : simpl never.

(** Modelled from the spec: the host's conversion of a Python value
    where it expects a float (a property or a parameter): any Python
    number that converts to a float, nothing else; the host reports a
    conversion that fails as a [TypeError]. *)
Definition as_float (v : json) : pyexn + Q :=
  match v with
  | JInt z => if float_overflows z then inl TypeError else inr (inject_Z z)
  | JFloat q => inr q
  | JBool b => inr (inject_Z (bool_to_Z b))
  | _ => inl TypeError
  end.

(** [int(f)] on a float: truncation towards zero. *)
Definition py_int (q : Q) : Z := Z.quot (Qnum q) (Zpos (Qden q)).

(** Equality of Python scalars as [==] and [hash] see them: [1 == 1.0 ==
    True]. *)
Definition as_number (v : json) : option Q :=
  match v with
  | JInt z => Some (inject_Z z)
  | JFloat q => Some q
  | JBool b => Some (inject_Z (bool_to_Z b))
  | _ => None
  end.

Definition py_eq (a b : json) : bool :=
  match as_number a, as_number b with
  | Some x, Some y => Qeq_bool x y
  | _, _ =>
      match a, b with
      | JStr s, JStr t => String.eqb s t
      | JNull, JNull => true
      | _, _ => false
      end
  end.

Definition hashable (v : json) : bool :=
  match v with
  | JList _ | JObj _ => false
  | _ => true
  end.

(** The integer a JSON value compares equal to, if any. *)
Definition as_index (v : json) : option Z :=
  match as_number v with
  | Some q => if Qeq_bool q (inject_Z (Qfloor q)) then Some (Qfloor q) else None
  | None => None
  end.

(** ** The host's animation data

    Modelled from the spec: the host (bpy) API the source is written
    against is not part of the repository.  Section 3 and section 6 of
    the specification describe it as a container of channels keyed by
    [(data_path, array_index)], each an ordered-by-time sequence of
    control points, with get/create/remove of a channel and insertion of
    control points; the enumerations are the host's documented ones.
    Times are compared exactly.  The host's recomputation of automatic
    handles after an insertion is not modelled: a handle keeps the
    position it was given. *)

Inductive handle_type : Type :=
  | HT_FREE | HT_ALIGNED | HT_VECTOR | HT_AUTO | HT_AUTO_CLAMPED.

Inductive interpolation_mode : Type :=
  | IP_CONSTANT | IP_LINEAR | IP_BEZIER | IP_SINE | IP_QUAD | IP_CUBIC
  | IP_QUART | IP_QUINT | IP_EXPO | IP_CIRC | IP_BACK | IP_BOUNCE | IP_ELASTIC.

Inductive easing_mode : Type :=
  | EZ_AUTO | EZ_EASE_IN | EZ_EASE_OUT | EZ_EASE_IN_OUT.

Inductive keyframe_type : Type :=
  | KT_KEYFRAME | KT_BREAKDOWN | KT_MOVING_HOLD | KT_EXTREME | KT_JITTER.

(** An enumeration of the host, with the identifiers Python sees. *)
Class HostEnum (A : Type) := {
  enum_items : list (string * A);
  enum_name : A -> string
}.

Fixpoint assoc_find {A : Type} (s : string) (items : list (string * A)) : option A :=
  match items with
  | [] => None
  | (n, a) :: rest => if String.eqb s n then Some a else assoc_find s rest
  end.

(** Modelled from the spec: the host's conversion of a Python value
    where it expects one of its enumerated tags: the identifier of an
    item, nothing else. *)
Definition as_enum {A : Type} `{HostEnum A} (v : json) : pyexn + A :=
  match v with
  | JStr s =>
      match assoc_find s enum_items with
      | Some a => inr a
      | None => inl TypeError
      end
  | _ => inl TypeError
  end.

#[export] Instance handle_type_enum : HostEnum handle_type := {
  enum_items := [("FREE", HT_FREE); ("ALIGNED", HT_ALIGNED); ("VECTOR", HT_VECTOR);
                 ("AUTO", HT_AUTO); ("AUTO_CLAMPED", HT_AUTO_CLAMPED)];
  enum_name a := match a with
                 | HT_FREE => "FREE" | HT_ALIGNED => "ALIGNED" | HT_VECTOR => "VECTOR"
                 | HT_AUTO => "AUTO" | HT_AUTO_CLAMPED => "AUTO_CLAMPED"
                 end
}.

#[export] Instance interpolation_enum : HostEnum interpolation_mode := {
  enum_items := [("CONSTANT", IP_CONSTANT); ("LINEAR", IP_LINEAR); ("BEZIER", IP_BEZIER);
                 ("SINE", IP_SINE); ("QUAD", IP_QUAD); ("CUBIC", IP_CUBIC);
                 ("QUART", IP_QUART); ("QUINT", IP_QUINT); ("EXPO", IP_EXPO);
                 ("CIRC", IP_CIRC); ("BACK", IP_BACK); ("BOUNCE", IP_BOUNCE);
                 ("ELASTIC", IP_ELASTIC)];
  enum_name a := match a with
                 | IP_CONSTANT => "CONSTANT" | IP_LINEAR => "LINEAR" | IP_BEZIER => "BEZIER"
                 | IP_SINE => "SINE" | IP_QUAD => "QUAD" | IP_CUBIC => "CUBIC"
                 | IP_QUART => "QUART" | IP_QUINT => "QUINT" | IP_EXPO => "EXPO"
                 | IP_CIRC => "CIRC" | IP_BACK => "BACK" | IP_BOUNCE => "BOUNCE"
                 | IP_ELASTIC => "ELASTIC"
                 end
}.

#[export] Instance easing_enum : HostEnum easing_mode := {
  enum_items := [("AUTO", EZ_AUTO); ("EASE_IN", EZ_EASE_IN); ("EASE_OUT", EZ_EASE_OUT);
                 ("EASE_IN_OUT", EZ_EASE_IN_OUT)];
  enum_name a := match a with
                 | EZ_AUTO => "AUTO" | EZ_EASE_IN => "EASE_IN" | EZ_EASE_OUT => "EASE_OUT"
                 | EZ_EASE_IN_OUT => "EASE_IN_OUT"
                 end
}.

#[export] Instance keyframe_type_enum : HostEnum keyframe_type := {
  enum_items := [("KEYFRAME", KT_KEYFRAME); ("BREAKDOWN", KT_BREAKDOWN);
                 ("MOVING_HOLD", KT_MOVING_HOLD); ("EXTREME", KT_EXTREME);
                 ("JITTER", KT_JITTER)];
  enum_name a := match a with
                 | KT_KEYFRAME => "KEYFRAME" | KT_BREAKDOWN => "BREAKDOWN"
                 | KT_MOVING_HOLD => "MOVING_HOLD" | KT_EXTREME => "EXTREME"
                 | KT_JITTER => "JITTER"
                 end
}.

(** A control point ([bpy.types.Keyframe]) with the attributes the tool
    reads and writes. *)
Record Keyframe : Type := mkKeyframe {
  co : Q * Q;
  handle_left : Q * Q;
  handle_left_type : handle_type;
  handle_right : Q * Q;
  handle_right_type : handle_type;
  interpolation : interpolation_mode;
  easing : easing_mode;
  amplitude : Q;
  back : Q;
  period : Q;
  kf_type : keyframe_type
}.

(** A channel ([bpy.types.FCurve]).  It stores its data either as
    control points or as baked samples; [group] is the name of the action
    group it belongs to, if any. *)
Record FCurve : Type := mkFCurve {
  data_path : string;
  array_index : Z;
  group : option string;
  keyframe_points : list Keyframe;
  sampled_points : list (Q * Q)
}.

(** A curve container ([bpy.types.Action]). *)
Record Action : Type := mkAction {
  name : string;
  groups : list string;
  fcurves : list FCurve
}.

Record AnimData : Type := mkAnimData { action : option Action }.

Record Object : Type := mkObject { animation_data : option AnimData }.

Definition curve_key (c : FCurve) : string * Z := (data_path c, array_index c).

(** ** Computations that mutate host state and may raise *)

Inductive outcome (S A : Type) : Type :=
  | Ret (a : A) (s : S)
  | Raise (e : pyexn) (s : S).
Arguments Ret {S A} a s.
Arguments Raise {S A} e s.

Definition M (S A : Type) : Type := S -> outcome S A.

Definition ret {S A : Type} (a : A) : M S A := fun s => Ret a s.

Definition raise {S A : Type} (e : pyexn) : M S A := fun s => Raise e s.

Definition bind {S A B : Type} (m : M S A) (k : A -> M S B) : M S B :=
  fun s => match m s with
           | Ret a s' => k a s'
           | Raise e s' => Raise e s'
           end.

Notation "x <- c1 ;; c2" := (bind c1 (fun x => c2))
  (at level 100, c1 at next level, right associativity).
Notation "c1 ;; c2" := (bind c1 (fun _ => c2))
  (at level 100, right associativity).

(** The result of a pure expression that may raise. *)
Definition lift {S A : Type} (r : pyexn + A) : M S A :=
  match r with
  | inr a => ret a
  | inl e => raise e
  end.

Definition modify {S : Type} (f : S -> S) : M S unit := fun s => Ret tt (f s).

Definition final_state {S A : Type} (o : outcome S A) : S :=
  match o with
  | Ret _ s => s
  | Raise _ s => s
  end.

(** ** Host operations on a curve container

    These are the operations of section 6 of the specification (create
    and remove a channel by key, insert a control point, assign an
    attribute); their bodies are in the host, not in the repository. *)

Definition set_fcurves (cs : list FCurve) (a : Action) : Action :=
  mkAction (name a) (groups a) cs.

Definition set_keyframe_points (pts : list Keyframe) (c : FCurve) : FCurve :=
  mkFCurve (data_path c) (array_index c) (group c) pts (sampled_points c).

(** Modelled from the spec: the host's conversion of a Python value
    where it expects an integer ([array_index] is an integer). *)
Definition as_int (v : json) : pyexn + Z :=
  match v with
  | JInt z => inr z
  | JBool b => inr (bool_to_Z b)
  | _ => inl TypeError
  end.

(** Modelled from the spec: the host's conversion of a Python value
    where it expects a string ([data_path] and the action name are
    strings). *)
Definition as_str (v : json) : pyexn + string :=
  match v with
  | JStr s => inr s
  | _ => inl TypeError
  end.

Definition has_key (k : string * Z) (cs : list FCurve) : bool :=
  existsb (fun c => bool_decide (curve_key c = k)) cs.

(** Modelled from the spec: the host's
    [action.fcurves.new(data_path, index=array_index)], "create channel
    by key".  It appends an empty channel without group and refuses a key
    that is already present. *)
Definition fcurves_new (data_path array_index : json) : M Action nat :=
  s <- lift (as_str data_path) ;;
  z <- lift (as_int array_index) ;;
  fun a =>
    if has_key (s, z) (fcurves a) then Raise RuntimeError a
    else Ret (length (fcurves a))
             (set_fcurves (fcurves a ++ [mkFCurve s z None [] []]) a).

(** Modelled from the spec: the host's [action.fcurves.remove(curve)],
    "remove channel", the curve given by its position. *)
Definition fcurves_remove (i : nat) : M Action unit :=
  modify (fun a => set_fcurves (delete i (fcurves a)) a).

(** Modelled from the spec: the control point the host creates on
    insertion, at the given position and with the given type tag.  The
    other attributes are host defaults; the importer overwrites them all,
    so they show only in a point that an exception leaves behind. *)
Definition new_keyframe_point (t y : Q) (ty : keyframe_type) : Keyframe :=
  mkKeyframe (t, y) (t - 1, y)%Q HT_AUTO_CLAMPED (t + 1, y)%Q HT_AUTO_CLAMPED
             IP_BEZIER EZ_AUTO (8 # 10) (170158 # 100000) (41 # 10) ty.

(** Modelled from the spec: insertion at the time of an existing control
    point.  A channel holds one point per time: the host moves that point
    (and its handles) to the new value and leaves its other attributes. *)
Definition replace_ypos (y : Q) (p : Keyframe) : Keyframe :=
  let dy := (y - snd (co p))%Q in
  mkKeyframe (fst (co p), y)
             (fst (handle_left p), snd (handle_left p) + dy)%Q (handle_left_type p)
             (fst (handle_right p), snd (handle_right p) + dy)%Q (handle_right_type p)
             (interpolation p) (easing p) (amplitude p) (back p) (period p) (kf_type p).

(** Modelled from the spec: "insert control points on a channel", whose
    control points are an ordered-by-time sequence; the result is the new
    sequence and the position of the inserted point. *)
Fixpoint insert_point (t y : Q) (ty : keyframe_type) (pts : list Keyframe)
  : list Keyframe * nat :=
  match pts with
  | [] => ([new_keyframe_point t y ty], 0%nat)
  | p :: rest =>
      match Qcompare t (fst (co p)) with
      | Eq => (replace_ypos y p :: rest, 0%nat)
      | Lt => (new_keyframe_point t y ty :: p :: rest, 0%nat)
      | Gt => let '(pts', i) := insert_point t y ty rest in (p :: pts', S i)
      end
  end.

(** Modelled from the spec: the host's [fcurve.keyframe_points.insert],
    called with the unpacked [args] and [keyframe_type=kt] on the channel
    at position [ci]; its positional parameters are [frame] and
    [value]. *)
Definition keyframe_points_insert (ci : nat) (args : list json) (kt : json)
  : M Action nat :=
  match args with
  | [frame; value] =>
      t <- lift (as_float frame) ;;
      y <- lift (as_float value) ;;
      ty <- lift (as_enum kt) ;;
      fun a =>
        match fcurves a !! ci with
        | Some c =>
            let '(pts, i) := insert_point t y ty (keyframe_points c) in
            Ret i (set_fcurves (<[ci := set_keyframe_points pts c]> (fcurves a)) a)
        | None => Raise RuntimeError a
        end
  | _ => raise TypeError
  end.

(** Modelled from the spec: assignment to an attribute of the control
    point at position [pi] of the channel at position [ci]. *)
Definition update_keyframe (ci pi : nat) (f : Keyframe -> Keyframe) : M Action unit :=
  modify (fun a =>
    set_fcurves
      (alter (fun c => set_keyframe_points (alter f pi (keyframe_points c)) c) ci (fcurves a))
      a).

Definition set_amplitude (x : Q) (k : Keyframe) : Keyframe :=
  mkKeyframe (co k) (handle_left k) (handle_left_type k) (handle_right k)
             (handle_right_type k) (interpolation k) (easing k) x (back k) (period k)
             (kf_type k).

Definition set_back (x : Q) (k : Keyframe) : Keyframe :=
  mkKeyframe (co k) (handle_left k) (handle_left_type k) (handle_right k)
             (handle_right_type k) (interpolation k) (easing k) (amplitude k) x (period k)
             (kf_type k).

Definition set_period (x : Q) (k : Keyframe) : Keyframe :=
  mkKeyframe (co k) (handle_left k) (handle_left_type k) (handle_right k)
             (handle_right_type k) (interpolation k) (easing k) (amplitude k) (back k) x
             (kf_type k).

Definition set_easing (x : easing_mode) (k : Keyframe) : Keyframe :=
  mkKeyframe (co k) (handle_left k) (handle_left_type k) (handle_right k)
             (handle_right_type k) (interpolation k) x (amplitude k) (back k) (period k)
             (kf_type k).

Definition set_interpolation (x : interpolation_mode) (k : Keyframe) : Keyframe :=
  mkKeyframe (co k) (handle_left k) (handle_left_type k) (handle_right k)
             (handle_right_type k) x (easing k) (amplitude k) (back k) (period k)
             (kf_type k).

Definition set_handle_left (x : Q * Q) (k : Keyframe) : Keyframe :=
  mkKeyframe (co k) x (handle_left_type k) (handle_right k)
             (handle_right_type k) (interpolation k) (easing k) (amplitude k) (back k)
             (period k) (kf_type k).

Definition set_handle_left_type (x : handle_type) (k : Keyframe) : Keyframe :=
  mkKeyframe (co k) (handle_left k) x (handle_right k)
             (handle_right_type k) (interpolation k) (easing k) (amplitude k) (back k)
             (period k) (kf_type k).

Definition set_handle_right (x : Q * Q) (k : Keyframe) : Keyframe :=
  mkKeyframe (co k) (handle_left k) (handle_left_type k) x
             (handle_right_type k) (interpolation k) (easing k) (amplitude k) (back k)
             (period k) (kf_type k).

Definition set_handle_right_type (x : handle_type) (k : Keyframe) : Keyframe :=
  mkKeyframe (co k) (handle_left k) (handle_left_type k) (handle_right k)
             x (interpolation k) (easing k) (amplitude k) (back k)
             (period k) (kf_type k).

(** Modelled from the spec: a handle is a 2-tuple of floats; the host
    takes a sequence of exactly two for it. *)
Definition as_vector2 (vs : list Q) : pyexn + (Q * Q) :=
  match vs with
  | [a; b] => inr (a, b)
  | _ => inl (ValueError sequence_length_msg)
  end.

(** ** Import: [FCurveImporterMixin] *)

(** The scan of [touch_fcurve]: the position of the first channel whose
    [data_path] and [array_index] compare equal to the arguments. *)
Fixpoint find_curve (path index : json) (cs : list FCurve) : option nat :=
  match cs with
  | [] => None
  | curve :: rest =>
      if negb (py_eq (JStr (data_path curve)) path)
      then S <$> find_curve path index rest
      else if py_eq (JInt (array_index curve)) index
           then Some 0%nat
           else S <$> find_curve path index rest
  end.

(** [touch_fcurve(action, data_path, array_index, replace)]; the result
    is the position of the returned channel in [action.fcurves]. *)
Definition touch_fcurve (data_path array_index : json) (replace : bool) : M Action nat :=
  fun action =>
    match find_curve data_path array_index (fcurves action) with
    | Some i =>
        if negb replace then Ret i action
        else (fcurves_remove i ;; fcurves_new data_path array_index) action
    | None => fcurves_new data_path array_index action
    end.

Fixpoint for_each {S A : Type} (body : A -> M S unit) (l : list A) : M S unit :=
  match l with
  | [] => ret tt
  | x :: rest => body x ;; for_each body rest
  end.

Fixpoint map_result {A B : Type} (f : A -> pyexn + B) (l : list A) : pyexn + list B :=
  match l with
  | [] => inr []
  | x :: rest =>
      match f x with
      | inl e => inl e
      | inr y =>
          match map_result f rest with
          | inl e => inl e
          | inr ys => inr (y :: ys)
          end
      end
  end.

(** A Python tuple [(data_path, array_index)] as built from a record. *)
Definition raw_key : Type := json * json.

Definition key_hashable (k : raw_key) : bool := hashable (fst k) && hashable (snd k).

(** [k in filter], for a filter set of [(str, int)] tuples. *)
Definition in_filter (k : raw_key) (filter : gset (string * Z)) : pyexn + bool :=
  if key_hashable k then
    match fst k, as_index (snd k) with
    | JStr s, Some z => inr (bool_decide ((s, z) ∈ filter))
    | _, _ => inr false
    end
  else inl TypeError.

(** [k in replaced], for the set of tuples added so far. *)
Definition in_replaced (k : raw_key) (replaced : list raw_key) : pyexn + bool :=
  if key_hashable k then
    inr (existsb (fun k' => py_eq (fst k') (fst k) && py_eq (snd k') (snd k)) replaced)
  else inl TypeError.

(** Truth value of the [filter] argument: [None] and the empty set are
    both false. *)
Definition truthy (filter : option (gset (string * Z))) : bool :=
  match filter with
  | None => false
  | Some s => negb (bool_decide (s = ∅))
  end.

(** The state of one pass of [insert_keyframes]: the action and the
    local set [replaced]. *)
Definition import_state : Type := Action * list raw_key.

Definition on_action {A : Type} (m : M Action A) : M import_state A :=
  fun st =>
    match m (fst st) with
    | Ret x a => Ret x (a, snd st)
    | Raise e a => Raise e (a, snd st)
    end.

Definition get_replaced : M import_state (list raw_key) := fun st => Ret (snd st) st.

Definition add_replaced (k : raw_key) : M import_state unit :=
  modify (fun st => (fst st, k :: snd st)).

Section Importer.

(** The conversion of a string by [float()]; Python's grammar of float
    literals is left open. *)
Variable float_of_str : string -> option Q.

(** [float(v)]. *)
Definition py_float (v : json) : pyexn + Q :=
  match v with
  | JInt z => if float_overflows z then inl OverflowError else inr (inject_Z z)
  | JFloat q => inr q
  | JBool b => inr (inject_Z (bool_to_Z b))
  | JStr s =>
      match float_of_str s with
      | Some q => inr q
      | None => inl (ValueError float_conversion_msg)
      end
  | _ => inl TypeError
  end.

(** Lines 187-201: the insertion of the control point of a record
    into the channel at position [fcurve], and the assignment of its
    other properties.  Both arguments of the call of lines 187-190 are
    evaluated before the call unpacks the first. *)
Definition insert_control_point (keyframe : json) (fcurve : nat) : M Action unit :=
  co_value <- lift (py_getitem keyframe "co") ;;
  type_value <- lift (py_getitem keyframe "type") ;;
  args <- lift (py_iter co_value) ;;
  new_keyframe <- keyframe_points_insert fcurve args type_value ;;
  let assign f := update_keyframe fcurve new_keyframe f in
  v <- lift (py_getitem keyframe "amplitude") ;;
  x <- lift (py_float v) ;;
  assign (set_amplitude x) ;;
  v <- lift (py_getitem keyframe "back") ;;
  x <- lift (py_float v) ;;
  assign (set_back x) ;;
  v <- lift (py_getitem keyframe "easing") ;;
  x <- lift (as_enum v) ;;
  assign (set_easing x) ;;
  v <- lift (py_getitem keyframe "handle_left") ;;
  vs <- lift (py_iter v) ;;
  xs <- lift (map_result py_float vs) ;;
  x <- lift (as_vector2 xs) ;;
  assign (set_handle_left x) ;;
  v <- lift (py_getitem keyframe "handle_left_type") ;;
  x <- lift (as_enum v) ;;
  assign (set_handle_left_type x) ;;
  v <- lift (py_getitem keyframe "handle_right") ;;
  vs <- lift (py_iter v) ;;
  xs <- lift (map_result py_float vs) ;;
  x <- lift (as_vector2 xs) ;;
  assign (set_handle_right x) ;;
  v <- lift (py_getitem keyframe "handle_right_type") ;;
  x <- lift (as_enum v) ;;
  assign (set_handle_right_type x) ;;
  v <- lift (py_getitem keyframe "interpolation") ;;
  x <- lift (as_enum v) ;;
  assign (set_interpolation x) ;;
  v <- lift (py_getitem keyframe "period") ;;
  x <- lift (as_float v) ;;
  assign (set_period x).

(** Lines 172-184: the channel a record goes to, or [None] when the
    filter leaves the record out. *)
Definition resolve_channel (filter : option (gset (string * Z))) (replace_curve : bool)
    (keyframe : json) : M import_state (option nat) :=
  data_path <- lift (py_getitem keyframe "data_path") ;;
  array_index <- lift (py_getitem keyframe "array_index") ;;
  ignored <- (if truthy filter
              then found <- lift (in_filter (data_path, array_index) (default ∅ filter)) ;;
                   ret (negb found)
              else ret false) ;;
  if ignored : bool then ret None
  else
    replaced <- get_replaced ;;
    seen <- lift (in_replaced (data_path, array_index) replaced) ;;
    fcurve <- on_action (touch_fcurve data_path array_index
                           (if negb seen then replace_curve else false)) ;;
    (if replace_curve then add_replaced (data_path, array_index) else ret tt) ;;
    ret (Some fcurve).

(** The body of the loop of [insert_keyframes] for one record. *)
Definition insert_keyframe (filter : option (gset (string * Z))) (replace_curve : bool)
    (keyframe : json) : M import_state unit :=
  target <- resolve_channel filter replace_curve keyframe ;;
  match target with
  | None => ret tt
  | Some fcurve => on_action (insert_control_point keyframe fcurve)
  end.

(** The loop of [insert_keyframes] on the state [(action, replaced)]. *)
Definition insert_keyframes_loop (keyframe_data : json)
    (filter : option (gset (string * Z))) (replace_curve : bool) : M import_state unit :=
  records <- lift (py_iter keyframe_data) ;;
  for_each (insert_keyframe filter replace_curve) records.

(** [insert_keyframes(action, keyframe_data, filter, replace_curve)]. *)
Definition insert_keyframes (keyframe_data : json)
    (filter : option (gset (string * Z))) (replace_curve : bool) : M Action unit :=
  fun action =>
    match insert_keyframes_loop keyframe_data filter replace_curve (action, []) with
    | Ret _ st => Ret tt (fst st)
    | Raise e st => Raise e (fst st)
    end.

(** *** The operators *)

(** The file at [self.filepath]: absent, or a text with the value
    [json.loads] gives for it ([None] when it is not JSON). *)
Inductive file : Type :=
  | NoSuchFile
  | FileText (parsed : option json).

Definition read_json {S : Type} (f : file) : M S json :=
  match f with
  | NoSuchFile => raise OSError
  | FileText None => raise JSONDecodeError
  | FileText (Some v) => ret v
  end.

(** A computation on the active action of the object. *)
Definition on_active_action {A : Type} (m : M Action A) : M Object A :=
  fun obj =>
    match animation_data obj with
    | Some (mkAnimData (Some a)) =>
        match m a with
        | Ret x a' => Ret x (mkObject (Some (mkAnimData (Some a'))))
        | Raise e a' => Raise e (mkObject (Some (mkAnimData (Some a'))))
        end
    | _ => Raise RuntimeError obj
    end.

(** Modelled from the spec: the host's
    [context.blend_data.actions.new(name)], "create a new named
    action". *)
Definition actions_new {S : Type} (name_value : json) : M S Action :=
  s <- lift (as_str name_value) ;;
  ret (mkAction s [] []).

(** [ANIMIO_OT_action_importer.execute]. *)
Definition action_importer_execute (f : file) : M Object unit :=
  anim_data_json <- read_json f ;;
  modify (fun _ => mkObject None) ;;
  modify (fun _ => mkObject (Some (mkAnimData None))) ;;
  name_value <- lift (py_getitem anim_data_json "name") ;;
  action <- actions_new name_value ;;
  modify (fun _ => mkObject (Some (mkAnimData (Some action)))) ;;
  keyframes <- lift (py_getitem anim_data_json "keyframes") ;;
  on_active_action (insert_keyframes keyframes None true).

Definition has_active_action (obj : Object) : bool :=
  match animation_data obj with
  | Some ad => match action ad with Some _ => true | None => false end
  | None => false
  end.

(** [FCurveResolverMixin.execute], for the class attribute
    [replace_curve]. *)
Definition resolver_execute (replace_curve : bool) (f : file) : M Object unit :=
  anim_data_json <- read_json f ;;
  fun obj =>
    if negb (has_active_action obj)
    then Raise (ValueError no_action_msg) obj
    else (keyframes <- lift (py_getitem anim_data_json "keyframes") ;;
          on_active_action (insert_keyframes keyframes None replace_curve)) obj.

(** [ANIMIO_OT_fcurve_replacer.execute] and
    [ANIMIO_OT_fcurve_merger.execute]. *)
Definition fcurve_replacer_execute : file -> M Object unit := resolver_execute true.
Definition fcurve_merger_execute : file -> M Object unit := resolver_execute false.

End Importer.

(** ** Export: [ANIMIO_OT_fcurve_exporter] *)

(** A keyframe record of the document: the channel's path and index,
    the name of its group and the attributes of one control point. *)
Record kf_record : Type := mkRecord {
  r_data_path : string;
  r_group : string;
  r_array_index : Z;
  r_point : Keyframe
}.

Definition json_vector (v : Q * Q) : json := JList [JFloat (fst v); JFloat (snd v)].

Definition json_enum {A : Type} `{HostEnum A} (a : A) : json := JStr (enum_name a).

(** The dict literal of [keyframe_to_json]. *)
Definition record_json (r : kf_record) : json :=
  let keyframe := r_point r in
  JObj [("data_path", JStr (r_data_path r));
        ("group", JStr (r_group r));
        ("array_index", JInt (r_array_index r));
        ("amplitude", JFloat (amplitude keyframe));
        ("back", JFloat (back keyframe));
        ("co", json_vector (co keyframe));
        ("easing", json_enum (easing keyframe));
        ("handle_left", json_vector (handle_left keyframe));
        ("handle_left_type", json_enum (handle_left_type keyframe));
        ("handle_right", json_vector (handle_right keyframe));
        ("handle_right_type", json_enum (handle_right_type keyframe));
        ("interpolation", json_enum (interpolation keyframe));
        ("period", JFloat (period keyframe));
        ("type", json_enum (kf_type keyframe))].

(** A Python object handed to [keyframe_to_json], as its type test sees
    it. *)
Inductive pyobj : Type :=
  | PyKeyframe (k : Keyframe)
  | PyOther.

(** [keyframe_to_json(keyframe, data_path, array_index, group)]. *)
Definition keyframe_to_json (keyframe : pyobj) (path : string) (index : Z)
    (group_name : string) : pyexn + json :=
  match keyframe with
  | PyKeyframe k => inr (record_json (mkRecord path group_name index k))
  | PyOther => inl TypeError
  end.

(** The host services the exporter calls on a channel: its frame range
    and the conversions between the two storage forms, which replace the
    channel's data in place and may raise. *)
Record SamplingHost : Type := mkSamplingHost {
  fcurve_range : FCurve -> Q * Q;
  convert_to_keyframes : Z -> Z -> FCurve -> pyexn + FCurve;
  convert_to_samples : Z -> Z -> FCurve -> pyexn + FCurve
}.

(** The positions in [action.fcurves] of the channels of a group
    ([group.channels]). *)
Definition group_channels (group_name : string) (cs : list FCurve) : list nat :=
  filter (fun i => bool_decide (group <$> cs !! i = Some (Some group_name)))
         (seq 0 (length cs)).

(** The state of the export loop: the action and the list
    [action_data['keyframes']]. *)
Definition export_state : Type := Action * list json.

Definition get_channel (i : nat) : M export_state FCurve :=
  fun st =>
    match fcurves (fst st) !! i with
    | Some c => Ret c st
    | None => Raise RuntimeError st
    end.

Definition put_channel (i : nat) (c : FCurve) : M export_state unit :=
  modify (fun st => (set_fcurves (<[i := c]> (fcurves (fst st))) (fst st), snd st)).

Definition extend_keyframes (records : list json) : M export_state unit :=
  modify (fun st => (fst st, (snd st ++ records)%list)).

Section Exporter.

Variable host : SamplingHost.

(** [channel.convert_to_...( *[int(f) for f in channel.range()])]. *)
Definition convert_channel (convert : SamplingHost -> Z -> Z -> FCurve -> pyexn + FCurve)
    (i : nat) : M export_state unit :=
  channel <- get_channel i ;;
  let '(first, last) := fcurve_range host channel in
  converted <- lift (convert host (py_int first) (py_int last) channel) ;;
  put_channel i converted.

Definition is_empty {A : Type} (l : list A) : bool :=
  match l with [] => true | _ => false end.

(** The body of the inner loop, for the channel at position [i]. *)
Definition export_channel (group_name : string) (i : nat) : M export_state unit :=
  channel <- get_channel i ;;
  let sampled := is_empty (keyframe_points channel) in
  (if sampled then convert_channel convert_to_keyframes i else ret tt) ;;
  channel <- get_channel i ;;
  let path := data_path channel in
  let index := array_index channel in
  keyframes <- lift (map_result (fun kf => keyframe_to_json (PyKeyframe kf) path index group_name)
                                (keyframe_points channel)) ;;
  extend_keyframes keyframes ;;
  if sampled then convert_channel convert_to_samples i else ret tt.

Definition export_group (group_name : string) : M export_state unit :=
  fun st => for_each (export_channel group_name)
                     (group_channels group_name (fcurves (fst st))) st.

Inductive export_result : Type :=
  | ReportedError (msg : string)
  | Finished (written : json).

Definition set_action (a : Action) : Object := mkObject (Some (mkAnimData (Some a))).

(** [ANIMIO_OT_fcurve_exporter.execute]; [writable] tells whether the
    file at [self.filepath] can be opened for writing, and the result
    carries the document written to it. *)
Definition exporter_execute (writable : bool) : M Object export_result :=
  fun export_obj =>
    match animation_data export_obj with
    | Some (mkAnimData (Some action)) =>
        match for_each export_group (groups action) (action, []) with
        | Ret _ st =>
            if writable
            then Ret (Finished (JObj [("name", JStr (name action));
                                      ("keyframes", JList (snd st))]))
                     (set_action (fst st))
            else Raise OSError (set_action (fst st))
        | Raise e st => Raise e (set_action (fst st))
        end
    | _ => Ret (ReportedError "No animation data exists in the selected object.") export_obj
    end.

End Exporter.

(** ** Notions used in the statements *)

(** The control points of the channel with a given key, if there is such
    a channel. *)
Definition curve_points (k : string * Z) (cs : list FCurve) : option (list Keyframe) :=
  (fun ic => keyframe_points (snd ic)) <$> list_find (fun c => curve_key c = k) cs.

Definition channel_points (k : string * Z) (a : Action) : option (list Keyframe) :=
  curve_points k (fcurves a).

(** At most one channel per [(data_path, array_index)]. *)
Definition unique_keys (a : Action) : Prop := NoDup (map curve_key (fcurves a)).

Definition time (p : Keyframe) : Q := fst (co p).

(** The control points of a channel are in strictly increasing time
    order. *)
Definition increasing_times (pts : list Keyframe) : Prop :=
  StronglySorted (fun p q => (time p < time q)%Q) pts.

(** A curve container as section 3 of the specification describes it:
    channels uniquely keyed, each an ordered-by-time sequence of control
    points, and groups with distinct names. *)
Definition wf_container (a : Action) : Prop :=
  unique_keys a /\ NoDup (groups a) /\
  Forall (fun c => increasing_times (keyframe_points c)) (fcurves a).

(** Keyframe form, as the exporter tests it: [channel.keyframe_points]
    is not empty. *)
Definition keyframe_form (c : FCurve) : Prop := keyframe_points c <> [].

Definition grouped_in (a : Action) (c : FCurve) : Prop :=
  exists g, group c = Some g /\ In g (groups a).

Definition record_key (r : kf_record) : string * Z := (r_data_path r, r_array_index r).

Definition records_for (k : string * Z) (rs : list kf_record) : list kf_record :=
  filter (fun r => record_key r = k) rs.

(** No two control points at the same time. *)
Fixpoint distinct_times (pts : list Keyframe) : Prop :=
  match pts with
  | [] => True
  | p :: rest => Forall (fun q => ~ (time p == time q)%Q) rest /\ distinct_times rest
  end.

(** The control points hold one at the time [t]. *)
Definition has_point_at (t : Q) (pts : list Keyframe) : Prop :=
  exists p, In p pts /\ (time p == t)%Q.

(** The document [json.loads] yields for an exported action. *)
Definition document (action_name : string) (rs : list kf_record) : json :=
  JObj [("name", JStr action_name); ("keyframes", JList (map record_json rs))].

(** The effect of lines 187-201 on the control points of a channel for a
    record whose fields have the types of section 3: a point at a new
    time is inserted in time order with all attributes of the record; at
    the time of an existing point that point takes the record's value and
    attributes and keeps its time and type. *)
Fixpoint put_point (k : Keyframe) (pts : list Keyframe) : list Keyframe :=
  match pts with
  | [] => [k]
  | p :: rest =>
      match Qcompare (time k) (time p) with
      | Eq => mkKeyframe (time p, snd (co k)) (handle_left k) (handle_left_type k)
                         (handle_right k) (handle_right_type k) (interpolation k)
                         (easing k) (amplitude k) (back k) (period k) (kf_type p) :: rest
      | Lt => k :: p :: rest
      | Gt => p :: put_point k rest
      end
  end.

(** The fields of a record the importer reads. *)
Definition required_fields : list string :=
  ["data_path"; "array_index"; "co"; "type"; "amplitude"; "back"; "easing";
   "handle_left"; "handle_left_type"; "handle_right"; "handle_right_type";
   "interpolation"; "period"].



(** An import operation on a container, for sequences of them. *)
Inductive import_op : Type :=
  | OpTouch (data_path array_index : json) (replace : bool)
  | OpInsert (keyframe_data : json) (filter : option (gset (string * Z)))
             (replace_curve : bool).

Definition run_op (float_of_str : string -> option Q) (op : import_op) (a : Action) : Action :=
  match op with
  | OpTouch p i r => final_state (touch_fcurve p i r a)
  | OpInsert d f r => final_state (insert_keyframes float_of_str d f r a)
  end.

Definition run_ops (float_of_str : string -> option Q) (ops : list import_op) (a : Action)
  : Action :=
  fold_left (fun a op => run_op float_of_str op a) ops a.

(** *** A parser for closed examples

    Decimal literals [digits] or [digits.digits] with an optional sign;
    a fragment of what [float()] accepts. *)

Definition digit_value (c : ascii) : option Z :=
  let n := Z.of_nat (nat_of_ascii c) in
  if (48 <=? n) && (n <=? 57) then Some (n - 48) else None.

(** Reads digits, accumulating the numerator and, after the point, the
    power of ten of the denominator. *)
Fixpoint read_digits (s : string) (num : Z) (den : positive) (after_point : bool)
    (any : bool) : option Q :=
  match s with
  | EmptyString => if any then Some (num # den) else None
  | String c rest =>
      match digit_value c with
      | Some d =>
          read_digits rest (10 * num + d) (if after_point then 10 * den else den)%positive
                      after_point true
      | None =>
          if Ascii.eqb c "."%char && negb after_point && any
          then read_digits rest num den true false
          else None
      end
  end.

Definition decimal_literal (s : string) : option Q :=
  match s with
  | String "-"%char rest => Qopp <$> read_digits rest 0 1 false false
  | String "+"%char rest => read_digits rest 0 1 false false
  | _ => read_digits s 0 1 false false
  end.

(** *** Two hosts for closed examples *)

Definition sample_keyframe (s : Q * Q) : Keyframe :=
  mkKeyframe s (fst s - 1, snd s)%Q HT_AUTO_CLAMPED (fst s + 1, snd s)%Q HT_AUTO_CLAMPED
             IP_LINEAR EZ_AUTO (8 # 10) (170158 # 100000) (41 # 10) KT_KEYFRAME.

Definition stored_range (c : FCurve) : Q * Q :=
  match keyframe_points c, sampled_points c with
  | p :: rest, _ => (time p, time (List.last rest p))
  | [], s :: rest => (fst s, fst (List.last rest s))
  | [], [] => (0, 0)%Q
  end.

(** A host whose conversions lose nothing, as the glossary of the
    specification has it: a sample becomes a control point at the same
    position and back. *)
Definition lossless_host : SamplingHost :=
  mkSamplingHost stored_range
    (fun _ _ c =>
       inr (mkFCurve (data_path c) (array_index c) (group c)
                     (map sample_keyframe (sampled_points c)) []))
    (fun _ _ c =>
       inr (mkFCurve (data_path c) (array_index c) (group c)
                     [] (map co (keyframe_points c)))).

Definition in_frames (first last : Z) (t : Q) : bool :=
  Qle_bool (inject_Z first) t && negb (Qle_bool (inject_Z last) t).

(** A host whose conversions take the end frame as exclusive, as the
    host's [convert_to_keyframes(start, end)] and
    [convert_to_samples(start, end)] do: they work on the frames
    [start <= t < end] and refuse an empty frame range with a
    [RuntimeError]. *)
Definition range_checked_host : SamplingHost :=
  mkSamplingHost stored_range
    (fun first last c =>
       if first >=? last then inl RuntimeError
       else inr (mkFCurve (data_path c) (array_index c) (group c)
                     (map sample_keyframe
                          (filter (fun s => in_frames first last (fst s)) (sampled_points c)))
                     []))
    (fun first last c =>
       if first >=? last then inl RuntimeError
       else inr (mkFCurve (data_path c) (array_index c) (group c) []
                     (filter (fun s => in_frames first last (fst s))
                             (map co (keyframe_points c))))).

(** The channels with no control points convert to keyframe form and
    back to what they were. *)
Definition conversions_succeed (host : SamplingHost) (a : Action) : Prop :=
  forall c, In c (fcurves a) -> keyframe_points c = [] ->
    exists k,
      convert_to_keyframes host (py_int (fst (fcurve_range host c)))
                           (py_int (snd (fcurve_range host c))) c = inr k /\
      convert_to_samples host (py_int (fst (fcurve_range host k)))
                         (py_int (snd (fcurve_range host k))) k = inr c.

(** The channel as the exporter reads it: converted when it has no
    control points. *)
Definition keyframe_view (host : SamplingHost) (c : FCurve) : FCurve :=
  if is_empty (keyframe_points c) then
    match convert_to_keyframes host (py_int (fst (fcurve_range host c)))
                               (py_int (snd (fcurve_range host c))) c with
    | inr k => k
    | inl _ => c
    end
  else c.

(** The records of a channel stored in keyframe form. *)
Definition channel_records (group_name : string) (c : FCurve) : list kf_record :=
  map (mkRecord (data_path c) group_name (array_index c)) (keyframe_points c).

Definition group_records (view : FCurve -> FCurve) (cs : list FCurve) (group_name : string)
  : list kf_record :=
  flat_map (fun c => channel_records group_name (view c))
           (filter (fun c => group c = Some group_name) cs).

(** The records of an action, group after group. *)
Definition action_records (view : FCurve -> FCurve) (a : Action) : list kf_record :=
  flat_map (group_records view (fcurves a)) (groups a).

(** ** Notions used in the proofs *)

(** Every step of the computation, whichever way it ends, takes a state
    to a state related to it by [R]. *)
Definition steps {S A : Type} (R : S -> S -> Prop) (m : M S A) : Prop :=
  forall s, R s (final_state (m s)).

(** The arguments of [touch_fcurve] compare equal to the key [k]. *)
Definition key_matches (path index : json) (k : string * Z) : Prop :=
  path = JStr (fst k) /\ as_index index = Some (snd k).

(** What [touch_fcurve] can do to the list of channels. *)
Inductive touched (path index : json) (cs : list FCurve) : list FCurve -> Prop :=
  | touched_same : touched path index cs cs
  | touched_removed (j : nat) (c0 : FCurve) :
      cs !! j = Some c0 -> key_matches path index (curve_key c0) ->
      touched path index cs (delete j cs)
  | touched_created (c : FCurve) :
      key_matches path index (curve_key c) -> has_key (curve_key c) cs = false ->
      group c = None -> keyframe_points c = [] ->
      touched path index cs (cs ++ [c])%list
  | touched_replaced (j : nat) (c0 c : FCurve) :
      cs !! j = Some c0 -> key_matches path index (curve_key c0) ->
      key_matches path index (curve_key c) -> has_key (curve_key c) (delete j cs) = false ->
      group c = None -> keyframe_points c = [] ->
      touched path index cs (delete j cs ++ [c])%list.

(** Only the control points of the channel at position [i] differ. *)
Definition points_changed (i : nat) (a a' : Action) : Prop :=
  name a' = name a /\ groups a' = groups a /\
  exists pts, fcurves a' = alter (set_keyframe_points pts) i (fcurves a).

(** The channel a record is resolved to passes the filter. *)
Definition passes (filter : option (gset (string * Z))) (path index : json) : Prop :=
  truthy filter = true -> exists k, key_matches path index k /\ k ∈ default ∅ filter.

(** The state a record leaves when its channel has been resolved. *)
Definition resolved (filter : option (gset (string * Z))) (path index : json)
    (st st' : import_state) : Prop :=
  passes filter path index /\
  name (fst st') = name (fst st) /\ groups (fst st') = groups (fst st) /\
  touched path index (fcurves (fst st)) (fcurves (fst st')).

Definition keeps_unique (st st' : import_state) : Prop :=
  unique_keys (fst st) -> unique_keys (fst st').

(** The channels whose key is not in the filter set. *)
Definition outside (F : gset (string * Z)) (cs : list FCurve) : list FCurve :=
  filter (fun c => curve_key c ∉ F) cs.

Definition same_outside (F : gset (string * Z)) (st st' : import_state) : Prop :=
  outside F (fcurves (fst st')) = outside F (fcurves (fst st)).

(** The record has a key and the key is not in the filter set. *)
Definition filtered_out (F : gset (string * Z)) (record : json) : bool :=
  match py_getitem record "data_path", py_getitem record "array_index" with
  | inr path, inr index =>
      match in_filter (path, index) F with
      | inr false => true
      | _ => false
      end
  | _, _ => false
  end.

(** All assignments of lines 193-201 for a record, as one function on
    the new control point. *)
Definition assign_attributes (k : Keyframe) (p : Keyframe) : Keyframe :=
  set_period (period k)
    (set_interpolation (interpolation k)
      (set_handle_right_type (handle_right_type k)
        (set_handle_right (handle_right k)
          (set_handle_left_type (handle_left_type k)
            (set_handle_left (handle_left k)
              (set_easing (easing k)
                (set_back (back k)
                  (set_amplitude (amplitude k) p)))))))).

(** The key of a typed record is in the set [replaced]. *)
Definition seen_key (k : string * Z) (replaced : list raw_key) : bool :=
  existsb (fun k' => py_eq (fst k') (JStr (fst k)) && py_eq (snd k') (JInt (snd k))) replaced.

(** The control points of one channel after a pass over the records for
    its key: [seen] tells whether the key is in [replaced], [cur] is the
    content of the channel, if it exists. *)
Fixpoint doc_effect (replace_curve seen : bool) (cur : option (list Keyframe))
    (rs : list kf_record) : option (list Keyframe) :=
  match rs with
  | [] => cur
  | r :: rest =>
      doc_effect replace_curve (seen || replace_curve)
        (Some (put_point (r_point r)
                 (if replace_curve && negb seen then [] else default [] cur)))
        rest
  end.

Definition put_record (pts : list Keyframe) (r : kf_record) : list Keyframe :=
  put_point (r_point r) pts.

(** The exceptions a computation can raise satisfy [P]. *)
Definition raises_only {S A : Type} (P : pyexn -> Prop) (m : M S A) : Prop :=
  forall s e s', m s = Raise e s' -> P e.

Definition pure_raises_only {A : Type} (P : pyexn -> Prop) (r : pyexn + A) : Prop :=
  forall e, r = inl e -> P e.

(** Any exception but the [ValueError] of [FCurveResolverMixin.execute]. *)
Definition other_error (e : pyexn) : Prop := e <> ValueError no_action_msg.

(** A document with the two members the importers read. *)
Definition raw_document (action_name : string) (records : list json) : json :=
  JObj [("name", JStr action_name); ("keyframes", JList records)].

(** ** Example data *)

(** The control point of the example in section 8 of the
    specification. *)
Definition spec_point : Keyframe :=
  mkKeyframe (1, 0)%Q (5 # 10, 0)%Q HT_FREE (15 # 10, 0)%Q HT_FREE IP_BEZIER EZ_AUTO
             0%Q (170158 # 100000) (1 # 10) KT_KEYFRAME.

Definition later_point : Keyframe :=
  mkKeyframe (2, 3)%Q (15 # 10, 3)%Q HT_AUTO (25 # 10, 3)%Q HT_AUTO IP_LINEAR EZ_EASE_IN
             0%Q (170158 # 100000) (1 # 10) KT_EXTREME.

Definition prior_point : Keyframe :=
  mkKeyframe (0, 7)%Q (-5 # 10, 7)%Q HT_VECTOR (5 # 10, 7)%Q HT_VECTOR IP_CONSTANT EZ_AUTO
             0%Q (170158 # 100000) (1 # 10) KT_BREAKDOWN.

(** A point at the time of [spec_point] with another value. *)
Definition rival_point : Keyframe :=
  mkKeyframe (1, 5)%Q (5 # 10, 5)%Q HT_FREE (15 # 10, 5)%Q HT_FREE IP_BEZIER EZ_AUTO
             0%Q (170158 # 100000) (1 # 10) KT_KEYFRAME.

Definition location_x : string * Z := ("location", 0).

Definition location_record (p : Keyframe) : kf_record :=
  mkRecord "location" "Object Transforms" 0 p.

Definition rotation_record (p : Keyframe) : kf_record :=
  mkRecord "rotation_euler" "Object Transforms" 2 p.

Definition empty_action : Action := mkAction "Test" [] [].

(** An action whose channel [location[0]] holds one control point and
    belongs to no group, as [touch_fcurve] creates channels. *)
Definition ungrouped_action : Action :=
  mkAction "Test" [] [mkFCurve "location" 0 None [spec_point] []].

Definition grouped_action : Action :=
  mkAction "Test" ["Object Transforms"]
           [mkFCurve "location" 0 (Some "Object Transforms") [spec_point; later_point] [];
            mkFCurve "rotation_euler" 2 (Some "Object Transforms") [prior_point] []].

Definition prior_action : Action :=
  mkAction "Test" ["Object Transforms"]
           [mkFCurve "location" 0 (Some "Object Transforms") [prior_point] []].

(** An action with a channel in a group and a channel in no group. *)
Definition mixed_action : Action :=
  mkAction "Test" ["Object Transforms"]
           [mkFCurve "location" 0 (Some "Object Transforms") [spec_point; later_point] [];
            mkFCurve "rotation_euler" 2 None [prior_point] []].

(** An action whose only channel is stored as three samples. *)
Definition baked_action : Action :=
  mkAction "Baked" ["Object Transforms"]
           [mkFCurve "location" 0 (Some "Object Transforms") []
                     [(1, 0)%Q; (2, 1)%Q; (3, 0)%Q]].

(** An action whose only channel is stored as two samples. *)
Definition sampled_action : Action :=
  mkAction "Baked" ["Object Transforms"]
           [mkFCurve "location" 0 (Some "Object Transforms") [] [(1, 0)%Q; (2, 1)%Q]].

(** The record of [spec_point] without its [co] member. *)
Definition record_without_co : json :=
  JObj [("data_path", JStr "location"); ("group", JStr "Object Transforms");
        ("array_index", JInt 0); ("amplitude", JFloat 0); ("back", JFloat (170158 # 100000));
        ("easing", JStr "AUTO"); ("handle_left", json_vector (5 # 10, 0)%Q);
        ("handle_left_type", JStr "FREE"); ("handle_right", json_vector (15 # 10, 0)%Q);
        ("handle_right_type", JStr "FREE"); ("interpolation", JStr "BEZIER");
        ("period", JFloat (1 # 10)); ("type", JStr "KEYFRAME")].

(** A record with one member replaced. *)
Definition with_member (member : string) (v : json) (record : json) : json :=
  match record with
  | JObj fields =>
      JObj (map (fun kv => if String.eqb (fst kv) member then (member, v) else kv) fields)
  | other => other
  end.

(** The record of the example in section 8 of the specification. *)
Definition spec_record : json := record_json (location_record spec_point).

(** ** The record a control point is decoded from *)

Definition and_then {A B : Type} (r : pyexn + A) (k : A -> pyexn + B) : pyexn + B :=
  match r with
  | inl e => inl e
  | inr a => k a
  end.

Section Decode.

Variable float_of_str : string -> option Q.

(** [[float(v) for v in value]] assigned to a handle. *)
Definition decode_vector (value : json) : pyexn + (Q * Q) :=
  and_then (py_iter value) (fun vs =>
  and_then (map_result (py_float float_of_str) vs) as_vector2).

(** The arguments of [keyframe_points.insert] as the host converts
    them. *)
Definition decode_position (args : list json) (type_value : json)
  : pyexn + (Q * Q * keyframe_type) :=
  match args with
  | [frame; value] =>
      and_then (as_float frame) (fun t =>
      and_then (as_float value) (fun y =>
      and_then (as_enum type_value) (fun ty => inr (t, y, ty))))
  | _ => inl TypeError
  end.

(** The control point lines 187-201 read from a record, with the
    conversions in the order of the source: [co] and [type] go to the
    host as they are, [amplitude], [back] and the handle coordinates
    through [float()], the tags and [period] to the host as they are. *)
Definition decode_point (keyframe : json) : pyexn + Keyframe :=
  and_then (py_getitem keyframe "co") (fun co_value =>
  and_then (py_getitem keyframe "type") (fun type_value =>
  and_then (py_iter co_value) (fun args =>
  and_then (decode_position args type_value) (fun position =>
  and_then (and_then (py_getitem keyframe "amplitude") (py_float float_of_str)) (fun amp =>
  and_then (and_then (py_getitem keyframe "back") (py_float float_of_str)) (fun bk =>
  and_then (and_then (py_getitem keyframe "easing") as_enum) (fun ez =>
  and_then (and_then (py_getitem keyframe "handle_left") decode_vector) (fun hl =>
  and_then (and_then (py_getitem keyframe "handle_left_type") as_enum) (fun hlt =>
  and_then (and_then (py_getitem keyframe "handle_right") decode_vector) (fun hr =>
  and_then (and_then (py_getitem keyframe "handle_right_type") as_enum) (fun hrt =>
  and_then (and_then (py_getitem keyframe "interpolation") as_enum) (fun ip =>
  and_then (and_then (py_getitem keyframe "period") as_float) (fun per =>
  inr (mkKeyframe (fst (fst position), snd (fst position)) hl hlt hr hrt ip ez amp bk per
                  (snd position))))))))))))))).

End Decode.

(** The comparison of the scan of [touch_fcurve]: the channel's
    [data_path] and [array_index] compare equal to the arguments. *)
Definition same_key (path index : json) (c : FCurve) : bool :=
  py_eq (JStr (data_path c)) path && py_eq (JInt (array_index c)) index.

(** The keys the records of a document name: the pairs their
    [data_path] and [array_index] members compare equal to. *)
Definition named_key (record : json) : option (string * Z) :=
  match py_getitem record "data_path", py_getitem record "array_index" with
  | inr (JStr s), inr index => (fun z => (s, z)) <$> as_index index
  | _, _ => None
  end.

Definition named_keys (records : list json) : gset (string * Z) :=
  list_to_set (omap named_key records).

(** ** The operator classes and the registration of the add-on *)

Inductive operator : Type :=
  | ANIMIO_OT_fcurve_exporter
  | ANIMIO_OT_action_importer
  | ANIMIO_OT_fcurve_replacer
  | ANIMIO_OT_fcurve_merger.

#[export] Instance operator_eq_dec : EqDecision operator.
Proof. solve_decision. Defined.

Definition bl_idname (cls : operator) : string :=
  match cls with
  | ANIMIO_OT_fcurve_exporter => "animio.fcurve_exporter"
  | ANIMIO_OT_action_importer => "animio.action_importer"
  | ANIMIO_OT_fcurve_replacer => "animio.fcurve_replacer"
  | ANIMIO_OT_fcurve_merger => "animio.fcurve_merger"
  end.

Definition bl_label (cls : operator) : string :=
  match cls with
  | ANIMIO_OT_fcurve_exporter => "Export Anim Data"
  | _ => "Import from JSON"
  end.

Definition contextual_label (cls : operator) : string :=
  match cls with
  | ANIMIO_OT_fcurve_exporter => "Export as JSON"
  | ANIMIO_OT_action_importer => "Replace Action from JSON"
  | ANIMIO_OT_fcurve_replacer => "Replace/Add Curves from JSON"
  | ANIMIO_OT_fcurve_merger => "Merge/Add Curves from JSON"
  end.

Definition importers : list operator :=
  [ANIMIO_OT_action_importer; ANIMIO_OT_fcurve_replacer; ANIMIO_OT_fcurve_merger].

Definition operators : list operator := ANIMIO_OT_fcurve_exporter :: importers.

(** The context an operator or a menu is called in: [context.object]
    is the active object or [None]. *)
Record Context : Type := mkContext { context_object : option Object }.

(** [poll], the same in the exporter and in the importers. *)
Definition poll (context : Context) : bool :=
  match context_object context with
  | Some _ => true
  | None => false
  end.

(** A menu layout of the host, as far as the add-on writes to it: the
    entries added and the [operator_context] attribute. *)
Inductive menu_item : Type :=
  | MenuOperator (idname text : string)
  | MenuSeparator.

Record Layout : Type := mkLayout {
  operator_context : string;
  items : list menu_item
}.

Definition layout_operator (idname text : string) (layout : Layout) : Layout :=
  mkLayout (operator_context layout) (items layout ++ [MenuOperator idname text])%list.

Definition layout_separator (layout : Layout) : Layout :=
  mkLayout (operator_context layout) (items layout ++ [MenuSeparator])%list.

(** How a menu function ends: normally, or with the [AttributeError] of
    an attribute access on [None]; the layout is as the function left
    it. *)
Inductive draw_outcome : Type :=
  | Drawn (layout : Layout)
  | AttributeError (layout : Layout).

(** [graph_context_menu_func(self, context)], on [self.layout]. *)
Definition graph_context_menu_func (context : Context) (layout : Layout) : draw_outcome :=
  let layout := mkLayout "INVOKE_DEFAULT" (items layout) in
  match context_object context with
  | None => AttributeError layout
  | Some obj =>
      Drawn (layout_separator
        (if has_active_action obj
         then fold_left (fun l cls => layout_operator (bl_idname cls) (contextual_label cls) l)
                        operators layout
         else layout_operator (bl_idname ANIMIO_OT_action_importer) "Import Action from JSON"
                              layout))
  end.

(** What the host keeps of the add-on: the classes registered with
    [bpy.utils] and the draw functions of the graph editor's context
    menu. *)
Record Registry : Type := mkRegistry {
  registered : list operator;
  graph_context_menu : list (Context -> Layout -> draw_outcome)
}.

(** Modelled from the host's documentation: [bpy.utils.register_class]
    refuses a class that is registered. *)
Definition register_class (cls : operator) : M Registry unit :=
  fun host =>
    if bool_decide (cls ∈ registered host)
    then Raise (ValueError "already registered as a subclass") host
    else Ret tt (mkRegistry (registered host ++ [cls])%list (graph_context_menu host)).

(** Modelled from the host's documentation: [bpy.utils.unregister_class]
    refuses a class that is not registered. *)
Definition unregister_class (cls : operator) : M Registry unit :=
  fun host =>
    if bool_decide (cls ∈ registered host)
    then Ret tt (mkRegistry (filter (fun c => c <> cls) (registered host))
                            (graph_context_menu host))
    else Raise RuntimeError host.

(** Modelled from the host's documentation: [Menu.prepend] puts a draw
    function before the ones the menu has. *)
Definition menu_prepend (draw : Context -> Layout -> draw_outcome) : M Registry unit :=
  modify (fun host => mkRegistry (registered host) (draw :: graph_context_menu host)).

(** [register()]. *)
Definition register : M Registry unit :=
  for_each register_class operators ;;
  menu_prepend graph_context_menu_func.

(** [unregister()]. *)
Definition unregister : M Registry unit :=
  for_each unregister_class operators.

(** The entries a layout offers for an operator. *)
Definition offers (cls : operator) (menu : list menu_item) : Prop :=
  exists text, In (MenuOperator (bl_idname cls) text) menu.

(** The channel has no group, or it has the key and the group of a
    channel of [cs]. *)
Definition inherits (cs : list FCurve) (c' : FCurve) : Prop :=
  group c' = None \/
  exists c, In c cs /\ curve_key c' = curve_key c /\ group c' = group c.

(** The action has its name and its groups, and no channel has got a
    group. *)
Definition keeps_groups (a a' : Action) : Prop :=
  name a' = name a /\ groups a' = groups a /\ Forall (inherits (fcurves a)) (fcurves a').

(** The computation [m] from the state [s] ends as the decoding [d]
    tells: with the state [target k] when [d] is the value [k], with the
    exception of [d] otherwise. *)
Definition agrees {A : Type} (d : pyexn + A) (m : M Action unit) (s : Action)
    (target : A -> Action) : Prop :=
  match d with
  | inr k => m s = Ret tt (target k)
  | inl e => exists s', m s = Raise e s'
  end.

(** The records list of the export loop holds records of
    [keyframe_to_json] only. *)
Definition typed_records (st st' : export_state) : Prop :=
  (exists rs, snd st = map record_json rs) -> exists rs, snd st' = map record_json rs.

(** * Properties *)

Open Scope list_scope.

(** ** Reasoning about computations *)

Lemma bind_ret_l {S A B : Type} (a : A) (k : A -> M S B) (s : S) :
  bind (ret a) k s = k a s.
Proof. reflexivity. Qed.

Lemma bind_assoc {S A B C : Type} (m : M S A) (k : A -> M S B) (h : B -> M S C) (s : S) :
  bind (bind m k) h s = bind m (fun a => bind (k a) h) s.
Proof. unfold bind. destruct (m s); reflexivity. Qed.

Lemma for_each_ext {S A : Type} (f g : A -> M S unit) (l : list A) :
  (forall x s, f x s = g x s) -> forall s, for_each f l s = for_each g l s.
Proof.
  intros Hfg. induction l as [|x l IH]; intros s; simpl; [reflexivity|].
  unfold bind. rewrite Hfg. destruct (g x s); [apply IH | reflexivity].
Qed.


(** A preorder on states that every step of a computation respects is
    respected by the computation, whichever way it ends. *)
Section Steps.
Context {S : Type} (R : S -> S -> Prop).
Hypothesis R_refl : forall s, R s s.
Hypothesis R_trans : forall s1 s2 s3, R s1 s2 -> R s2 s3 -> R s1 s3.

Lemma steps_ret {A : Type} (a : A) : steps R (ret a).
Proof. intros s. apply R_refl. Qed.

Lemma steps_raise {A : Type} (e : pyexn) : steps R (@raise S A e).
Proof. intros s. apply R_refl. Qed.

Lemma steps_lift {A : Type} (r : pyexn + A) : steps R (lift r).
Proof. destruct r; [apply steps_raise | apply steps_ret]. Qed.

Lemma steps_bind {A B : Type} (m : M S A) (k : A -> M S B) :
  steps R m -> (forall a, steps R (k a)) -> steps R (bind m k).
Proof.
  intros Hm Hk s. unfold bind. specialize (Hm s).
  destruct (m s) as [a s'|e s']; simpl in *; [|exact Hm].
  eapply R_trans; [exact Hm | apply Hk].
Qed.

Lemma steps_for_each {A : Type} (f : A -> M S unit) (l : list A) :
  (forall x, steps R (f x)) -> steps R (for_each f l).
Proof.
  intros Hf. induction l as [|x l IH]; simpl.
  - apply steps_ret.
  - apply steps_bind; [apply Hf | intros _; exact IH].
Qed.

Lemma steps_modify (f : S -> S) : (forall s, R s (f s)) -> steps R (modify f).
Proof. intros Hf s. apply Hf. Qed.
End Steps.

(** Goes through a sequence of binds, leaving the steps that are not
    pure. *)
Ltac steps_seq refl trans :=
  repeat first
    [ apply (steps_ret _ refl)
    | apply (steps_raise _ refl)
    | apply (steps_lift _ refl)
    | apply (steps_bind _ trans); [|intros ?] ].

(** ** Keys *)

Lemma py_eq_str (s : string) (v : json) : py_eq (JStr s) v = true -> v = JStr s.
Proof.
  destruct v; simpl; try discriminate.
  intros H. apply String.eqb_eq in H. congruence.
Qed.

Lemma as_index_number (v : json) (q : Q) (z : Z) :
  as_number v = Some q -> Qeq_bool (inject_Z z) q = true -> as_index v = Some z.
Proof.
  intros Hv Hq. unfold as_index. rewrite Hv.
  apply Qeq_bool_iff in Hq.
  assert (Hz : Qfloor q = z) by (rewrite <- Hq; apply Qfloor_Z).
  rewrite Hz.
  assert (Hb : Qeq_bool q (inject_Z z) = true) by (apply Qeq_bool_iff; symmetry; exact Hq).
  rewrite Hb. reflexivity.
Qed.

Lemma py_eq_int (z : Z) (v : json) : py_eq (JInt z) v = true -> as_index v = Some z.
Proof.
  unfold py_eq. simpl.
  destruct (as_number v) as [q|] eqn:Hv; [|discriminate].
  apply as_index_number. exact Hv.
Qed.

Lemma as_int_index (v : json) (z : Z) : as_int v = inr z -> as_index v = Some z.
Proof.
  destruct v; simpl; try discriminate; intros [= <-];
    (eapply as_index_number; [reflexivity | apply Qeq_bool_iff; reflexivity]).
Qed.

Lemma py_eq_typed (s s' : string) (z z' : Z) :
  py_eq (JStr s') (JStr s) && py_eq (JInt z') (JInt z) = bool_decide ((s', z') = (s, z)).
Proof.
  unfold py_eq; simpl.
  destruct (String.eqb_spec s' s) as [->|Hs]; simpl.
  - unfold Qeq_bool; simpl. rewrite !Z.mul_1_r.
    destruct (Z.eqb_spec z' z) as [->|Hz].
    + rewrite bool_decide_eq_true_2; reflexivity.
    + rewrite bool_decide_eq_false_2; [reflexivity | congruence].
  - rewrite bool_decide_eq_false_2; [reflexivity | congruence].
Qed.

Lemma find_curve_Some (path index : json) (cs : list FCurve) (i : nat) :
  find_curve path index cs = Some i ->
  exists c, cs !! i = Some c /\ key_matches path index (curve_key c).
Proof.
  revert i. induction cs as [|c cs IH]; intros i; simpl; [discriminate|].
  destruct (py_eq (JStr (data_path c)) path) eqn:Hp; simpl.
  - destruct (py_eq (JInt (array_index c)) index) eqn:Hi.
    + intros [= <-]. exists c. split; [reflexivity|].
      split; [apply py_eq_str, Hp | apply py_eq_int, Hi].
    + destruct (find_curve path index cs) as [j|]; simpl; [|discriminate].
      intros [= <-]. apply (IH j). reflexivity.
  - destruct (find_curve path index cs) as [j|]; simpl; [|discriminate].
    intros [= <-]. apply (IH j). reflexivity.
Qed.

Lemma has_key_false (k : string * Z) (cs : list FCurve) :
  has_key k cs = false -> ~ In k (map curve_key cs).
Proof.
  unfold has_key. induction cs as [|c cs IH]; simpl; [tauto|].
  intros H. apply orb_false_iff in H as [H1 H2].
  apply bool_decide_eq_false in H1. intros [Hc|Hc]; [congruence | exact (IH H2 Hc)].
Qed.

Lemma has_key_true (k : string * Z) (cs : list FCurve) :
  has_key k cs = true -> In k (map curve_key cs).
Proof.
  unfold has_key. induction cs as [|c cs IH]; simpl; [discriminate|].
  intros H. apply orb_true_iff in H as [H|H].
  - apply bool_decide_eq_true in H. left; exact H.
  - right; exact (IH H).
Qed.

(** ** What [touch_fcurve] does to the list of channels *)

Lemma fcurves_new_shape (path index : json) (a : Action) :
  match fcurves_new path index a with
  | Ret i a' =>
      name a' = name a /\ groups a' = groups a /\ i = length (fcurves a) /\
      exists c, fcurves a' = fcurves a ++ [c] /\ key_matches path index (curve_key c) /\
                has_key (curve_key c) (fcurves a) = false /\
                group c = None /\ keyframe_points c = []
  | Raise e a' => a' = a
  end.
Proof.
  unfold fcurves_new, bind, lift.
  destruct path; simpl; try reflexivity.
  destruct (as_int index) as [e|z] eqn:Hz; simpl; [reflexivity|].
  destruct (has_key (s, z) (fcurves a)) eqn:Hk; [reflexivity|].
  simpl. repeat split.
  eexists. split; [reflexivity|]. simpl.
  repeat split; [apply as_int_index, Hz | exact Hk].
Qed.

Lemma touch_fcurve_shape (path index : json) (replace : bool) (a : Action) :
  match touch_fcurve path index replace a with
  | Ret i a' =>
      name a' = name a /\ groups a' = groups a /\
      touched path index (fcurves a) (fcurves a') /\
      exists c, fcurves a' !! i = Some c /\ key_matches path index (curve_key c)
  | Raise e a' =>
      name a' = name a /\ groups a' = groups a /\
      touched path index (fcurves a) (fcurves a')
  end.
Proof.
  unfold touch_fcurve.
  destruct (find_curve path index (fcurves a)) as [j|] eqn:Hfind.
  - apply find_curve_Some in Hfind as (c0 & Hj & Hm).
    destruct replace; simpl.
    + unfold bind, fcurves_remove, modify.
      pose proof (fcurves_new_shape path index
                    (set_fcurves (delete j (fcurves a)) a)) as Hnew.
      destruct (fcurves_new path index _) as [i a'|e a'].
      * destruct Hnew as (Hn & Hg & Hi & c & Hc & Hk & Hh & Hgr & Hpts). simpl in *.
        repeat split; [exact Hn | exact Hg | |].
        -- rewrite Hc. eapply touched_replaced; eassumption.
        -- exists c. split; [|exact Hk].
           rewrite Hc, Hi. rewrite lookup_app_r by lia.
           rewrite Nat.sub_diag. reflexivity.
      * subst a'. simpl. repeat split. eapply touched_removed; eassumption.
    + repeat split; [apply touched_same|]. exists c0. split; assumption.
  - pose proof (fcurves_new_shape path index a) as Hnew.
    destruct (fcurves_new path index a) as [i a'|e a'].
    + destruct Hnew as (Hn & Hg & Hi & c & Hc & Hk & Hh & Hgr & Hpts).
      repeat split; [exact Hn | exact Hg | |].
      * rewrite Hc. apply touched_created; assumption.
      * exists c. split; [|exact Hk].
        rewrite Hc, Hi. rewrite lookup_app_r by lia.
        rewrite Nat.sub_diag. reflexivity.
    + subst a'. repeat split. apply touched_same.
Qed.

Lemma NoDup_delete {A : Type} (l : list A) (j : nat) : NoDup l -> NoDup (delete j l).
Proof.
  intros H. eapply sublist_NoDup; [exact H | apply sublist_delete].
Qed.

Lemma map_delete {A B : Type} (f : A -> B) (l : list A) (j : nat) :
  map f (delete j l) = delete j (map f l).
Proof.
  revert j. induction l as [|x l IH]; intros [|j]; simpl; try reflexivity.
  f_equal. apply IH.
Qed.

Lemma touched_unique (path index : json) (cs cs' : list FCurve) :
  touched path index cs cs' -> NoDup (map curve_key cs) -> NoDup (map curve_key cs').
Proof.
  intros Ht Hnd. destruct Ht as [ |j c0 Hj Hm|c Hm Hk Hg Hp|j c0 c Hj Hm0 Hm Hk Hg Hp].
  - exact Hnd.
  - rewrite map_delete. apply NoDup_delete, Hnd.
  - rewrite map_app. simpl. apply NoDup_app. split; [exact Hnd|]. split.
    + intros x Hx Hx'. apply list_elem_of_In in Hx, Hx'. simpl in Hx'.
      destruct Hx' as [<-|[]]. exact (has_key_false _ _ Hk Hx).
    + apply NoDup_singleton.
  - rewrite map_app. simpl. apply NoDup_app. split; [|split].
    + rewrite map_delete. apply NoDup_delete, Hnd.
    + intros x Hx Hx'. apply list_elem_of_In in Hx, Hx'. simpl in Hx'.
      destruct Hx' as [<-|[]]. exact (has_key_false _ _ Hk Hx).
    + apply NoDup_singleton.
Qed.

(** ** Lines 187-201 change the control points of one channel only *)

Lemma alter_set_points_id (l : list FCurve) (i : nat) :
  exists pts, l = alter (set_keyframe_points pts) i l.
Proof.
  revert i. induction l as [|c l IH]; intros i.
  - exists []. reflexivity.
  - destruct i as [|i]; simpl.
    + exists (keyframe_points c). destruct c; reflexivity.
    + destruct (IH i) as [pts Hpts]. exists pts. f_equal. exact Hpts.
Qed.

Lemma alter_set_points_twice (l : list FCurve) (i : nat) (p1 p2 : list Keyframe) :
  alter (set_keyframe_points p2) i (alter (set_keyframe_points p1) i l)
  = alter (set_keyframe_points p2) i l.
Proof.
  revert i. induction l as [|c l IH]; intros [|i]; simpl; try reflexivity.
  f_equal. apply IH.
Qed.

Lemma insert_as_alter (l : list FCurve) (i : nat) (c : FCurve) (pts : list Keyframe) :
  l !! i = Some c ->
  <[i := set_keyframe_points pts c]> l = alter (set_keyframe_points pts) i l.
Proof.
  revert i. induction l as [|x l IH]; intros [|i]; simpl; try discriminate.
  - intros [= ->]. reflexivity.
  - intros H. f_equal. apply IH, H.
Qed.

Lemma alter_points_as_set (l : list FCurve) (i : nat) (g : list Keyframe -> list Keyframe) :
  exists pts,
    alter (fun c => set_keyframe_points (g (keyframe_points c)) c) i l
    = alter (set_keyframe_points pts) i l.
Proof.
  revert i. induction l as [|c l IH]; intros i.
  - exists []. reflexivity.
  - destruct i as [|i]; simpl.
    + exists (g (keyframe_points c)). reflexivity.
    + destruct (IH i) as [pts Hpts]. exists pts. f_equal. exact Hpts.
Qed.

Lemma points_changed_refl (i : nat) (a : Action) : points_changed i a a.
Proof. repeat split. apply alter_set_points_id. Qed.

Lemma points_changed_trans (i : nat) (a1 a2 a3 : Action) :
  points_changed i a1 a2 -> points_changed i a2 a3 -> points_changed i a1 a3.
Proof.
  intros (Hn1 & Hg1 & p1 & H1) (Hn2 & Hg2 & p2 & H2).
  split; [congruence|]. split; [congruence|].
  exists p2. rewrite H2, H1. apply alter_set_points_twice.
Qed.

Lemma keyframe_points_insert_steps (i : nat) (args : list json) (kt : json) :
  steps (points_changed i) (keyframe_points_insert i args kt).
Proof.
  unfold keyframe_points_insert.
  destruct args as [|frame [|value [|]]];
    try (apply steps_raise; intros ?; apply points_changed_refl).
  steps_seq (points_changed_refl i) (points_changed_trans i).
  intros s. destruct (fcurves s !! i) as [c|] eqn:Hc; [|apply points_changed_refl].
  destruct (insert_point a a0 a1 (keyframe_points c)) as [pts j]. simpl.
  repeat split. exists pts. apply insert_as_alter, Hc.
Qed.

Lemma update_keyframe_steps (i j : nat) (f : Keyframe -> Keyframe) :
  steps (points_changed i) (update_keyframe i j f).
Proof.
  intros s. simpl. repeat split.
  apply (alter_points_as_set (fcurves s) i (alter f j)).
Qed.

Lemma insert_control_point_steps (float_of_str : string -> option Q) (keyframe : json)
    (i : nat) :
  steps (points_changed i) (insert_control_point float_of_str keyframe i).
Proof.
  unfold insert_control_point.
  repeat first
    [ apply keyframe_points_insert_steps
    | apply update_keyframe_steps
    | progress steps_seq (points_changed_refl i) (points_changed_trans i) ].
Qed.

Lemma map_key_alter (l : list FCurve) (i : nat) (pts : list Keyframe) :
  map curve_key (alter (set_keyframe_points pts) i l) = map curve_key l.
Proof.
  revert i. induction l as [|c l IH]; intros [|i]; simpl; try reflexivity.
  f_equal. apply IH.
Qed.

Lemma points_changed_keys (i : nat) (a a' : Action) :
  points_changed i a a' -> map curve_key (fcurves a') = map curve_key (fcurves a).
Proof. intros (_ & _ & pts & ->). apply map_key_alter. Qed.

(** ** The effect of one record on the container *)

Lemma key_matches_unique (path index : json) (k k' : string * Z) :
  key_matches path index k -> key_matches path index k' -> k = k'.
Proof.
  intros [H1 H2] [H3 H4]. destruct k, k'; simpl in *. congruence.
Qed.

Lemma in_filter_true (path index : json) (F : gset (string * Z)) :
  in_filter (path, index) F = inr true ->
  exists k, key_matches path index k /\ k ∈ F.
Proof.
  unfold in_filter. destruct (key_hashable (path, index)); [|discriminate]. simpl.
  destruct path; try discriminate.
  destruct (as_index index) as [z|] eqn:Hz; [|discriminate].
  intros [= H]. apply bool_decide_eq_true in H.
  exists (s, z). split; [split; [reflexivity | exact Hz] | exact H].
Qed.

Section RecordEffect.
Variable float_of_str : string -> option Q.
Variable filter : option (gset (string * Z)).
Variable replace_curve : bool.

Local Ltac resolve_tail path index Hpass :=
  let Ht := fresh "Ht" in
  match goal with
  | |- context [in_replaced (path, index) ?r] =>
      destruct (in_replaced (path, index) r) as [?|?]; simpl; [left; reflexivity|]
  end;
  unfold on_action;
  match goal with
  | |- context [touch_fcurve path index ?b ?a] =>
      pose proof (touch_fcurve_shape path index b a) as Ht;
      destruct (touch_fcurve path index b a) as [? ?|? ?]
  end;
  [ destruct Ht as (? & ? & ? & ? & ? & ?);
    destruct replace_curve; simpl; exists path, index;
    unfold resolved; repeat split; eauto
  | destruct Ht as (? & ? & ?); right; exists path, index;
    unfold resolved; repeat split; auto ].

Lemma resolve_channel_shape (keyframe : json) (st : import_state) :
  match resolve_channel filter replace_curve keyframe st with
  | Ret None st' => st' = st
  | Ret (Some i) st' =>
      exists path index,
        py_getitem keyframe "data_path" = inr path /\
        py_getitem keyframe "array_index" = inr index /\
        resolved filter path index st st' /\
        snd st' = (if replace_curve then (path, index) :: snd st else snd st) /\
        exists c, fcurves (fst st') !! i = Some c /\ key_matches path index (curve_key c)
  | Raise e st' =>
      st' = st \/
      exists path index, resolved filter path index st st' /\ snd st' = snd st
  end.
Proof.
  unfold resolve_channel, bind.
  destruct (py_getitem keyframe "data_path") as [e|path]; simpl; [left; reflexivity|].
  destruct (py_getitem keyframe "array_index") as [e|index]; simpl; [left; reflexivity|].
  destruct (truthy filter) eqn:Htr.
  - destruct (in_filter (path, index) (default ∅ filter)) as [e|found] eqn:Hf;
      simpl; [left; reflexivity|].
    destruct found; simpl; [|reflexivity].
    assert (Hpass : passes filter path index)
      by (intros _; apply in_filter_true, Hf).
    resolve_tail path index Hpass.
  - simpl.
    assert (Hpass : passes filter path index) by (intros Hx; congruence).
    resolve_tail path index Hpass.
Qed.

(** Whichever way the processing of a record ends, the container is
    what it was, or the record's channel has been touched and, at
    most, the control points of that channel have changed. *)
Lemma insert_keyframe_shape (keyframe : json) (st : import_state) :
  let st' := final_state (insert_keyframe float_of_str filter replace_curve keyframe st) in
  st' = st \/
  exists path index st1,
    resolved filter path index st st1 /\
    (fst st' = fst st1 \/
     exists i c, fcurves (fst st1) !! i = Some c /\
                 key_matches path index (curve_key c) /\
                 points_changed i (fst st1) (fst st')).
Proof.
  unfold insert_keyframe, bind.
  pose proof (resolve_channel_shape keyframe st) as Hr.
  destruct (resolve_channel filter replace_curve keyframe st) as [[i|] st1|e st1]; simpl.
  - destruct Hr as (path & index & _ & _ & Hres & _ & c & Hc & Hk).
    right. exists path, index, st1. split; [exact Hres|]. right.
    exists i, c. split; [exact Hc|]. split; [exact Hk|].
    unfold on_action.
    pose proof (insert_control_point_steps float_of_str keyframe i (fst st1)) as Hs.
    destruct (insert_control_point float_of_str keyframe i (fst st1)); exact Hs.
  - left. exact Hr.
  - destruct Hr as [->|(path & index & Hres & _)]; [left; reflexivity|].
    right. exists path, index, st1. split; [exact Hres|]. left. reflexivity.
Qed.
End RecordEffect.

(** ** Channel key uniqueness *)

Lemma insert_keyframe_unique (float_of_str : string -> option Q)
    (filter : option (gset (string * Z))) (replace_curve : bool) (keyframe : json)
    (st : import_state) :
  unique_keys (fst st) ->
  unique_keys (fst (final_state (insert_keyframe float_of_str filter replace_curve keyframe st))).
Proof.
  intros Hu.
  destruct (insert_keyframe_shape float_of_str filter replace_curve keyframe st)
    as [->|(path & index & st1 & (_ & _ & _ & Ht) & Hrest)]; [exact Hu|].
  apply (touched_unique _ _ _ _ Ht) in Hu.
  destruct Hrest as [->|(i & c & _ & _ & Hp)]; [exact Hu|].
  unfold unique_keys. rewrite (points_changed_keys _ _ _ Hp). exact Hu.
Qed.

Lemma insert_keyframes_loop_unique (float_of_str : string -> option Q) (keyframe_data : json)
    (filter : option (gset (string * Z))) (replace_curve : bool) :
  steps keeps_unique (insert_keyframes_loop float_of_str keyframe_data filter replace_curve).
Proof.
  assert (Hrefl : forall st, keeps_unique st st) by (intros st H; exact H).
  assert (Htrans : forall s1 s2 s3, keeps_unique s1 s2 -> keeps_unique s2 s3 ->
                                    keeps_unique s1 s3)
    by (unfold keeps_unique; auto).
  unfold insert_keyframes_loop.
  apply (steps_bind _ Htrans); [apply (steps_lift _ Hrefl)|]. intros records.
  apply (steps_for_each _ Hrefl Htrans). intros keyframe st Hu.
  apply insert_keyframe_unique, Hu.
Qed.

Lemma insert_keyframes_final (float_of_str : string -> option Q) (keyframe_data : json)
    (filter : option (gset (string * Z))) (replace_curve : bool) (a : Action) :
  final_state (insert_keyframes float_of_str keyframe_data filter replace_curve a)
  = fst (final_state (insert_keyframes_loop float_of_str keyframe_data filter replace_curve
                                            (a, []))).
Proof.
  unfold insert_keyframes.
  destruct (insert_keyframes_loop _ _ _ _ _); reflexivity.
Qed.

Lemma touch_fcurve_unique (path index : json) (replace : bool) (a : Action) :
  unique_keys a -> unique_keys (final_state (touch_fcurve path index replace a)).
Proof.
  intros Hu. pose proof (touch_fcurve_shape path index replace a) as H.
  destruct (touch_fcurve path index replace a); simpl;
    eapply touched_unique; try exact Hu; apply H.
Qed.

(** C4. A container with at most one channel per key still has at most
    one channel per key after any sequence of [touch_fcurve] and
    [insert_keyframes] calls, with any arguments and however the calls
    end. *)
Theorem C4_key_uniqueness_invariant (float_of_str : string -> option Q)
    (ops : list import_op) (a : Action) :
  unique_keys a -> unique_keys (run_ops float_of_str ops a).
Proof.
  unfold run_ops. revert a. induction ops as [|op ops IH]; intros a Hu; simpl; [exact Hu|].
  apply IH. destruct op as [p i r|d f r]; simpl.
  - apply touch_fcurve_unique, Hu.
  - rewrite insert_keyframes_final.
    apply (insert_keyframes_loop_unique float_of_str d f r (a, [])), Hu.
Qed.

(** ** The filter *)

Lemma truthy_empty : truthy (Some ∅) = false.
Proof. unfold truthy. rewrite bool_decide_eq_true_2; reflexivity. Qed.

Lemma truthy_nonempty (F : gset (string * Z)) : F <> ∅ -> truthy (Some F) = true.
Proof. intros H. unfold truthy. rewrite bool_decide_eq_false_2; [reflexivity | exact H]. Qed.

(** An empty filter set is a false value, so [insert_keyframes] treats
    it as it treats no filter. *)
Lemma insert_keyframes_empty_filter (float_of_str : string -> option Q)
    (keyframe_data : json) (replace_curve : bool) (a : Action) :
  insert_keyframes float_of_str keyframe_data (Some ∅) replace_curve a
  = insert_keyframes float_of_str keyframe_data None replace_curve a.
Proof.
  unfold insert_keyframes, insert_keyframes_loop, bind.
  destruct (py_iter keyframe_data) as [e|records]; simpl; [reflexivity|].
  rewrite (for_each_ext (insert_keyframe float_of_str (Some ∅) replace_curve)
                        (insert_keyframe float_of_str None replace_curve)); [reflexivity|].
  intros keyframe s. unfold insert_keyframe, resolve_channel.
  rewrite truthy_empty. reflexivity.
Qed.

Section Outside.
Variable F : gset (string * Z).

Lemma outside_delete (cs : list FCurve) (j : nat) (c : FCurve) :
  cs !! j = Some c -> curve_key c ∈ F -> outside F (delete j cs) = outside F cs.
Proof.
  unfold outside. revert j. induction cs as [|x cs IH]; intros [|j]; simpl; try discriminate.
  - intros [= ->] Hc. rewrite filter_cons_False; [reflexivity | auto].
  - intros Hj Hc. rewrite !filter_cons. rewrite (IH j Hj Hc). reflexivity.
Qed.

Lemma outside_app (cs : list FCurve) (c : FCurve) :
  curve_key c ∈ F -> outside F (cs ++ [c]) = outside F cs.
Proof.
  intros Hc. unfold outside. rewrite filter_app.
  rewrite (filter_cons_False _ c []) by auto.
  rewrite filter_nil. apply app_nil_r.
Qed.

Lemma outside_alter (cs : list FCurve) (i : nat) (c : FCurve) (pts : list Keyframe) :
  cs !! i = Some c -> curve_key c ∈ F ->
  outside F (alter (set_keyframe_points pts) i cs) = outside F cs.
Proof.
  unfold outside. revert i. induction cs as [|x cs IH]; intros [|i]; simpl; try discriminate.
  - intros [= ->] Hc. rewrite !filter_cons_False; [reflexivity | auto | auto].
  - intros Hi Hc. rewrite !filter_cons.
    pose proof (IH i Hi Hc) as E. unfold alter in E. rewrite E. reflexivity.
Qed.

Lemma touched_outside (path index : json) (k : string * Z) (cs cs' : list FCurve) :
  touched path index cs cs' -> key_matches path index k -> k ∈ F ->
  outside F cs' = outside F cs.
Proof.
  intros Ht Hk HF.
  assert (Hin : forall c, key_matches path index (curve_key c) -> curve_key c ∈ F).
  { intros c Hc. rewrite (key_matches_unique _ _ _ _ Hc Hk). exact HF. }
  destruct Ht as [ |j c0 Hj Hm|c Hm _ _ _|j c0 c Hj Hm0 Hm _ _ _].
  - reflexivity.
  - eapply outside_delete; eauto.
  - apply outside_app; auto.
  - rewrite outside_app by auto. eapply outside_delete; eauto.
Qed.

Variable float_of_str : string -> option Q.
Variable replace_curve : bool.
Hypothesis F_nonempty : F <> ∅.

Lemma insert_keyframe_outside (keyframe : json) :
  steps (same_outside F) (insert_keyframe float_of_str (Some F) replace_curve keyframe).
Proof.
  intros st. unfold same_outside.
  destruct (insert_keyframe_shape float_of_str (Some F) replace_curve keyframe st)
    as [->|(path & index & st1 & (Hpass & _ & _ & Ht) & Hrest)]; [reflexivity|].
  destruct (Hpass (truthy_nonempty F F_nonempty)) as (k & Hk & HF). simpl in HF.
  rewrite <- (touched_outside _ _ _ _ _ Ht Hk HF).
  destruct Hrest as [->|(i & c & Hc & Hkc & (_ & _ & pts & ->))]; [reflexivity|].
  apply (outside_alter _ _ c); [exact Hc|].
  rewrite (key_matches_unique _ _ _ _ Hkc Hk). exact HF.
Qed.

Lemma insert_keyframes_outside (keyframe_data : json) (a : Action) :
  outside F (fcurves (final_state
               (insert_keyframes float_of_str keyframe_data (Some F) replace_curve a)))
  = outside F (fcurves a).
Proof.
  rewrite insert_keyframes_final.
  assert (Hrefl : forall st, same_outside F st st) by reflexivity.
  assert (Htrans : forall s1 s2 s3, same_outside F s1 s2 -> same_outside F s2 s3 ->
                                    same_outside F s1 s3)
    by (unfold same_outside; intros; congruence).
  assert (Hs : steps (same_outside F)
                 (insert_keyframes_loop float_of_str keyframe_data (Some F) replace_curve)).
  { unfold insert_keyframes_loop.
    apply (steps_bind _ Htrans); [apply (steps_lift _ Hrefl)|]. intros records.
    apply (steps_for_each _ Hrefl Htrans). apply insert_keyframe_outside. }
  exact (Hs (a, [])).
Qed.

Lemma insert_keyframe_filtered_out (keyframe : json) (st : import_state) :
  filtered_out F keyframe = true ->
  insert_keyframe float_of_str (Some F) replace_curve keyframe st = Ret tt st.
Proof.
  unfold filtered_out, insert_keyframe, resolve_channel, bind.
  rewrite (truthy_nonempty F F_nonempty).
  destruct (py_getitem keyframe "data_path") as [e|path]; [discriminate|].
  destruct (py_getitem keyframe "array_index") as [e|index]; [discriminate|].
  simpl.
  destruct (in_filter (path, index) F) as [e|[]]; try discriminate.
  reflexivity.
Qed.

Lemma for_each_filtered_out (records : list json) (st : import_state) :
  for_each (insert_keyframe float_of_str (Some F) replace_curve) records st
  = for_each (insert_keyframe float_of_str (Some F) replace_curve)
             (filter (fun r => filtered_out F r = false) records) st.
Proof.
  revert st. induction records as [|r records IH]; intros st; [reflexivity|].
  destruct (filtered_out F r) eqn:Hr.
  - rewrite filter_cons_False by congruence.
    simpl. unfold bind. rewrite (insert_keyframe_filtered_out r st Hr). apply IH.
  - rewrite filter_cons_True by exact Hr.
    simpl. unfold bind.
    destruct (insert_keyframe float_of_str (Some F) replace_curve r st); [apply IH|reflexivity].
Qed.
End Outside.

(** C3 (amended). With a non-empty filter set F, [insert_keyframes]
    leaves the channels whose key is not in F exactly as they were,
    whatever the document and however the pass ends, and the records
    whose key is not in F are skipped: the pass over the document ends in
    the same container, with the same set [replaced] and the same result
    as the pass over the document without them. *)
Theorem C3_nonempty_filter_exclusive (float_of_str : string -> option Q)
    (F : gset (string * Z)) (replace_curve : bool) (keyframe_data : json)
    (records : list json) (a : Action) :
  F <> ∅ ->
  outside F (fcurves (final_state
               (insert_keyframes float_of_str keyframe_data (Some F) replace_curve a)))
  = outside F (fcurves a) /\
  insert_keyframes_loop float_of_str (JList records) (Some F) replace_curve (a, [])
  = insert_keyframes_loop float_of_str
      (JList (filter (fun r => filtered_out F r = false) records)) (Some F) replace_curve
      (a, []).
Proof.
  intros HF. split.
  - apply insert_keyframes_outside, HF.
  - unfold insert_keyframes_loop, bind. simpl. apply for_each_filtered_out, HF.
Qed.

(** ** Records with the field types of the data model *)

#[local] Arguments as_enum : simpl never.
#[local] Arguments json_enum : simpl never.

Lemma as_enum_handle_type (x : handle_type) : as_enum (json_enum x) = inr x.
Proof. destruct x; reflexivity. Qed.

Lemma as_enum_interpolation (x : interpolation_mode) : as_enum (json_enum x) = inr x.
Proof. destruct x; reflexivity. Qed.

Lemma as_enum_easing (x : easing_mode) : as_enum (json_enum x) = inr x.
Proof. destruct x; reflexivity. Qed.

Lemma as_enum_keyframe_type (x : keyframe_type) : as_enum (json_enum x) = inr x.
Proof. destruct x; reflexivity. Qed.

Lemma insert_point_put (k : Keyframe) (pts : list Keyframe) :
  alter (assign_attributes k)
        (snd (insert_point (fst (co k)) (snd (co k)) (kf_type k) pts))
        (fst (insert_point (fst (co k)) (snd (co k)) (kf_type k) pts))
  = put_point k pts.
Proof.
  induction pts as [|p pts IH]; simpl.
  - destruct k as [[t y] ? ? ? ? ? ? ? ? ? ?]. reflexivity.
  - unfold time at 1 2. destruct (fst (co k) ?= fst (co p))%Q.
    + simpl. reflexivity.
    + simpl. destruct k as [[t y] ? ? ? ? ? ? ? ? ? ?]. reflexivity.
    + destruct (insert_point (fst (co k)) (snd (co k)) (kf_type k) pts) as [pts' j].
      simpl in *. f_equal. exact IH.
Qed.

Lemma update_keyframe_inserted (cs : list FCurve) (a : Action) (i j : nat) (c : FCurve)
    (P : list Keyframe) (f : Keyframe -> Keyframe) :
  (i < length cs)%nat ->
  update_keyframe i j f (set_fcurves (<[i := set_keyframe_points P c]> cs) a)
  = Ret tt (set_fcurves (<[i := set_keyframe_points (alter f j P) c]> cs) a).
Proof.
  intros Hi. unfold update_keyframe, modify, set_fcurves. simpl. f_equal. f_equal.
  revert i Hi. induction cs as [|x cs IH]; intros [|i] Hi; simpl in *; try lia.
  - reflexivity.
  - f_equal. apply IH. lia.
Qed.

Lemma alter_alter {A : Type} (f g : A -> A) (j : nat) (l : list A) :
  alter f j (alter g j l) = alter (fun x => f (g x)) j l.
Proof.
  revert j. induction l as [|x l IH]; intros [|j]; simpl; try reflexivity.
  f_equal. apply IH.
Qed.

#[local] Arguments update_keyframe : simpl never.
#[local] Arguments keyframe_points_insert : simpl never.

Lemma keyframe_points_insert_typed (i : nat) (t y : Q) (ty : keyframe_type) (a : Action)
    (c : FCurve) :
  fcurves a !! i = Some c ->
  keyframe_points_insert i [JFloat t; JFloat y] (json_enum ty) a
  = Ret (snd (insert_point t y ty (keyframe_points c)))
        (set_fcurves
           (<[i := set_keyframe_points (fst (insert_point t y ty (keyframe_points c))) c]>
              (fcurves a)) a).
Proof.
  intros Hc. unfold keyframe_points_insert, bind. simpl.
  rewrite as_enum_keyframe_type. simpl. rewrite Hc.
  destruct (insert_point t y ty (keyframe_points c)). reflexivity.
Qed.

Section TypedRecord.
Variable float_of_str : string -> option Q.

(** Lines 187-201 on a record with typed fields. *)
Lemma insert_control_point_record (r : kf_record) (i : nat) (a : Action) (c : FCurve) :
  fcurves a !! i = Some c ->
  insert_control_point float_of_str (record_json r) i a
  = Ret tt (set_fcurves
              (<[i := set_keyframe_points (put_point (r_point r) (keyframe_points c)) c]>
                 (fcurves a)) a).
Proof.
  intros Hc. assert (Hi : (i < length (fcurves a))%nat) by (eapply lookup_lt_Some; eauto).
  rewrite <- insert_point_put.
  unfold insert_control_point, bind. cbn.
  rewrite (keyframe_points_insert_typed _ _ _ _ _ _ Hc).
  rewrite as_enum_easing, !as_enum_handle_type, as_enum_interpolation. cbn.
  repeat (rewrite update_keyframe_inserted by exact Hi; cbn).
  unfold assign_attributes. rewrite !alter_alter.
  destruct (handle_left (r_point r)), (handle_right (r_point r)). reflexivity.
Qed.
End TypedRecord.

(** ** The channel of a key *)

Lemma curve_points_cons (k : string * Z) (c : FCurve) (cs : list FCurve) :
  curve_points k (c :: cs)
  = if decide (curve_key c = k) then Some (keyframe_points c) else curve_points k cs.
Proof.
  unfold curve_points. simpl.
  destruct (decide (curve_key c = k)); [reflexivity|].
  destruct (list_find _ cs) as [[i x]|]; reflexivity.
Qed.

Lemma curve_points_None (k : string * Z) (cs : list FCurve) :
  curve_points k cs = None <-> ~ In k (map curve_key cs).
Proof.
  induction cs as [|c cs IH]; [simpl; unfold curve_points; simpl; tauto|].
  rewrite curve_points_cons. simpl.
  destruct (decide (curve_key c = k)) as [<-|Hne].
  - split; [discriminate | tauto].
  - rewrite IH. tauto.
Qed.

Lemma curve_points_lookup (cs : list FCurve) (i : nat) (c : FCurve) :
  NoDup (map curve_key cs) -> cs !! i = Some c ->
  curve_points (curve_key c) cs = Some (keyframe_points c).
Proof.
  revert i. induction cs as [|x cs IH]; intros [|i] Hnd Hi; simpl in *; try discriminate.
  - injection Hi as ->. rewrite curve_points_cons. rewrite decide_True; reflexivity.
  - rewrite curve_points_cons. apply NoDup_cons in Hnd as [Hx Hnd].
    rewrite decide_False; [eauto|].
    intros E. apply Hx. rewrite E. apply list_elem_of_In, in_map.
    apply list_elem_of_In. eapply list_elem_of_lookup_2; eauto.
Qed.

Lemma curve_points_app (k : string * Z) (cs : list FCurve) (c : FCurve) :
  curve_points k (cs ++ [c])
  = match curve_points k cs with
    | Some pts => Some pts
    | None => if decide (curve_key c = k) then Some (keyframe_points c) else None
    end.
Proof.
  induction cs as [|x cs IH]; simpl.
  - rewrite curve_points_cons. reflexivity.
  - rewrite !curve_points_cons. destruct (decide (curve_key x = k)); [reflexivity | exact IH].
Qed.

Lemma curve_points_delete (k : string * Z) (cs : list FCurve) (j : nat) (c : FCurve) :
  NoDup (map curve_key cs) -> cs !! j = Some c ->
  curve_points k (delete j cs)
  = if decide (curve_key c = k) then None else curve_points k cs.
Proof.
  revert j. induction cs as [|x cs IH]; intros [|j] Hnd Hj; simpl in *; try discriminate.
  - injection Hj as ->. apply NoDup_cons in Hnd as [Hx Hnd].
    rewrite curve_points_cons.
    destruct (decide (curve_key c = k)) as [<-|]; [|reflexivity].
    apply curve_points_None. intros H. apply Hx, list_elem_of_In, H.
  - apply NoDup_cons in Hnd as [Hx Hnd].
    rewrite !curve_points_cons. rewrite (IH j Hnd Hj).
    destruct (decide (curve_key x = k)) as [Hxk|]; [|reflexivity].
    rewrite decide_False; [reflexivity|].
    intros E. apply Hx. rewrite Hxk, <- E. apply list_elem_of_In, in_map.
    apply list_elem_of_In. eapply list_elem_of_lookup_2; eauto.
Qed.

Lemma curve_points_insert (k : string * Z) (cs : list FCurve) (i : nat) (c : FCurve)
    (pts : list Keyframe) :
  NoDup (map curve_key cs) -> cs !! i = Some c ->
  curve_points k (<[i := set_keyframe_points pts c]> cs)
  = if decide (curve_key c = k) then Some pts else curve_points k cs.
Proof.
  revert i. induction cs as [|x cs IH]; intros [|i] Hnd Hi; simpl in *; try discriminate.
  - injection Hi as ->. rewrite !curve_points_cons.
    change (curve_key (set_keyframe_points pts c)) with (curve_key c).
    destruct (decide (curve_key c = k)); reflexivity.
  - apply NoDup_cons in Hnd as [Hx Hnd].
    rewrite !curve_points_cons. rewrite (IH i Hnd Hi).
    destruct (decide (curve_key x = k)) as [Hxk|]; [|reflexivity].
    rewrite decide_False; [reflexivity|].
    intros E. apply Hx. rewrite Hxk, <- E. apply list_elem_of_In, in_map.
    apply list_elem_of_In. eapply list_elem_of_lookup_2; eauto.
Qed.

Lemma map_key_insert (cs : list FCurve) (i : nat) (c : FCurve) (pts : list Keyframe) :
  cs !! i = Some c ->
  map curve_key (<[i := set_keyframe_points pts c]> cs) = map curve_key cs.
Proof.
  intros Hc. rewrite (insert_as_alter _ _ _ _ Hc). apply map_key_alter.
Qed.

Lemma key_matches_typed (s : string) (z : Z) (k : string * Z) :
  key_matches (JStr s) (JInt z) k -> k = (s, z).
Proof.
  intros [H1 H2]. destruct k as [s' z']. simpl in *.
  injection H1 as ->. f_equal.
  unfold as_index in H2. simpl in H2.
  destruct (Qeq_bool _ _); [|discriminate].
  injection H2 as <-. apply Z.div_1_r.
Qed.

Lemma find_curve_None (s : string) (z : Z) (cs : list FCurve) :
  find_curve (JStr s) (JInt z) cs = None -> has_key (s, z) cs = false.
Proof.
  induction cs as [|c cs IH]; simpl; [reflexivity|].
  pose proof (py_eq_typed s (data_path c) z (array_index c)) as E.
  destruct (py_eq (JStr (data_path c)) (JStr s)); simpl in *.
  - destruct (py_eq (JInt (array_index c)) (JInt z)); [discriminate|].
    destruct (find_curve _ _ cs); [discriminate|]. intros _.
    unfold curve_key. rewrite <- E. simpl. apply IH. reflexivity.
  - destruct (find_curve _ _ cs); [discriminate|]. intros _.
    unfold curve_key. rewrite <- E. simpl. apply IH. reflexivity.
Qed.

(** [touch_fcurve] with a string and an integer on a container with
    unique keys: it returns the channel of the key, emptied or created as
    needed, and leaves the other channels alone. *)
Lemma touch_fcurve_typed (s : string) (z : Z) (replace : bool) (a : Action) :
  unique_keys a ->
  exists i a' c,
    touch_fcurve (JStr s) (JInt z) replace a = Ret i a' /\
    unique_keys a' /\ name a' = name a /\ groups a' = groups a /\
    fcurves a' !! i = Some c /\ curve_key c = (s, z) /\
    keyframe_points c = (if replace then [] else default [] (channel_points (s, z) a)) /\
    forall k, k <> (s, z) -> channel_points k a' = channel_points k a.
Proof.
  intros Hu. unfold touch_fcurve, channel_points.
  assert (Hnew : forall cs, has_key (s, z) cs = false ->
            fcurves_new (JStr s) (JInt z) (set_fcurves cs a)
            = Ret (length cs) (set_fcurves (cs ++ [mkFCurve s z None [] []]) a)).
  { intros cs Hk. unfold fcurves_new, bind. simpl. rewrite Hk. reflexivity. }
  destruct (find_curve (JStr s) (JInt z) (fcurves a)) as [j|] eqn:Hfind.
  - apply find_curve_Some in Hfind as (c0 & Hj & Hm).
    apply key_matches_typed in Hm.
    destruct replace; simpl.
    + assert (Hk : has_key (s, z) (delete j (fcurves a)) = false).
      { destruct (has_key (s, z) (delete j (fcurves a))) eqn:Hk; [|reflexivity].
        apply has_key_true in Hk. exfalso.
        assert (Hn : curve_points (s, z) (delete j (fcurves a)) = None).
        { rewrite (curve_points_delete _ _ _ _ Hu Hj). rewrite decide_True; auto. }
        apply curve_points_None in Hn. exact (Hn Hk). }
      unfold bind, fcurves_remove, modify.
      rewrite (Hnew _ Hk).
      exists (length (delete j (fcurves a))),
             (set_fcurves (delete j (fcurves a) ++ [mkFCurve s z None [] []]) a),
             (mkFCurve s z None [] []).
      assert (Hu' : NoDup (map curve_key (delete j (fcurves a)))).
      { rewrite map_delete. apply NoDup_delete, Hu. }
      split_and!; try reflexivity; simpl.
      * unfold unique_keys. simpl. rewrite map_app. apply NoDup_app. split; [exact Hu'|].
        split; [|apply NoDup_singleton].
        intros x Hx Hx'. apply list_elem_of_In in Hx, Hx'. simpl in Hx'.
        destruct Hx' as [<-|[]]. exact (has_key_false _ _ Hk Hx).
      * rewrite lookup_app_r by lia. rewrite Nat.sub_diag. reflexivity.
      * intros k Hk'. rewrite curve_points_app.
        rewrite (curve_points_delete _ _ _ _ Hu Hj). rewrite Hm.
        destruct (decide ((s, z) = k)) as [E|_]; [symmetry in E; contradiction|].
        destruct (curve_points k (fcurves a)); [reflexivity|].
        rewrite decide_False; [reflexivity | intros E; apply Hk'; symmetry; exact E].
    + exists j, a, c0. split_and!; auto.
      rewrite <- Hm. rewrite (curve_points_lookup _ _ _ Hu Hj). reflexivity.
  - apply find_curve_None in Hfind.
    pose proof (Hnew _ Hfind) as E.
    replace (set_fcurves (fcurves a) a) with a in E by (destruct a; reflexivity).
    rewrite E. clear E.
    exists (length (fcurves a)),
           (set_fcurves (fcurves a ++ [mkFCurve s z None [] []]) a),
           (mkFCurve s z None [] []).
    assert (Hn : curve_points (s, z) (fcurves a) = None)
      by (apply curve_points_None, has_key_false, Hfind).
    split_and!; try reflexivity; simpl.
    + unfold unique_keys. simpl. rewrite map_app. apply NoDup_app. split; [exact Hu|].
      split; [|apply NoDup_singleton].
      intros x Hx Hx'. apply list_elem_of_In in Hx, Hx'. simpl in Hx'.
      destruct Hx' as [<-|[]]. exact (has_key_false _ _ Hfind Hx).
    + rewrite lookup_app_r by lia. rewrite Nat.sub_diag. reflexivity.
    + rewrite Hn. destruct replace; reflexivity.
    + intros k Hk'. rewrite curve_points_app.
      destruct (curve_points k (fcurves a)); [reflexivity|].
      rewrite decide_False; [reflexivity | intros E; apply Hk'; symmetry; exact E].
Qed.

(** On a container with unique keys [touch_fcurve] never asks the host
    for a channel the container already has: the uniqueness of keys is
    kept by the scan and the removal, not by the host's refusal. *)
Lemma py_eq_as_int (z' z : Z) (index : json) :
  as_int index = inr z -> py_eq (JInt z') index = (z' =? z).
Proof.
  destruct index; simpl; try discriminate; intros [= <-];
    unfold py_eq, Qeq_bool; simpl; rewrite !Z.mul_1_r; reflexivity.
Qed.

Lemma find_curve_None_int (s : string) (index : json) (z : Z) (cs : list FCurve) :
  as_int index = inr z -> find_curve (JStr s) index cs = None -> has_key (s, z) cs = false.
Proof.
  intros Hz. induction cs as [|c cs IH]; simpl; [reflexivity|].
  rewrite (py_eq_as_int _ _ _ Hz).
  assert (Hstr : py_eq (JStr (data_path c)) (JStr s) = String.eqb (data_path c) s)
    by reflexivity.
  rewrite Hstr.
  destruct (String.eqb_spec (data_path c) s) as [Hs|Hs]; simpl.
  - destruct (Z.eqb_spec (array_index c) z) as [Hi|Hi]; [discriminate|].
    destruct (find_curve _ _ cs); [discriminate|]. intros _.
    rewrite bool_decide_eq_false_2 by (unfold curve_key; congruence).
    apply IH. reflexivity.
  - destruct (find_curve _ _ cs); [discriminate|]. intros _.
    rewrite bool_decide_eq_false_2 by (unfold curve_key; congruence).
    apply IH. reflexivity.
Qed.

Lemma touch_fcurve_not_refused (path index : json) (replace : bool) (a a' : Action) :
  unique_keys a -> touch_fcurve path index replace a <> Raise RuntimeError a'.
Proof.
  intros Hu. unfold touch_fcurve, fcurves_new, fcurves_remove, modify, bind.
  destruct (find_curve path index (fcurves a)) as [j|] eqn:Hfind.
  - destruct replace; simpl; [|discriminate].
    apply find_curve_Some in Hfind as (c0 & Hj & Hp & Hi).
    destruct path as [| | | |s| |]; simpl; try discriminate.
    destruct (as_int index) as [e|z] eqn:Hz; simpl;
      [destruct index; simpl in Hz; try discriminate Hz; injection Hz as <-; discriminate|].
    injection Hp as Hp.
    rewrite (as_int_index _ _ Hz) in Hi. injection Hi as Hi.
    assert (Hk : curve_key c0 = (s, z)) by (unfold curve_key in *; simpl in *; congruence).
    destruct (has_key (s, z) (delete j (fcurves a))) eqn:Hhas; [|discriminate].
    exfalso. apply has_key_true in Hhas.
    assert (Hn : curve_points (s, z) (delete j (fcurves a)) = None).
    { rewrite (curve_points_delete _ _ _ _ Hu Hj). rewrite decide_True; auto. }
    apply curve_points_None in Hn. exact (Hn Hhas).
  - destruct path as [| | | |s| |]; simpl; try discriminate.
    destruct (as_int index) as [e|z] eqn:Hz; simpl;
      [destruct index; simpl in Hz; try discriminate Hz; injection Hz as <-; discriminate|].
    rewrite (find_curve_None_int _ _ _ _ Hz Hfind). discriminate.
Qed.

(** ** A pass over records with typed fields *)

Lemma getitem_data_path (r : kf_record) :
  py_getitem (record_json r) "data_path" = inr (JStr (r_data_path r)).
Proof. reflexivity. Qed.

Lemma getitem_array_index (r : kf_record) :
  py_getitem (record_json r) "array_index" = inr (JInt (r_array_index r)).
Proof. reflexivity. Qed.

Lemma in_replaced_typed (k : string * Z) (replaced : list raw_key) :
  in_replaced (JStr (fst k), JInt (snd k)) replaced = inr (seen_key k replaced).
Proof. reflexivity. Qed.

Lemma seen_key_cons (k k' : string * Z) (replaced : list raw_key) :
  seen_key k ((JStr (fst k'), JInt (snd k')) :: replaced)
  = bool_decide (k' = k) || seen_key k replaced.
Proof.
  unfold seen_key. simpl. rewrite py_eq_typed.
  destruct k, k'. reflexivity.
Qed.

Section TypedPass.
Variable float_of_str : string -> option Q.
Variable replace_curve : bool.

Lemma insert_keyframe_record (r : kf_record) (a : Action) (replaced : list raw_key) :
  unique_keys a ->
  exists a',
    insert_keyframe float_of_str None replace_curve (record_json r) (a, replaced)
    = Ret tt (a', if replace_curve
                  then (JStr (r_data_path r), JInt (r_array_index r)) :: replaced
                  else replaced) /\
    unique_keys a' /\ name a' = name a /\ groups a' = groups a /\
    forall k,
      channel_points k a'
      = if decide (record_key r = k)
        then Some (put_point (r_point r)
                     (if replace_curve && negb (seen_key k replaced) then []
                      else default [] (channel_points k a)))
        else channel_points k a.
Proof.
  intros Hu.
  destruct (touch_fcurve_typed (r_data_path r) (r_array_index r)
              (if negb (seen_key (record_key r) replaced) then replace_curve else false)
              a Hu)
    as (i & a1 & c & Ht & Hu1 & Hn1 & Hg1 & Hc & Hk & Hp & Hother).
  exists (set_fcurves
            (<[i := set_keyframe_points (put_point (r_point r) (keyframe_points c)) c]>
               (fcurves a1)) a1).
  split_and!.
  - unfold insert_keyframe, resolve_channel, bind.
    rewrite getitem_data_path, getitem_array_index. cbn [lift ret truthy].
    unfold get_replaced. cbn [snd].
    rewrite (in_replaced_typed (record_key r)). cbn [lift ret].
    unfold on_action at 1. cbn [fst snd].
    rewrite Ht.
    assert (Hicp : forall rep, on_action (insert_control_point float_of_str (record_json r) i)
                                 (a1, rep)
                   = Ret tt (set_fcurves
                               (<[i := set_keyframe_points
                                         (put_point (r_point r) (keyframe_points c)) c]>
                                  (fcurves a1)) a1, rep)).
    { intros rep. unfold on_action. cbn [fst snd].
      rewrite (insert_control_point_record float_of_str r i a1 c Hc). reflexivity. }
    destruct replace_curve; cbn; apply Hicp.
  - unfold unique_keys. cbn [fcurves set_fcurves].
    rewrite (map_key_insert _ _ _ _ Hc). exact Hu1.
  - exact Hn1.
  - exact Hg1.
  - intros k. unfold channel_points. cbn [fcurves set_fcurves].
    rewrite (curve_points_insert _ _ _ _ _ Hu1 Hc). rewrite Hk.
    change (r_data_path r, r_array_index r) with (record_key r).
    destruct (decide (record_key r = k)) as [<-|Hne].
    + rewrite Hp. f_equal. f_equal.
      destruct (seen_key (record_key r) replaced), replace_curve; reflexivity.
    + apply Hother. intros E. apply Hne. symmetry. exact E.
Qed.

(** The pass over a list of typed records never raises on a container
    with unique keys, and each channel ends with the effect of the
    records for its key. *)
Lemma for_each_records (rs : list kf_record) (a : Action) (replaced : list raw_key) :
  unique_keys a ->
  exists a' replaced',
    for_each (insert_keyframe float_of_str None replace_curve) (map record_json rs)
             (a, replaced)
    = Ret tt (a', replaced') /\
    unique_keys a' /\ name a' = name a /\ groups a' = groups a /\
    forall k,
      channel_points k a'
      = doc_effect replace_curve (seen_key k replaced) (channel_points k a)
                   (records_for k rs).
Proof.
  revert a replaced. induction rs as [|r rs IH]; intros a replaced Hu.
  - exists a, replaced. split_and!; auto.
  - destruct (insert_keyframe_record r a replaced Hu) as (a1 & Hstep & Hu1 & Hn1 & Hg1 & Hcp1).
    destruct (IH a1 (if replace_curve
                     then (JStr (r_data_path r), JInt (r_array_index r)) :: replaced
                     else replaced) Hu1)
      as (a' & rep' & Hrest & Hu' & Hn' & Hg' & Hcp').
    exists a', rep'. split_and!; try congruence.
    + simpl. unfold bind. rewrite Hstep. exact Hrest.
    + intros k. rewrite Hcp', Hcp1. unfold records_for.
      assert (Hseen : seen_key k (if replace_curve
                                  then (JStr (r_data_path r), JInt (r_array_index r))
                                         :: replaced
                                  else replaced)
                      = (if decide (record_key r = k)
                         then seen_key k replaced || replace_curve
                         else seen_key k replaced)).
      { destruct replace_curve.
        - rewrite (seen_key_cons k (record_key r)).
          destruct (decide (record_key r = k)) as [E|E].
          + rewrite bool_decide_eq_true_2 by exact E. rewrite orb_true_r. reflexivity.
          + rewrite bool_decide_eq_false_2 by exact E. reflexivity.
        - destruct (decide (record_key r = k)); [rewrite orb_false_r|]; reflexivity. }
      rewrite Hseen.
      destruct (decide (record_key r = k)) as [E|E].
      * rewrite filter_cons_True by exact E. reflexivity.
      * rewrite filter_cons_False by exact E. reflexivity.
Qed.
End TypedPass.

(** ** Control points at distinct times *)

Lemma doc_effect_merge (replace_curve seen : bool) (pts : list Keyframe)
    (rs : list kf_record) :
  replace_curve && negb seen = false ->
  doc_effect replace_curve seen (Some pts) rs = Some (fold_left put_record rs pts).
Proof.
  revert seen pts. induction rs as [|r rs IH]; intros seen pts H; simpl; [reflexivity|].
  rewrite H. simpl. apply IH.
  destruct replace_curve, seen; reflexivity.
Qed.

Lemma doc_effect_first (cur : option (list Keyframe)) (rs : list kf_record) :
  rs <> [] ->
  doc_effect true false cur rs = Some (fold_left put_record rs []).
Proof.
  destruct rs as [|r rs]; [congruence|]. intros _. simpl.
  apply doc_effect_merge. reflexivity.
Qed.

Lemma put_point_fresh (k : Keyframe) (pts : list Keyframe) :
  Forall (fun q => ~ (time k == time q)%Q) pts ->
  Permutation (put_point k pts) (k :: pts).
Proof.
  induction pts as [|p pts IH]; intros H; simpl; [reflexivity|].
  apply Forall_cons in H as [Hp H].
  destruct (time k ?= time p)%Q eqn:E.
  - exfalso. apply Hp. apply Qeq_alt. exact E.
  - reflexivity.
  - rewrite (IH H). apply perm_swap.
Qed.

Lemma fold_put_fresh (rs : list kf_record) (pts0 : list Keyframe) :
  distinct_times (map r_point rs) ->
  Forall (fun r => Forall (fun q => ~ (time (r_point r) == time q)%Q) pts0) rs ->
  Permutation (fold_left put_record rs pts0) (pts0 ++ map r_point rs).
Proof.
  revert pts0. induction rs as [|r rs IH]; intros pts0 Hd Hf; simpl.
  - rewrite app_nil_r. reflexivity.
  - destruct Hd as [Hr Hd]. apply Forall_cons in Hf as [Hr0 Hf].
    assert (HP : Permutation (put_point (r_point r) pts0) (r_point r :: pts0))
      by (apply put_point_fresh, Hr0).
    unfold put_record at 2. rewrite IH; [| exact Hd |].
    + rewrite HP. simpl. apply Permutation_middle.
    + apply Forall_forall. intros r' Hr'.
      rewrite HP. apply Forall_cons. split.
      * rewrite Forall_forall in Hr. intros E. apply (Hr (r_point r')).
        -- apply list_elem_of_In, in_map, list_elem_of_In, Hr'.
        -- symmetry. exact E.
      * rewrite Forall_forall in Hf. apply Hf, Hr'.
Qed.

Lemma insert_keyframes_records (float_of_str : string -> option Q) (replace_curve : bool)
    (rs : list kf_record) (a : Action) :
  unique_keys a ->
  exists a',
    insert_keyframes float_of_str (JList (map record_json rs)) None replace_curve a
    = Ret tt a' /\
    unique_keys a' /\ name a' = name a /\ groups a' = groups a /\
    forall k,
      channel_points k a'
      = doc_effect replace_curve false (channel_points k a) (records_for k rs).
Proof.
  intros Hu.
  destruct (for_each_records float_of_str replace_curve rs a [] Hu)
    as (a' & rep' & Hrun & Hu' & Hn & Hg & Hcp).
  exists a'. split_and!; auto.
  unfold insert_keyframes, insert_keyframes_loop, bind. simpl.
  rewrite Hrun. reflexivity.
Qed.

(** C2. [insert_keyframes] with [replace_curve=true] on a container with
    unique keys, for a document in which N>1 records at pairwise
    distinct times share the key k: the pass returns normally and the
    channel of k then holds exactly N control points, those of the N
    records; whatever the channel held before is gone, and no record
    after the first one for k clears it again. *)
Theorem C2_first_touch_only_replace (float_of_str : string -> option Q)
    (rs : list kf_record) (a : Action) (k : string * Z) :
  unique_keys a ->
  (1 < length (records_for k rs))%nat ->
  distinct_times (map r_point (records_for k rs)) ->
  exists a' pts,
    insert_keyframes float_of_str (JList (map record_json rs)) None true a = Ret tt a' /\
    unique_keys a' /\
    channel_points k a' = Some pts /\
    length pts = length (records_for k rs) /\
    Permutation pts (map r_point (records_for k rs)).
Proof.
  intros Hu HN Hd.
  destruct (insert_keyframes_records float_of_str true rs a Hu)
    as (a' & Hrun & Hu' & _ & _ & Hcp).
  assert (Hperm : Permutation (fold_left put_record (records_for k rs) [])
                              (map r_point (records_for k rs))).
  { apply (fold_put_fresh _ [] Hd). apply Forall_forall. intros r _. constructor. }
  exists a', (fold_left put_record (records_for k rs) []).
  split_and!; auto.
  - rewrite Hcp. apply doc_effect_first.
    intros E. rewrite E in HN. simpl in HN. lia.
  - rewrite (Permutation_length Hperm). apply length_map.
Qed.

(** C9 (amended). [insert_keyframes] with [replace_curve=false] on a
    container with unique keys whose channel of key k holds the points
    [pts0], for a document whose records for k are at times that differ
    from the times of [pts0] and from each other: the pass returns
    normally and the channel then holds the points of [pts0], each as it
    was, and the points of all the records for k. *)
Theorem C9_merge_keeps_disjoint_content (float_of_str : string -> option Q)
    (rs : list kf_record) (a : Action) (k : string * Z) (pts0 : list Keyframe) :
  unique_keys a ->
  channel_points k a = Some pts0 ->
  Forall (fun r => Forall (fun q => ~ (time (r_point r) == time q)%Q) pts0)
         (records_for k rs) ->
  distinct_times (map r_point (records_for k rs)) ->
  exists a' pts,
    insert_keyframes float_of_str (JList (map record_json rs)) None false a = Ret tt a' /\
    channel_points k a' = Some pts /\
    Permutation pts (pts0 ++ map r_point (records_for k rs)).
Proof.
  intros Hu H0 Hf Hd.
  destruct (insert_keyframes_records float_of_str false rs a Hu)
    as (a' & Hrun & Hu' & _ & _ & Hcp).
  exists a', (fold_left put_record (records_for k rs) pts0).
  split_and!; auto.
  - rewrite Hcp, H0. apply doc_effect_merge. reflexivity.
  - apply fold_put_fresh; assumption.
Qed.

(** ** Export *)

Lemma map_result_inr {A B : Type} (g : A -> B) (l : list A) :
  map_result (fun x => inr (g x)) l = inr (map g l).
Proof.
  induction l as [|x l IH]; [reflexivity|].
  cbn [map_result map]. rewrite IH. reflexivity.
Qed.

Lemma map_result_keyframes (path : string) (index : Z) (group_name : string)
    (pts : list Keyframe) :
  map_result (fun kf => keyframe_to_json (PyKeyframe kf) path index group_name) pts
  = inr (map record_json (map (mkRecord path group_name index) pts)).
Proof.
  rewrite map_map.
  exact (map_result_inr (fun kf => record_json (mkRecord path group_name index kf)) pts).
Qed.

Lemma set_fcurves_same (a : Action) : set_fcurves (fcurves a) a = a.
Proof. destruct a; reflexivity. Qed.

Lemma group_channels_spec (group_name : string) (cs : list FCurve) :
  Forall2 (fun i c => cs !! i = Some c)
          (group_channels group_name cs)
          (filter (fun c => group c = Some group_name) cs).
Proof.
  unfold group_channels.
  enough (H : forall pre,
             Forall2 (fun i c => (pre ++ cs) !! i = Some c)
               (filter (fun i => bool_decide (group <$> (pre ++ cs) !! i
                                              = Some (Some group_name)))
                       (seq (length pre) (length cs)))
               (filter (fun c => group c = Some group_name) cs))
    by exact (H []).
  induction cs as [|c cs IH]; intros pre; simpl.
  - constructor.
  - assert (Hmid : (pre ++ c :: cs) !! length pre = Some c)
      by (apply list_lookup_middle; reflexivity).
    specialize (IH (pre ++ [c])).
    rewrite <- app_assoc in IH. simpl in IH.
    rewrite length_app in IH. simpl in IH. rewrite Nat.add_1_r in IH.
    rewrite !filter_cons. rewrite Hmid. simpl.
    destruct (decide (group c = Some group_name)) as [Hg|Hg].
    + rewrite decide_True
        by (rewrite Hg; rewrite bool_decide_eq_true_2 by reflexivity; exact I).
      constructor; [exact Hmid | exact IH].
    + rewrite decide_False; [exact IH|].
      intros Hb.
      destruct (bool_decide (Some (group c) = Some (Some group_name))) eqn:E; [|exact Hb].
      apply bool_decide_eq_true_1 in E. congruence.
Qed.

Section ExportRun.
Variable host : SamplingHost.

Lemma export_channel_run (group_name : string) (i : nat) (a : Action) (acc : list json)
    (c : FCurve) :
  fcurves a !! i = Some c ->
  (keyframe_points c = [] ->
   exists k,
     convert_to_keyframes host (py_int (fst (fcurve_range host c)))
                          (py_int (snd (fcurve_range host c))) c = inr k /\
     convert_to_samples host (py_int (fst (fcurve_range host k)))
                        (py_int (snd (fcurve_range host k))) k = inr c) ->
  export_channel host group_name i (a, acc)
  = Ret tt (a, acc ++ map record_json (channel_records group_name (keyframe_view host c))).
Proof.
  intros Hc Hconv.
  assert (Hi : (i < length (fcurves a))%nat) by (eapply lookup_lt_Some; eauto).
  unfold export_channel, bind, get_channel at 1. cbn [fst snd]. rewrite Hc.
  unfold keyframe_view.
  destruct (keyframe_points c) as [|p pts] eqn:Hpts; cbn [is_empty].
  - destruct (Hconv eq_refl) as (k & Hk & Hback). rewrite Hk.
    unfold convert_channel at 1, bind, get_channel at 1. cbn [fst snd]. rewrite Hc.
    destruct (fcurve_range host c) as [first last] eqn:Hrange. cbn [fst snd] in Hk.
    rewrite Hk. cbn [lift ret]. unfold put_channel, modify. cbn [fst snd].
    unfold get_channel at 1. cbn [fst snd fcurves set_fcurves].
    rewrite list_lookup_insert_eq by exact Hi.
    rewrite map_result_keyframes. cbn [lift ret].
    unfold extend_keyframes, modify. cbn [fst snd].
    unfold convert_channel, bind, get_channel. cbn [fst snd fcurves set_fcurves].
    rewrite list_lookup_insert_eq by exact Hi.
    destruct (fcurve_range host k) as [first' last'] eqn:Hrange'. cbn [fst snd] in Hback.
    rewrite Hback. cbn [lift ret]. unfold put_channel, modify.
    cbn [fst snd fcurves set_fcurves name groups].
    rewrite list_insert_insert_eq. rewrite (list_insert_id _ _ _ Hc).
    destruct a; reflexivity.
  - cbn [ret]. unfold get_channel. cbn [fst snd]. rewrite Hc.
    rewrite map_result_keyframes. cbn [lift ret].
    unfold extend_keyframes, modify. cbn [fst snd].
    unfold channel_records. rewrite Hpts. reflexivity.
Qed.

Lemma for_each_export_channel (group_name : string) (a : Action) (idxs : list nat)
    (chans : list FCurve) (acc : list json) :
  conversions_succeed host a ->
  Forall2 (fun i c => fcurves a !! i = Some c) idxs chans ->
  for_each (export_channel host group_name) idxs (a, acc)
  = Ret tt (a, acc ++ map record_json
                        (flat_map (fun c => channel_records group_name (keyframe_view host c))
                                  chans)).
Proof.
  intros Hconv H. revert acc. induction H as [|i c idxs chans Hc H IH]; intros acc; simpl.
  - rewrite app_nil_r. reflexivity.
  - unfold bind. rewrite (export_channel_run group_name i a acc c Hc).
    + rewrite IH. rewrite map_app, app_assoc. reflexivity.
    + apply Hconv. apply list_elem_of_In. eapply list_elem_of_lookup_2; eauto.
Qed.

Lemma for_each_export_group (a : Action) (gs : list string) (acc : list json) :
  conversions_succeed host a ->
  for_each (export_group host) gs (a, acc)
  = Ret tt (a, acc ++ map record_json
                        (flat_map (group_records (keyframe_view host) (fcurves a)) gs)).
Proof.
  intros Hconv. revert acc. induction gs as [|g gs IH]; intros acc; simpl.
  - rewrite app_nil_r. reflexivity.
  - unfold bind, export_group at 1. cbn [fst].
    rewrite (for_each_export_channel g a _ _ acc Hconv (group_channels_spec g (fcurves a))).
    rewrite IH. unfold group_records at 2. rewrite map_app, app_assoc. reflexivity.
Qed.

Lemma exporter_execute_run (a : Action) (writable : bool) :
  conversions_succeed host a ->
  exporter_execute host writable (set_action a)
  = if writable
    then Ret (Finished (document (name a) (action_records (keyframe_view host) a)))
             (set_action a)
    else Raise OSError (set_action a).
Proof.
  intros Hconv. unfold exporter_execute. cbn [animation_data set_action].
  rewrite (for_each_export_group a (groups a) [] Hconv). cbn [fst snd].
  destruct writable; reflexivity.
Qed.
End ExportRun.

(** ** Round trip *)

Lemma put_point_last (k : Keyframe) (pts : list Keyframe) :
  Forall (fun p => (time p < time k)%Q) pts -> put_point k pts = pts ++ [k].
Proof.
  induction pts as [|p pts IH]; intros H; simpl; [reflexivity|].
  apply Forall_cons in H as [Hp H].
  assert (E : (time k ?= time p)%Q = Gt) by (apply Qgt_alt; exact Hp).
  rewrite E. f_equal. apply IH, H.
Qed.

Lemma fold_put_sorted (path group_name : string) (index : Z) (l1 l2 : list Keyframe) :
  increasing_times (l1 ++ l2) ->
  fold_left put_record (map (mkRecord path group_name index) l2) l1 = l1 ++ l2.
Proof.
  revert l1. induction l2 as [|p l2 IH]; intros l1 Hs; simpl.
  - rewrite app_nil_r. reflexivity.
  - unfold put_record at 2. simpl. rewrite put_point_last.
    + rewrite IH; rewrite <- app_assoc; [reflexivity | exact Hs].
    + apply Forall_forall. intros q Hq.
      apply (StronglySorted_app_1_elem_of (fun p q => (time p < time q)%Q)
               l1 (p :: l2) q p Hs Hq).
      left.
Qed.

Lemma records_for_channel (k : string * Z) (group_name : string) (c : FCurve) :
  records_for k (channel_records group_name c)
  = if decide (curve_key c = k) then channel_records group_name c else [].
Proof.
  unfold records_for, channel_records.
  induction (keyframe_points c) as [|p pts IH]; simpl.
  - destruct (decide _); reflexivity.
  - rewrite filter_cons. unfold record_key at 1. simpl.
    change (data_path c, array_index c) with (curve_key c).
    rewrite IH. destruct (decide (curve_key c = k)); reflexivity.
Qed.

Lemma records_for_app (k : string * Z) (l1 l2 : list kf_record) :
  records_for k (l1 ++ l2) = records_for k l1 ++ records_for k l2.
Proof. apply filter_app. Qed.

Lemma records_for_missing (k : string * Z) (group_name : string) (cs : list FCurve) :
  ~ In k (map curve_key cs) ->
  records_for k (flat_map (channel_records group_name) cs) = [].
Proof.
  induction cs as [|c cs IH]; intros Hk; simpl; [reflexivity|].
  rewrite records_for_app, records_for_channel.
  simpl in Hk. rewrite decide_False by tauto. apply IH. tauto.
Qed.

Lemma records_for_present (group_name : string) (cs : list FCurve) (c : FCurve) :
  NoDup (map curve_key cs) -> In c cs ->
  records_for (curve_key c) (flat_map (channel_records group_name) cs)
  = channel_records group_name c.
Proof.
  induction cs as [|x cs IH]; intros Hnd Hin; simpl in *; [tauto|].
  apply NoDup_cons in Hnd as [Hx Hnd].
  rewrite records_for_app, records_for_channel.
  destruct Hin as [->|Hin].
  - rewrite decide_True by reflexivity.
    rewrite records_for_missing; [apply app_nil_r|].
    intros H. apply Hx, list_elem_of_In, H.
  - rewrite decide_False.
    + apply IH; assumption.
    + intros E. apply Hx. rewrite E. apply list_elem_of_In, in_map, Hin.
Qed.

Lemma NoDup_map_filter (P : FCurve -> Prop) `{forall c, Decision (P c)} (cs : list FCurve) :
  NoDup (map curve_key cs) -> NoDup (map curve_key (filter P cs)).
Proof.
  induction cs as [|c cs IH]; intros Hnd; simpl; [constructor|].
  apply NoDup_cons in Hnd as [Hc Hnd].
  rewrite filter_cons. destruct (decide (P c)); [|auto].
  simpl. apply NoDup_cons. split; [|auto].
  intros Hin. apply Hc. apply list_elem_of_In in Hin. apply list_elem_of_In.
  apply in_map_iff in Hin as (x & Hx & Hin). apply in_map_iff.
  exists x. split; [exact Hx|].
  apply list_elem_of_In in Hin. apply list_elem_of_filter in Hin as [_ Hin].
  apply list_elem_of_In, Hin.
Qed.

(** The records of one key in the records of an action. *)
Lemma records_for_action (a : Action) (c : FCurve) (g : string) :
  unique_keys a -> NoDup (groups a) ->
  In c (fcurves a) -> group c = Some g -> In g (groups a) ->
  records_for (curve_key c) (action_records id a) = channel_records g c.
Proof.
  intros Hu Hg Hc Hcg Hin. unfold action_records.
  assert (Hgroup : forall g',
    records_for (curve_key c) (group_records id (fcurves a) g')
    = if decide (g' = g) then channel_records g c else []).
  { intros g'. unfold group_records.
    change (fun c0 => channel_records g' (id c0)) with (channel_records g').
    destruct (decide (g' = g)) as [->|Hne].
    - apply records_for_present.
      + apply NoDup_map_filter, Hu.
      + apply list_elem_of_In, list_elem_of_filter. split; [exact Hcg|].
        apply list_elem_of_In, Hc.
    - apply records_for_missing. intros H.
      apply in_map_iff in H as (x & Hx & Hxin).
      apply list_elem_of_In, list_elem_of_filter in Hxin as [Hxg Hxin].
      assert (x = c).
      { apply list_elem_of_In in Hxin.
        clear - Hu Hx Hxin Hc. unfold unique_keys in Hu.
        induction (fcurves a) as [|y l IH]; simpl in *; [tauto|].
        apply NoDup_cons in Hu as [Hy Hu].
        destruct Hxin as [->|Hxin], Hc as [->|Hc]; auto.
        - exfalso. apply Hy. rewrite Hx. apply list_elem_of_In, in_map, Hc.
        - exfalso. apply Hy. rewrite <- Hx. apply list_elem_of_In, in_map, Hxin. }
      subst x. congruence. }
  induction (groups a) as [|g' gs IH]; simpl in *; [tauto|].
  apply NoDup_cons in Hg as [Hg' Hg].
  rewrite records_for_app, Hgroup.
  destruct (decide (g' = g)) as [->|Hne].
  - assert (Hrest : records_for (curve_key c)
                      (flat_map (group_records id (fcurves a)) gs) = []).
    { clear IH Hin. induction gs as [|g2 gs IH2]; simpl; [reflexivity|].
      apply NoDup_cons in Hg as [Hg2 Hg].
      rewrite records_for_app, Hgroup. rewrite decide_False.
      - apply IH2; [|exact Hg]. intros H. apply Hg'. right. exact H.
      - intros ->. apply Hg'. left. }
    rewrite Hrest. apply app_nil_r.
  - simpl. apply IH; [exact Hg|]. destruct Hin as [E|E]; [congruence | exact E].
Qed.

Lemma records_for_action_missing (a : Action) (k : string * Z) :
  ~ In k (map curve_key (fcurves a)) ->
  records_for k (action_records id a) = [].
Proof.
  intros Hk. unfold action_records.
  induction (groups a) as [|g gs IH]; simpl; [reflexivity|].
  rewrite records_for_app, IH, app_nil_r. unfold group_records.
  change (fun c0 => channel_records g (id c0)) with (channel_records g).
  apply records_for_missing. intros H. apply Hk.
  apply in_map_iff in H as (x & Hx & Hxin). apply in_map_iff. exists x. split; [exact Hx|].
  apply list_elem_of_In, list_elem_of_filter in Hxin as [_ Hxin].
  apply list_elem_of_In, Hxin.
Qed.

Lemma curve_points_Some (k : string * Z) (cs : list FCurve) (pts : list Keyframe) :
  curve_points k cs = Some pts ->
  exists c, In c cs /\ curve_key c = k /\ keyframe_points c = pts.
Proof.
  induction cs as [|c cs IH]; [discriminate|].
  rewrite curve_points_cons. destruct (decide (curve_key c = k)) as [E|E].
  - intros [= <-]. exists c. simpl. auto.
  - intros H. destruct (IH H) as (x & Hx & Hk & Hp). exists x. simpl. auto.
Qed.

Lemma action_importer_run (float_of_str : string -> option Q) (action_name : string)
    (rs : list kf_record) (target : Object) (a' : Action) :
  insert_keyframes float_of_str (JList (map record_json rs)) None true
                   (mkAction action_name [] []) = Ret tt a' ->
  action_importer_execute float_of_str (FileText (Some (document action_name rs))) target
  = Ret tt (set_action a').
Proof.
  intros Hrun. unfold action_importer_execute, bind. cbn.
  unfold on_active_action. cbn. rewrite Hrun. reflexivity.
Qed.

Lemma NoDup_same_key (cs : list FCurve) (c c' : FCurve) :
  NoDup (map curve_key cs) -> In c cs -> In c' cs -> curve_key c = curve_key c' -> c = c'.
Proof.
  induction cs as [|x cs IH]; simpl; [intros _ []|].
  intros Hnd Hc Hc' E. apply NoDup_cons in Hnd as [Hx Hnd].
  destruct Hc as [<-|Hc], Hc' as [<-|Hc']; auto.
  - exfalso. apply Hx. rewrite E. apply list_elem_of_In, in_map, Hc'.
  - exfalso. apply Hx. rewrite <- E. apply list_elem_of_In, in_map, Hc.
Qed.

Lemma records_for_none (k : string * Z) (l : list kf_record) :
  Forall (fun r => record_key r <> k) l -> records_for k l = [].
Proof.
  induction 1 as [|r l Hr _ IH]; [reflexivity|].
  unfold records_for. rewrite filter_cons_False by exact Hr. exact IH.
Qed.

(** A channel that is in no group of the action has no record in the
    document. *)
Lemma records_for_ungrouped (a : Action) (c : FCurve) :
  unique_keys a -> In c (fcurves a) -> ~ grouped_in a c ->
  records_for (curve_key c) (action_records id a) = [].
Proof.
  intros Hu Hc Hng. apply records_for_none, Forall_forall. intros r Hr E.
  apply list_elem_of_In in Hr. unfold action_records in Hr.
  apply in_flat_map in Hr as (g & Hg & Hr). unfold group_records in Hr.
  apply in_flat_map in Hr as (c' & Hc' & Hr).
  apply list_elem_of_In, list_elem_of_filter in Hc' as [Hgc' Hc'].
  unfold channel_records in Hr. apply in_map_iff in Hr as (p & <- & _).
  unfold record_key in E. simpl in E.
  assert (c' = c)
    by (apply (NoDup_same_key (fcurves a)); auto; apply list_elem_of_In, Hc').
  subst c'. apply Hng. exists g. split; [exact Hgc'|exact Hg].
Qed.

(** C1 (amended). For a container as the data model has it (unique
    keys, distinct group names, strictly increasing times in each
    channel) whose channels are all in keyframe form, the exporter
    writes a document and leaves the container as it is, and the action
    importer builds from that document an action with the same name in
    which every channel that belongs to a group of the container is
    back under its key: the same control points in the same order, equal
    in every attribute.  A channel that belongs to no group is not
    exported: its key has no channel in the imported action, and no
    other key has one. *)
Theorem C1_roundtrip_grouped_channels (host : SamplingHost)
    (float_of_str : string -> option Q) (a : Action) (target : Object) :
  wf_container a ->
  Forall keyframe_form (fcurves a) ->
  exists doc a',
    exporter_execute host true (set_action a) = Ret (Finished doc) (set_action a) /\
    action_importer_execute float_of_str (FileText (Some doc)) target
    = Ret tt (set_action a') /\
    name a' = name a /\ unique_keys a' /\
    (forall c, In c (fcurves a) -> grouped_in a c ->
       channel_points (curve_key c) a' = Some (keyframe_points c) /\
       channel_points (curve_key c) a = Some (keyframe_points c)) /\
    (forall c, In c (fcurves a) -> ~ grouped_in a c ->
       channel_points (curve_key c) a' = None) /\
    (forall k, ~ In k (map curve_key (fcurves a)) -> channel_points k a' = None).
Proof.
  intros (Hu & Hg & Hsorted) Hform.
  assert (Hconv : conversions_succeed host a).
  { intros c Hc Hempty. rewrite Forall_forall in Hform.
    exfalso. apply (Hform c); [apply list_elem_of_In, Hc | exact Hempty]. }
  assert (Hview : action_records (keyframe_view host) a = action_records id a).
  { unfold action_records.
    apply flat_map_ext. intros g. unfold group_records.
    assert (Hsub : forall c, In c (filter (fun c => group c = Some g) (fcurves a)) ->
                             keyframe_view host c = id c).
    { intros c Hc. apply list_elem_of_In, list_elem_of_filter in Hc as [_ Hc].
      rewrite Forall_forall in Hform. specialize (Hform c Hc).
      unfold keyframe_view, keyframe_form in *.
      destruct (keyframe_points c); [congruence | reflexivity]. }
    induction (filter (fun c => group c = Some g) (fcurves a)) as [|c l IH];
      simpl; [reflexivity|].
    rewrite (Hsub c) by (left; reflexivity). f_equal. apply IH.
    intros x Hx. apply Hsub. right. exact Hx. }
  destruct (insert_keyframes_records float_of_str true (action_records id a)
              (mkAction (name a) [] []))
    as (a' & Hrun & Hu' & Hn' & _ & Hcp); [constructor|].
  exists (document (name a) (action_records id a)), a'.
  split_and!; auto.
  - rewrite (exporter_execute_run host a true Hconv). rewrite Hview. reflexivity.
  - apply action_importer_run, Hrun.
  - intros c Hc (g & Hcg & Hgin).
    split.
    + rewrite Hcp. rewrite (records_for_action a c g Hu Hg Hc Hcg Hgin).
      rewrite Forall_forall in Hform, Hsorted.
      rewrite doc_effect_first.
      * f_equal. unfold channel_records.
        apply (fold_put_sorted _ _ _ []). simpl.
        apply Hsorted, list_elem_of_In, Hc.
      * unfold channel_records.
        specialize (Hform c (proj2 (list_elem_of_In _ _) Hc)). unfold keyframe_form in Hform.
        destruct (keyframe_points c); [congruence | discriminate].
    + apply list_elem_of_In in Hc. apply list_elem_of_lookup_1 in Hc as [i Hi].
      exact (curve_points_lookup _ i c Hu Hi).
  - intros c Hc Hng. rewrite Hcp, (records_for_ungrouped a c Hu Hc Hng). reflexivity.
  - intros k Hk. rewrite Hcp, (records_for_action_missing a k Hk). reflexivity.
Qed.

(** ** Exceptions *)

Section Raises.
Context {S : Type} (P : pyexn -> Prop).

Lemma raises_only_ret {A : Type} (a : A) : raises_only P (@ret S A a).
Proof. intros s e s' H. discriminate. Qed.

Lemma raises_only_modify (f : S -> S) : raises_only P (modify f).
Proof. intros s e s' H. discriminate. Qed.

Lemma raises_only_lift {A : Type} (r : pyexn + A) :
  pure_raises_only P r -> raises_only P (@lift S A r).
Proof.
  intros Hr s e s' H. destruct r as [e0|a]; [|discriminate].
  injection H as <- _. apply Hr. reflexivity.
Qed.

Lemma raises_only_bind {A B : Type} (m : M S A) (k : A -> M S B) :
  raises_only P m -> (forall a, raises_only P (k a)) -> raises_only P (bind m k).
Proof.
  intros Hm Hk s e s' H. unfold bind in H.
  destruct (m s) as [a s1|e1 s1] eqn:E.
  - eapply Hk; eauto.
  - injection H as <- _. eapply Hm; eauto.
Qed.

Lemma raises_only_for_each {A : Type} (f : A -> M S unit) (l : list A) :
  (forall x, raises_only P (f x)) -> raises_only P (for_each f l).
Proof.
  intros Hf. induction l as [|x l IH]; simpl.
  - apply raises_only_ret.
  - apply raises_only_bind; [apply Hf | intros _; exact IH].
Qed.
End Raises.

Lemma raises_only_on_action {A : Type} (P : pyexn -> Prop) (m : M Action A) :
  raises_only P m -> raises_only P (on_action m).
Proof.
  intros Hm st e st' H. unfold on_action in H.
  destruct (m (fst st)) as [x a|e0 a] eqn:E; [discriminate|].
  injection H as <- _. eapply Hm; eauto.
Qed.

Ltac other_error_tac :=
  unfold pure_raises_only, other_error;
  intros ? ?; subst;
  repeat match goal with
         | H : match ?x with _ => _ end = inl _ |- _ => destruct x eqn:?; simpl in H
         | H : inr _ = inl _ |- _ => discriminate H
         | H : inl _ = inl _ |- _ => injection H as <-
         end;
  try discriminate.

Lemma getitem_other (d : json) (k : string) : pure_raises_only other_error (py_getitem d k).
Proof. unfold py_getitem. other_error_tac. Qed.

Lemma iter_other (v : json) : pure_raises_only other_error (py_iter v).
Proof. unfold py_iter. other_error_tac. Qed.

Lemma as_float_other (v : json) : pure_raises_only other_error (as_float v).
Proof. unfold as_float. other_error_tac. Qed.

Lemma as_str_other (v : json) : pure_raises_only other_error (as_str v).
Proof. unfold as_str. other_error_tac. Qed.

Lemma as_int_other (v : json) : pure_raises_only other_error (as_int v).
Proof. unfold as_int. other_error_tac. Qed.

Lemma as_enum_other {A : Type} `{HostEnum A} (v : json) :
  pure_raises_only other_error (as_enum (A := A) v).
Proof. unfold as_enum. other_error_tac. Qed.

Lemma as_vector2_other (vs : list Q) : pure_raises_only other_error (as_vector2 vs).
Proof. unfold as_vector2. other_error_tac. Qed.

Lemma in_filter_other (k : raw_key) (F : gset (string * Z)) :
  pure_raises_only other_error (in_filter k F).
Proof. unfold in_filter. other_error_tac. Qed.

Lemma in_replaced_other (k : raw_key) (l : list raw_key) :
  pure_raises_only other_error (in_replaced k l).
Proof. unfold in_replaced. other_error_tac. Qed.

Lemma py_float_other (float_of_str : string -> option Q) (v : json) :
  pure_raises_only other_error (py_float float_of_str v).
Proof. unfold py_float. other_error_tac. Qed.

Lemma map_result_other {A B : Type} (f : A -> pyexn + B) (l : list A) :
  (forall x, pure_raises_only other_error (f x)) ->
  pure_raises_only other_error (map_result f l).
Proof.
  intros Hf. induction l as [|x l IH]; intros e H; simpl in H; [discriminate|].
  destruct (f x) as [e0|y] eqn:E.
  - injection H as <-. eapply Hf; eauto.
  - destruct (map_result f l) as [e1|ys]; [|discriminate].
    injection H as <-. apply IH. reflexivity.
Qed.

Ltac raises_seq :=
  repeat first
    [ apply raises_only_ret
    | apply raises_only_modify
    | apply raises_only_lift;
      first [ apply getitem_other | apply iter_other | apply as_float_other
            | apply as_str_other | apply as_int_other | apply as_enum_other
            | apply as_vector2_other | apply in_filter_other | apply in_replaced_other
            | apply py_float_other
            | apply map_result_other; intros ?; apply py_float_other ]
    | apply raises_only_bind; [|intros ?] ].

Lemma fcurves_new_other (path index : json) :
  raises_only other_error (fcurves_new path index).
Proof.
  unfold fcurves_new. raises_seq.
  intros s e s' H. destruct (has_key _ _); [|discriminate].
  injection H as <- _. discriminate.
Qed.

Lemma touch_fcurve_other (path index : json) (replace : bool) :
  raises_only other_error (touch_fcurve path index replace).
Proof.
  intros s e s' H. unfold touch_fcurve in H.
  destruct (find_curve path index (fcurves s)) as [i|].
  - destruct replace; simpl in H; [|discriminate].
    revert H. apply raises_only_bind; [apply raises_only_modify|].
    intros _. apply fcurves_new_other.
  - revert H. apply fcurves_new_other.
Qed.

Lemma keyframe_points_insert_other (i : nat) (args : list json) (kt : json) :
  raises_only other_error (keyframe_points_insert i args kt).
Proof.
  unfold keyframe_points_insert.
  destruct args as [|frame [|value [|]]];
    try (intros s e s' [= <- _]; discriminate).
  raises_seq.
  intros s e s' H. destruct (fcurves s !! i) as [c|].
  - destruct (insert_point _ _ _ _). discriminate.
  - injection H as <- _. discriminate.
Qed.

Section ImportRaises.
Variable float_of_str : string -> option Q.

Lemma insert_control_point_other (keyframe : json) (i : nat) :
  raises_only other_error (insert_control_point float_of_str keyframe i).
Proof.
  unfold insert_control_point, update_keyframe.
  repeat first [ apply keyframe_points_insert_other | progress raises_seq ].
Qed.

Lemma insert_keyframe_other (filter : option (gset (string * Z))) (replace_curve : bool)
    (keyframe : json) :
  raises_only other_error (insert_keyframe float_of_str filter replace_curve keyframe).
Proof.
  unfold insert_keyframe, resolve_channel, get_replaced, add_replaced.
  apply raises_only_bind.
  - raises_seq.
    + destruct (truthy filter); raises_seq.
    + destruct a1; raises_seq.
      * intros s e s' H. discriminate.
      * apply raises_only_on_action, touch_fcurve_other.
      * destruct replace_curve; raises_seq.
  - intros [i|]; [|apply raises_only_ret].
    apply raises_only_on_action, insert_control_point_other.
Qed.

Lemma insert_keyframes_other (keyframe_data : json)
    (filter : option (gset (string * Z))) (replace_curve : bool) :
  raises_only other_error (insert_keyframes float_of_str keyframe_data filter replace_curve).
Proof.
  intros a e a' H. unfold insert_keyframes in H.
  destruct (insert_keyframes_loop _ _ _ _ _) as [x st|e0 st] eqn:E; [discriminate|].
  injection H as <- _. revert E. unfold insert_keyframes_loop.
  apply raises_only_bind; [raises_seq|].
  intros records. apply raises_only_for_each. intros k.
  apply insert_keyframe_other.
Qed.

(** C7 (amended). For a file that opens and holds a JSON text, the
    replacer and the merger raise the [ValueError] of line 261 exactly
    when the object has no animation data or no active action; the
    object is then as it was, and nothing has been imported. *)
Theorem C7_no_active_action_error (replace_curve : bool) (doc : json) (obj : Object) :
  ((exists obj', resolver_execute float_of_str replace_curve (FileText (Some doc)) obj
                 = Raise (ValueError no_action_msg) obj')
   <-> has_active_action obj = false) /\
  (forall obj', resolver_execute float_of_str replace_curve (FileText (Some doc)) obj
                = Raise (ValueError no_action_msg) obj' -> obj' = obj).
Proof.
  unfold resolver_execute, bind. cbn [read_json ret].
  destruct (has_active_action obj) eqn:Hact; cbn [negb].
  - assert (Hno : forall obj',
      (keyframes <- lift (py_getitem doc "keyframes") ;;
       on_active_action (insert_keyframes float_of_str keyframes None replace_curve)) obj
      <> Raise (ValueError no_action_msg) obj').
    { intros obj' H.
      assert (Hr : raises_only other_error
                (keyframes <- lift (py_getitem doc "keyframes") ;;
                 on_active_action (insert_keyframes float_of_str keyframes None
                                     replace_curve))).
      { raises_seq. intros s e s' Hs. unfold on_active_action in Hs.
        destruct (animation_data s) as [[[act|]]|]; try (injection Hs as <- _; discriminate).
        destruct (insert_keyframes _ _ _ _ act) as [x a1|e1 a1] eqn:E; [discriminate|].
        injection Hs as <- _. eapply insert_keyframes_other; eauto. }
      apply (Hr _ _ _ H). reflexivity. }
    split.
    + split; [intros [obj' H]; exfalso; exact (Hno obj' H) | discriminate].
    + intros obj' H. exfalso. exact (Hno obj' H).
  - split.
    + split; [reflexivity | intros _; exists obj; reflexivity].
    + intros obj' [= <-]. reflexivity.
Qed.
End ImportRaises.

(** ** Records that lack a field *)





Section LacksField.
Variable float_of_str : string -> option Q.
Variable replace_curve : bool.




End LacksField.

(** ** Closed instances *)

Ltac forall_list tac :=
  repeat first [ apply Forall_nil_2 | apply Forall_cons_2; [tac|] ].

Ltac times_differ :=
  repeat first
    [ exact I
    | split
    | apply Forall_nil_2
    | apply Forall_cons_2
    | intros ?; discriminate ].

(** The example of section 8 of the specification: the document imported
    into an empty target yields one channel keyed [("location", 0)] with
    one control point at time 1, value 0. *)
Example spec_example_import :
  exists a',
    action_importer_execute decimal_literal
      (FileText (Some (raw_document "Test" [spec_record]))) (mkObject None)
    = Ret tt (set_action a') /\
    map curve_key (fcurves a') = [location_x] /\
    channel_points location_x a' = Some [spec_point] /\
    co spec_point = (1, 0)%Q.
Proof.
  eexists. split; [vm_compute; reflexivity|]. repeat split.
Qed.

(** C5 (evaluation). The record of the specification's example with
    [amplitude] given as the string "0.5" is imported and the amplitude
    of the new point is 0.5, coerced by [float()].  The same record with
    [period] given as the string "0.1" is not coerced: line 201 assigns
    the string, the host raises [TypeError], and the point stays in the
    channel with the period the host gave it on insertion. *)
Theorem C5_period_is_not_coerced :
  (exists a',
      insert_keyframes decimal_literal (JList [with_member "amplitude" (JStr "0.5") spec_record])
                       None true empty_action = Ret tt a' /\
      channel_points location_x a' = Some [set_amplitude (5 # 10) spec_point]) /\
  (exists a',
      insert_keyframes decimal_literal (JList [with_member "period" (JStr "0.1") spec_record])
                       None true empty_action = Raise TypeError a' /\
      channel_points location_x a' = Some [set_period (41 # 10) spec_point]).
Proof.
  split; eexists; split; vm_compute; reflexivity.
Qed.

(** C1 (counterexample). A channel that belongs to no group, as the
    importer itself creates channels, is not exported: the document has
    no record and the imported action has no channel for its key. *)
Lemma C1_counterexample_ungrouped_channel :
  wf_container ungrouped_action /\
  Forall keyframe_form (fcurves ungrouped_action) /\
  exists doc a',
    exporter_execute lossless_host true (set_action ungrouped_action)
    = Ret (Finished doc) (set_action ungrouped_action) /\
    action_importer_execute decimal_literal (FileText (Some doc)) (mkObject None)
    = Ret tt (set_action a') /\
    channel_points location_x ungrouped_action = Some [spec_point] /\
    channel_points location_x a' = None.
Proof.
  split; [|split].
  - split; [|split].
    + unfold unique_keys. simpl. apply NoDup_singleton.
    + apply NoDup_nil_2.
    + repeat constructor.
  - forall_list discriminate.
  - eexists _, _. split; [vm_compute; reflexivity|].
    split; [vm_compute; reflexivity|].
    split; vm_compute; reflexivity.
Qed.

Lemma grouped_action_wf : wf_container grouped_action.
Proof.
  split; [|split].
  - unfold unique_keys. simpl. apply NoDup_cons. split; [|apply NoDup_singleton].
    intros H. apply list_elem_of_In in H. destruct H as [H|[]]. discriminate H.
  - apply NoDup_singleton.
  - repeat constructor.
Qed.


Lemma prior_action_unique : unique_keys prior_action.
Proof. unfold unique_keys. simpl. apply NoDup_singleton. Qed.

Lemma C2_witness :
  unique_keys prior_action /\
  (1 < length (records_for location_x
                 [location_record later_point; rotation_record prior_point;
                  location_record spec_point]))%nat /\
  exists a' pts,
    insert_keyframes decimal_literal
      (JList (map record_json [location_record later_point; rotation_record prior_point;
                               location_record spec_point]))
      None true prior_action = Ret tt a' /\
    unique_keys a' /\
    channel_points location_x a' = Some pts /\
    length pts = 2%nat /\
    Permutation pts [later_point; spec_point].
Proof.
  split; [exact prior_action_unique|]. split; [vm_compute; lia|].
  apply (C2_first_touch_only_replace decimal_literal
           [location_record later_point; rotation_record prior_point;
            location_record spec_point]
           prior_action location_x prior_action_unique).
  - vm_compute. lia.
  - vm_compute. times_differ.
Defined.

(** C3 (counterexample). With the empty set as filter the record for
    [location[0]] is imported: a channel whose key is not in the filter
    set is created. *)
Lemma C3_counterexample_empty_filter :
  outside ∅ (fcurves (final_state
               (insert_keyframes decimal_literal
                  (JList [record_json (location_record spec_point)]) (Some ∅) true
                  empty_action)))
  <> outside ∅ (fcurves empty_action).
Proof. vm_compute. discriminate. Qed.

Lemma C3_witness :
  ({[location_x]} : gset (string * Z)) <> ∅ /\
  outside {[location_x]}
    (fcurves (final_state
       (insert_keyframes decimal_literal
          (JList [record_json (rotation_record prior_point);
                  record_json (location_record spec_point)])
          (Some {[location_x]}) true grouped_action)))
  = outside {[location_x]} (fcurves grouped_action) /\
  insert_keyframes_loop decimal_literal
    (JList [record_json (rotation_record prior_point);
            record_json (location_record spec_point)])
    (Some {[location_x]}) true (grouped_action, [])
  = insert_keyframes_loop decimal_literal
      (JList (filter (fun r => filtered_out {[location_x]} r = false)
                     [record_json (rotation_record prior_point);
                      record_json (location_record spec_point)]))
      (Some {[location_x]}) true (grouped_action, []).
Proof.
  assert (H : ({[location_x]} : gset (string * Z)) <> ∅)
    by (apply non_empty_singleton_L).
  split; [exact H|].
  exact (C3_nonempty_filter_exclusive decimal_literal {[location_x]} true
           (JList [record_json (rotation_record prior_point);
                   record_json (location_record spec_point)])
           [record_json (rotation_record prior_point);
            record_json (location_record spec_point)]
           grouped_action H).
Defined.

Lemma mixed_action_wf : wf_container mixed_action.
Proof.
  split; [|split].
  - unfold unique_keys. simpl. apply NoDup_cons. split; [|apply NoDup_singleton].
    intros H. apply list_elem_of_In in H. destruct H as [H|[]]. discriminate H.
  - apply NoDup_singleton.
  - repeat constructor.
Qed.

(** The round trip of an action with a grouped and an ungrouped
    channel. *)
Lemma C1_witness :
  wf_container mixed_action /\
  Forall keyframe_form (fcurves mixed_action) /\
  exists doc a',
    exporter_execute lossless_host true (set_action mixed_action)
    = Ret (Finished doc) (set_action mixed_action) /\
    action_importer_execute decimal_literal (FileText (Some doc)) (mkObject None)
    = Ret tt (set_action a') /\
    name a' = name mixed_action /\ unique_keys a' /\
    (forall c, In c (fcurves mixed_action) -> grouped_in mixed_action c ->
       channel_points (curve_key c) a' = Some (keyframe_points c) /\
       channel_points (curve_key c) mixed_action = Some (keyframe_points c)) /\
    (forall c, In c (fcurves mixed_action) -> ~ grouped_in mixed_action c ->
       channel_points (curve_key c) a' = None) /\
    (forall k, ~ In k (map curve_key (fcurves mixed_action)) -> channel_points k a' = None).
Proof.
  assert (H1 : Forall keyframe_form (fcurves mixed_action))
    by (forall_list ltac:(discriminate)).
  split; [exact mixed_action_wf|]. split; [exact H1|].
  exact (C1_roundtrip_grouped_channels lossless_host decimal_literal mixed_action
           (mkObject None) mixed_action_wf H1).
Defined.

(** C6 (evaluation). A host whose conversions take the end frame as
    exclusive, and an action whose only channel is baked at the frames
    1, 2 and 3.  Lines 99 and 108 pass [channel.range()], whose second
    item is the last frame, as the end: the control point of frame 3 is
    not made, the document has two records, and the conversion back
    keeps the sample of frame 1 alone.  With the channel baked at the
    frames 1 and 2 the conversion back is given an empty range: the
    export ends with the host's error and leaves the channel in keyframe
    form. *)
Theorem C6_sampled_export_does_not_restore :
  sampled_points <$> fcurves baked_action = [[(1, 0)%Q; (2, 1)%Q; (3, 0)%Q]] /\
  exporter_execute range_checked_host true (set_action baked_action)
  = Ret (Finished (document "Baked"
           [location_record (sample_keyframe (1, 0)%Q);
            location_record (sample_keyframe (2, 1)%Q)]))
        (set_action (mkAction "Baked" ["Object Transforms"]
                       [mkFCurve "location" 0 (Some "Object Transforms") [] [(1, 0)%Q]])) /\
  exporter_execute range_checked_host true (set_action sampled_action)
  = Raise RuntimeError
      (set_action (mkAction "Baked" ["Object Transforms"]
                     [mkFCurve "location" 0 (Some "Object Transforms")
                        [sample_keyframe (1, 0)%Q] []])).
Proof. split; [reflexivity|]. split; vm_compute; reflexivity. Qed.

Lemma C4_witness :
  unique_keys prior_action /\
  unique_keys
    (run_ops decimal_literal
       [OpTouch (JStr "location") (JInt 0) true;
        OpInsert (JList [record_json (location_record spec_point); record_without_co])
                 None false;
        OpTouch (JStr "scale") (JFloat 1) false]
       prior_action).
Proof.
  split; [exact prior_action_unique|].
  exact (C4_key_uniqueness_invariant decimal_literal _ prior_action prior_action_unique).
Defined.

(** C7 (counterexample). The object has no animation data and the file
    is not JSON: the replacer raises [JSONDecodeError], not the
    [ValueError] of line 261. *)
Lemma C7_counterexample_unparsable_file :
  has_active_action (mkObject None) = false /\
  resolver_execute decimal_literal true (FileText None) (mkObject None)
  = Raise JSONDecodeError (mkObject None) /\
  ~ exists obj', resolver_execute decimal_literal true (FileText None) (mkObject None)
                 = Raise (ValueError no_action_msg) obj'.
Proof.
  split; [reflexivity|]. split; [reflexivity|].
  intros [obj' H]. discriminate H.
Qed.



(** C9 (counterexample). Two records of the document are at time 1, a
    time the channel has no point at: the second takes the place of the
    first, and the channel ends with two points, not three. *)
Lemma C9_counterexample_same_time_records :
  unique_keys prior_action /\
  channel_points location_x prior_action = Some [prior_point] /\
  Forall (fun r => Forall (fun q => ~ (time (r_point r) == time q)%Q) [prior_point])
         (records_for location_x [location_record spec_point; location_record rival_point]) /\
  exists a' pts,
    insert_keyframes decimal_literal
      (JList (map record_json [location_record spec_point; location_record rival_point]))
      None false prior_action = Ret tt a' /\
    channel_points location_x a' = Some pts /\
    ~ In spec_point pts /\
    ~ Permutation pts ([prior_point]
                       ++ map r_point (records_for location_x
                                         [location_record spec_point;
                                          location_record rival_point])).
Proof.
  split; [exact prior_action_unique|]. split; [vm_compute; reflexivity|].
  split; [vm_compute; forall_list ltac:(forall_list ltac:(intros ?; discriminate))|].
  eexists _, _. split; [vm_compute; reflexivity|]. split; [vm_compute; reflexivity|].
  split.
  - simpl. intros [H|[H|[]]]; discriminate H.
  - intros H. apply Permutation_length in H. vm_compute in H. discriminate H.
Qed.

Lemma C9_witness :
  unique_keys prior_action /\
  channel_points location_x prior_action = Some [prior_point] /\
  exists a' pts,
    insert_keyframes decimal_literal
      (JList (map record_json [location_record later_point; rotation_record rival_point;
                               location_record spec_point]))
      None false prior_action = Ret tt a' /\
    channel_points location_x a' = Some pts /\
    Permutation pts ([prior_point]
                     ++ map r_point (records_for location_x
                                       [location_record later_point;
                                        rotation_record rival_point;
                                        location_record spec_point])).
Proof.
  assert (H0 : channel_points location_x prior_action = Some [prior_point])
    by (vm_compute; reflexivity).
  split; [exact prior_action_unique|]. split; [exact H0|].
  apply (C9_merge_keeps_disjoint_content decimal_literal
           [location_record later_point; rotation_record rival_point;
            location_record spec_point]
           prior_action location_x [prior_point] prior_action_unique H0).
  - vm_compute. forall_list ltac:(forall_list ltac:(intros ?; discriminate)).
  - vm_compute. times_differ.
Defined.

(** ** The empty filter *)

Lemma put_point_has_time (k : Keyframe) (pts : list Keyframe) :
  has_point_at (time k) (put_point k pts).
Proof.
  induction pts as [|p pts IH]; simpl.
  - exists k. split; [left; reflexivity|reflexivity].
  - destruct (time k ?= time p)%Q eqn:E.
    + apply Qeq_alt in E. eexists. split; [left; reflexivity|].
      unfold time at 1. simpl. symmetry. exact E.
    + exists k. split; [left; reflexivity|reflexivity].
    + destruct IH as (q & Hq & Ht). exists q. split; [right; exact Hq|exact Ht].
Qed.

Lemma put_point_keeps_time (k : Keyframe) (pts : list Keyframe) (t : Q) :
  has_point_at t pts -> has_point_at t (put_point k pts).
Proof.
  induction pts as [|p pts IH]; intros (q & Hq & Ht); simpl; [destruct Hq|].
  destruct (time k ?= time p)%Q.
  - destruct Hq as [<-|Hq].
    + eexists. split; [left; reflexivity|]. exact Ht.
    + exists q. split; [right; exact Hq|exact Ht].
  - exists q. split; [right; exact Hq|exact Ht].
  - destruct Hq as [<-|Hq].
    + exists p. split; [left; reflexivity|exact Ht].
    + destruct IH as (q' & Hq' & Ht'); [exists q; auto|].
      exists q'. split; [right; exact Hq'|exact Ht'].
Qed.

Lemma fold_put_keeps_time (rs : list kf_record) (pts : list Keyframe) (t : Q) :
  has_point_at t pts -> has_point_at t (fold_left put_record rs pts).
Proof.
  revert pts. induction rs as [|r rs IH]; intros pts H; simpl; [exact H|].
  apply IH, put_point_keeps_time, H.
Qed.

Lemma fold_put_has_time (rs : list kf_record) (pts : list Keyframe) (r : kf_record) :
  In r rs -> has_point_at (time (r_point r)) (fold_left put_record rs pts).
Proof.
  revert pts. induction rs as [|r0 rs IH]; intros pts Hr; [destruct Hr|].
  destruct Hr as [<-|Hr]; simpl.
  - apply fold_put_keeps_time, put_point_has_time.
  - apply IH, Hr.
Qed.

(** Every record of a pass leaves a control point at its time in the
    channel of its key. *)
Lemma doc_effect_has_time (replace_curve seen : bool) (cur : option (list Keyframe))
    (rs : list kf_record) (r : kf_record) :
  In r rs ->
  exists pts, doc_effect replace_curve seen cur rs = Some pts /\
              has_point_at (time (r_point r)) pts.
Proof.
  destruct rs as [|r0 rs]; [intros []|]. intros Hr. simpl.
  rewrite doc_effect_merge by (destruct replace_curve, seen; reflexivity).
  eexists. split; [reflexivity|].
  change (has_point_at (time (r_point r))
            (fold_left put_record (r0 :: rs)
               (if replace_curve && negb seen then [] else default [] cur))).
  apply fold_put_has_time, Hr.
Qed.

(** C10 (amended). An empty filter set is a false value, so
    [insert_keyframes] treats it as it treats no filter: for every
    document and container the two runs end the same way in the same
    container.  The empty filter skips no record: on a container with
    unique keys the pass over a document of typed records returns, every
    key has the channel the records for it make, one after the other,
    and every record has left a control point at its time in the channel
    of its key. *)
Theorem C10_empty_filter_is_no_filter (float_of_str : string -> option Q)
    (keyframe_data : json) (rs : list kf_record) (replace_curve : bool) (a b : Action) :
  unique_keys b ->
  insert_keyframes float_of_str keyframe_data (Some ∅) replace_curve a
  = insert_keyframes float_of_str keyframe_data None replace_curve a /\
  exists b',
    insert_keyframes float_of_str (JList (map record_json rs)) (Some ∅) replace_curve b
    = Ret tt b' /\
    (forall k, channel_points k b'
               = doc_effect replace_curve false (channel_points k b) (records_for k rs)) /\
    (forall r, In r rs ->
       exists pts, channel_points (record_key r) b' = Some pts /\
                   has_point_at (time (r_point r)) pts).
Proof.
  intros Hu. split; [apply insert_keyframes_empty_filter|].
  rewrite insert_keyframes_empty_filter.
  destruct (insert_keyframes_records float_of_str replace_curve rs b Hu)
    as (b' & Hrun & _ & _ & _ & Hcp).
  exists b'. split; [exact Hrun|]. split; [exact Hcp|].
  intros r Hr. rewrite Hcp. apply doc_effect_has_time.
  unfold records_for. apply list_elem_of_In, list_elem_of_filter.
  split; [reflexivity|apply list_elem_of_In, Hr].
Qed.

Lemma C10_witness :
  unique_keys prior_action /\
  insert_keyframes decimal_literal (JList [spec_record; record_without_co]) (Some ∅) true
                   empty_action
  = insert_keyframes decimal_literal (JList [spec_record; record_without_co]) None true
                     empty_action /\
  exists b',
    insert_keyframes decimal_literal
      (JList (map record_json [location_record later_point; rotation_record prior_point;
                               location_record spec_point]))
      (Some ∅) true prior_action
    = Ret tt b' /\
    (forall k, channel_points k b'
               = doc_effect true false (channel_points k prior_action)
                   (records_for k [location_record later_point; rotation_record prior_point;
                                   location_record spec_point])) /\
    (forall r, In r [location_record later_point; rotation_record prior_point;
                     location_record spec_point] ->
       exists pts, channel_points (record_key r) b' = Some pts /\
                   has_point_at (time (r_point r)) pts).
Proof.
  split; [exact prior_action_unique|].
  exact (C10_empty_filter_is_no_filter decimal_literal
           (JList [spec_record; record_without_co])
           [location_record later_point; rotation_record prior_point;
            location_record spec_point]
           true empty_action prior_action prior_action_unique).
Defined.

(** C10 (counterexample). With the empty filter, as with no filter, a
    record without [co] stops the pass: the record after it, for
    [rotation_euler[2]], is not imported. *)
Lemma C10_counterexample_malformed_record :
  exists a',
    insert_keyframes decimal_literal
      (JList [record_without_co; record_json (rotation_record prior_point)]) (Some ∅) true
      empty_action
    = Raise (KeyError "co") a' /\
    insert_keyframes decimal_literal
      (JList [record_without_co; record_json (rotation_record prior_point)]) None true
      empty_action
    = Raise (KeyError "co") a' /\
    channel_points ("rotation_euler", 2) a' = None.
Proof.
  eexists. split; [vm_compute; reflexivity|]. split; vm_compute; reflexivity.
Qed.

(** * Further properties of the code *)

(** ** The processing of one record, step by step *)

(** A relation that [touch_fcurve] on the key of the record and any
    change of the control points of the returned channel stay in is
    kept by the processing of the record, however it ends. *)
Lemma insert_keyframe_frame (float_of_str : string -> option Q)
    (filter : option (gset (string * Z))) (replace_curve : bool) (keyframe : json)
    (R : Action -> Action -> Prop) :
  (forall a, R a a) ->
  (forall a1 a2 a3, R a1 a2 -> R a2 a3 -> R a1 a3) ->
  (forall path index replace a,
     py_getitem keyframe "data_path" = inr path ->
     py_getitem keyframe "array_index" = inr index ->
     R a (final_state (touch_fcurve path index replace a))) ->
  (forall path index i c a a',
     py_getitem keyframe "data_path" = inr path ->
     py_getitem keyframe "array_index" = inr index ->
     fcurves a !! i = Some c -> key_matches path index (curve_key c) ->
     points_changed i a a' -> R a a') ->
  forall st,
    R (fst st) (fst (final_state (insert_keyframe float_of_str filter replace_curve keyframe st))).
Proof.
  intros Hrefl Htrans Htouch Hpts st.
  unfold insert_keyframe, resolve_channel, bind.
  destruct (py_getitem keyframe "data_path") as [e|path] eqn:Hp; simpl; [apply Hrefl|].
  destruct (py_getitem keyframe "array_index") as [e|index] eqn:Hi; simpl; [apply Hrefl|].
  assert (Hgo :
    R (fst st)
      (fst (final_state
        (bind
           (replaced <- get_replaced ;;
            seen <- lift (in_replaced (path, index) replaced) ;;
            fcurve <- on_action (touch_fcurve path index
                                   (if negb seen then replace_curve else false)) ;;
            (if replace_curve then add_replaced (path, index) else ret tt) ;;
            ret (Some fcurve))
           (fun target =>
              match target with
              | None => ret tt
              | Some fcurve => on_action (insert_control_point float_of_str keyframe fcurve)
              end) st)))).
  { unfold bind, get_replaced. simpl.
    destruct (in_replaced (path, index) (snd st)) as [e|seen]; simpl; [apply Hrefl|].
    unfold on_action.
    pose proof (Htouch path index (if negb seen then replace_curve else false) (fst st) eq_refl eq_refl)
      as Ht.
    pose proof (touch_fcurve_shape path index (if negb seen then replace_curve else false)
                  (fst st)) as Hs.
    destruct (touch_fcurve path index (if negb seen then replace_curve else false) (fst st))
      as [i a1|e a1]; simpl in *; [|exact Ht].
    destruct Hs as (_ & _ & _ & c & Hc & Hk).
    assert (Hstep : R a1 (final_state (insert_control_point float_of_str keyframe i a1))).
    { apply (Hpts path index i c); auto. apply insert_control_point_steps. }
    destruct replace_curve; simpl;
      destruct (insert_control_point float_of_str keyframe i a1); simpl in *;
      eapply Htrans; eauto. }
  destruct (truthy filter).
  - destruct (in_filter (path, index) (default ∅ filter)) as [e|found]; simpl; [apply Hrefl|].
    destruct found; simpl; [|apply Hrefl]. exact Hgo.
  - simpl. exact Hgo.
Qed.

Lemma for_each_steps_in {S A : Type} (R : S -> S -> Prop) (f : A -> M S unit) (l : list A) :
  (forall s, R s s) ->
  (forall s1 s2 s3, R s1 s2 -> R s2 s3 -> R s1 s3) ->
  (forall x, In x l -> forall s, R s (final_state (f x s))) ->
  forall s, R s (final_state (for_each f l s)).
Proof.
  intros Hrefl Htrans. induction l as [|x l IH]; intros Hf s; simpl; [apply Hrefl|].
  unfold bind. pose proof (Hf x (or_introl eq_refl) s) as Hx.
  destruct (f x s) as [[] s1|e s1]; simpl in *; [|exact Hx].
  eapply Htrans; [exact Hx|]. apply IH. intros y Hy. apply Hf. right. exact Hy.
Qed.

(** ** Groups *)

Lemma inherits_refl (cs : list FCurve) : Forall (inherits cs) cs.
Proof.
  apply Forall_forall. intros c Hc. right. exists c.
  split; [apply list_elem_of_In, Hc|]. split; reflexivity.
Qed.

Lemma keeps_groups_refl (a : Action) : keeps_groups a a.
Proof. repeat split. apply inherits_refl. Qed.

Lemma keeps_groups_trans (a1 a2 a3 : Action) :
  keeps_groups a1 a2 -> keeps_groups a2 a3 -> keeps_groups a1 a3.
Proof.
  intros (Hn1 & Hg1 & H1) (Hn2 & Hg2 & H2).
  split; [congruence|]. split; [congruence|].
  rewrite Forall_forall in H1, H2. apply Forall_forall. intros c3 Hc3.
  destruct (H2 c3 Hc3) as [Hnone|(c2 & Hc2 & Hk & Hg)]; [left; exact Hnone|].
  destruct (H1 c2 (proj2 (list_elem_of_In _ _) Hc2)) as [Hnone|(c1 & Hc1 & Hk1 & Hg1')].
  - left. congruence.
  - right. exists c1. split; [exact Hc1|]. split; congruence.
Qed.

Lemma inherits_sublist (cs cs' : list FCurve) : cs' ⊆ cs -> Forall (inherits cs) cs'.
Proof.
  intros Hsub. apply Forall_forall. intros c Hc. right. exists c.
  split; [apply list_elem_of_In, Hsub, Hc|]. split; reflexivity.
Qed.

Lemma delete_subseteq {A : Type} (l : list A) (j : nat) : delete j l ⊆ l.
Proof. intros x Hx. eapply elem_of_sublist; [exact Hx|apply sublist_delete]. Qed.

Lemma touched_inherits (path index : json) (cs cs' : list FCurve) :
  touched path index cs cs' -> Forall (inherits cs) cs'.
Proof.
  intros [|j c0 _ _|c _ _ Hg _|j c0 c _ _ _ _ Hg _].
  - apply inherits_refl.
  - apply inherits_sublist, delete_subseteq.
  - apply Forall_app. split; [apply inherits_refl|].
    apply Forall_cons_2; [left; exact Hg|apply Forall_nil_2].
  - apply Forall_app. split; [apply inherits_sublist, delete_subseteq|].
    apply Forall_cons_2; [left; exact Hg|apply Forall_nil_2].
Qed.

Lemma touch_fcurve_keeps_groups (path index : json) (replace : bool) (a : Action) :
  keeps_groups a (final_state (touch_fcurve path index replace a)).
Proof.
  pose proof (touch_fcurve_shape path index replace a) as H.
  destruct (touch_fcurve path index replace a); simpl;
    [destruct H as (Hn & Hg & Ht & _)|destruct H as (Hn & Hg & Ht)];
    (split; [exact Hn|]; split; [exact Hg|]; eapply touched_inherits; exact Ht).
Qed.

Lemma points_changed_keeps_groups (i : nat) (a a' : Action) :
  points_changed i a a' -> keeps_groups a a'.
Proof.
  intros (Hn & Hg & pts & Hf). split; [exact Hn|]. split; [exact Hg|].
  rewrite Hf. apply Forall_alter; [apply inherits_refl|].
  intros c _ [Hnone|(c1 & Hc1 & Hk & Hg1)]; [left; exact Hnone|].
  right. exists c1. split; [exact Hc1|]. split; [exact Hk|exact Hg1].
Qed.

Lemma insert_keyframes_steps_in (float_of_str : string -> option Q)
    (filter : option (gset (string * Z))) (replace_curve : bool) (records : list json)
    (R : Action -> Action -> Prop) :
  (forall a, R a a) ->
  (forall a1 a2 a3, R a1 a2 -> R a2 a3 -> R a1 a3) ->
  (forall keyframe, In keyframe records -> forall st,
     R (fst st)
       (fst (final_state
          (insert_keyframe float_of_str filter replace_curve keyframe st)))) ->
  forall a,
    R a (final_state (insert_keyframes float_of_str (JList records) filter replace_curve a)).
Proof.
  intros Hrefl Htrans Hrec a. rewrite insert_keyframes_final.
  unfold insert_keyframes_loop, bind. simpl.
  refine (for_each_steps_in (fun st st' : import_state => R (fst st) (fst st'))
            (insert_keyframe float_of_str filter replace_curve) records _ _ _ (a, []));
    auto.
  intros s1 s2 s3. apply Htrans.
Qed.

Lemma insert_keyframes_keeps_groups (float_of_str : string -> option Q) (keyframe_data : json)
    (filter : option (gset (string * Z))) (replace_curve : bool) (a : Action) :
  keeps_groups a
    (final_state (insert_keyframes float_of_str keyframe_data filter replace_curve a)).
Proof.
  rewrite insert_keyframes_final.
  unfold insert_keyframes_loop, bind.
  destruct (py_iter keyframe_data) as [e|records]; simpl; [apply keeps_groups_refl|].
  refine (for_each_steps_in (fun st st' : import_state => keeps_groups (fst st) (fst st'))
            (insert_keyframe float_of_str filter replace_curve) records _ _ _ (a, [])).
  - intros s. apply keeps_groups_refl.
  - intros s1 s2 s3. apply keeps_groups_trans.
  - intros keyframe _ st. apply insert_keyframe_frame.
    + apply keeps_groups_refl.
    + apply keeps_groups_trans.
    + intros path index replace a0 _ _. apply touch_fcurve_keeps_groups.
    + intros path index i c a0 a' _ _ _ _. apply points_changed_keeps_groups.
Qed.

(** X1. [insert_keyframes] never renames the action, never changes its
    groups and never puts a channel into a group, whatever the document,
    the filter and the flag, and however the pass ends: a channel of the
    result has no group, or it has the key and the group of a channel
    the action had.  The [group] member of a record has no effect on the
    container. *)
Theorem X1_import_gives_no_group (float_of_str : string -> option Q) (keyframe_data : json)
    (filter : option (gset (string * Z))) (replace_curve : bool) (a : Action) :
  keeps_groups a
    (final_state (insert_keyframes float_of_str keyframe_data filter replace_curve a)).
Proof. apply insert_keyframes_keeps_groups. Qed.

(** ** The channels a document names *)

Lemma named_key_matches (record path index : json) (k : string * Z) :
  py_getitem record "data_path" = inr path ->
  py_getitem record "array_index" = inr index ->
  key_matches path index k -> named_key record = Some k.
Proof.
  intros Hp Hi [-> Hz]. unfold named_key. rewrite Hp, Hi, Hz.
  destruct k; reflexivity.
Qed.

Lemma named_keys_elem (records : list json) (record : json) (k : string * Z) :
  In record records -> named_key record = Some k -> k ∈ named_keys records.
Proof.
  intros Hin Hk. unfold named_keys. apply elem_of_list_to_set, list_elem_of_omap.
  exists record. split; [apply list_elem_of_In, Hin|exact Hk].
Qed.

Section NamedChannels.
Variable float_of_str : string -> option Q.
Variable F : gset (string * Z).

Lemma touched_outside_all (path index : json) (cs cs' : list FCurve) :
  touched path index cs cs' -> (forall k, key_matches path index k -> k ∈ F) ->
  outside F cs' = outside F cs.
Proof.
  intros Ht Hk.
  destruct Ht as [|j c0 Hc0 Hk0|c Hkc _ _ _|j c0 c Hc0 Hk0 Hkc _ _ _].
  - reflexivity.
  - apply (outside_delete _ _ _ c0); [exact Hc0|apply Hk, Hk0].
  - apply outside_app, Hk, Hkc.
  - rewrite outside_app by apply Hk, Hkc.
    apply (outside_delete _ _ _ c0); [exact Hc0|apply Hk, Hk0].
Qed.

Lemma insert_keyframe_named (filter : option (gset (string * Z))) (replace_curve : bool)
    (keyframe : json) (st : import_state) :
  (forall k, named_key keyframe = Some k -> k ∈ F) ->
  outside F (fcurves (fst (final_state
               (insert_keyframe float_of_str filter replace_curve keyframe st))))
  = outside F (fcurves (fst st)).
Proof.
  intros HF.
  apply (insert_keyframe_frame float_of_str filter replace_curve keyframe
           (fun a a' => outside F (fcurves a') = outside F (fcurves a))).
  - reflexivity.
  - intros a1 a2 a3 H1 H2. congruence.
  - intros path index replace a Hp Hi.
    assert (Hk : forall k, key_matches path index k -> k ∈ F)
      by (intros k Hk; apply HF; eapply named_key_matches; eauto).
    pose proof (touch_fcurve_shape path index replace a) as Hs.
    assert (Ht : touched path index (fcurves a)
                   (fcurves (final_state (touch_fcurve path index replace a))))
      by (destruct (touch_fcurve path index replace a); simpl; apply Hs).
    exact (touched_outside_all _ _ _ _ Ht Hk).
  - intros path index i c a a' Hp Hi Hc Hkc (_ & _ & pts & ->).
    apply (outside_alter _ _ _ c); [exact Hc|].
    apply HF. eapply named_key_matches; eauto.
Qed.

End NamedChannels.

(** X2. [insert_keyframes] touches only the channels the records of the
    document name: the channels whose key no record's [data_path] and
    [array_index] compare equal to are, in their order, exactly what they
    were, for every document, filter and flag and however the pass ends.
    A replace import deletes nothing but the channels it is given
    records for. *)
Theorem X2_import_touches_named_channels_only (float_of_str : string -> option Q)
    (records : list json) (filter : option (gset (string * Z))) (replace_curve : bool)
    (a : Action) :
  outside (named_keys records)
    (fcurves (final_state
       (insert_keyframes float_of_str (JList records) filter replace_curve a)))
  = outside (named_keys records) (fcurves a).
Proof.
  apply (insert_keyframes_steps_in float_of_str filter replace_curve records
           (fun a a' => outside (named_keys records) (fcurves a')
                        = outside (named_keys records) (fcurves a))).
  - reflexivity.
  - intros a1 a2 a3 H1 H2. congruence.
  - intros keyframe Hin st. apply insert_keyframe_named.
    intros k Hk. eapply named_keys_elem; eauto.
Qed.

(** ** [touch_fcurve], case by case *)


Lemma filter_all {A : Type} (P : A -> Prop) `{forall x, Decision (P x)} (l : list A) :
  Forall P l -> filter P l = l.
Proof.
  induction 1 as [|x l Hx _ IH]; [reflexivity|].
  rewrite filter_cons_True by exact Hx. f_equal. exact IH.
Qed.

Lemma absent_key_filter (k : string * Z) (cs : list FCurve) :
  ~ In k (map curve_key cs) -> filter (fun c => curve_key c <> k) cs = cs.
Proof.
  intros Hk. apply filter_all, Forall_forall. intros c Hc E. apply Hk.
  rewrite <- E. apply in_map, list_elem_of_In, Hc.
Qed.

Lemma delete_as_filter (cs : list FCurve) (j : nat) (c : FCurve) :
  NoDup (map curve_key cs) -> cs !! j = Some c ->
  delete j cs = filter (fun c' => curve_key c' <> curve_key c) cs.
Proof.
  revert j. induction cs as [|x cs IH]; intros [|j] Hnd Hc; simpl in *; try discriminate.
  - injection Hc as ->. apply NoDup_cons in Hnd as [Hx _].
    rewrite filter_cons_False by (intros E; apply E; reflexivity).
    symmetry. apply absent_key_filter. intros E. apply Hx, list_elem_of_In, E.
  - apply NoDup_cons in Hnd as [Hx Hnd].
    rewrite filter_cons_True.
    + f_equal. apply IH; assumption.
    + intros E. apply Hx. rewrite E. apply list_elem_of_In, in_map, list_elem_of_In.
      eapply list_elem_of_lookup_2; eauto.
Qed.


Lemma same_key_matches (path index : json) (c : FCurve) :
  same_key path index c = true -> key_matches path index (curve_key c).
Proof.
  unfold same_key. intros H. apply andb_prop in H as [Hp Hi].
  split; [apply py_eq_str, Hp|apply py_eq_int, Hi].
Qed.

Lemma find_curve_same_key (path index : json) (cs : list FCurve) :
  match find_curve path index cs with
  | Some j => exists c, cs !! j = Some c /\ same_key path index c = true
  | None => Forall (fun c => same_key path index c = false) cs
  end.
Proof.
  induction cs as [|c cs IH]; simpl; [constructor|].
  assert (Hc : same_key path index c
               = py_eq (JStr (data_path c)) path && py_eq (JInt (array_index c)) index)
    by reflexivity.
  destruct (py_eq (JStr (data_path c)) path); simpl in *.
  - destruct (py_eq (JInt (array_index c)) index).
    + exists c. split; [reflexivity|exact Hc].
    + destruct (find_curve path index cs) as [j|]; simpl.
      * exact IH.
      * constructor; [exact Hc|exact IH].
  - destruct (find_curve path index cs) as [j|]; simpl.
    + exact IH.
    + constructor; [exact Hc|exact IH].
Qed.

(** X4. On a container with unique keys, [touch_fcurve] with
    [replace=True] is the host's creation of a channel on the action
    without the channels that compare equal to the key: the scan
    removes the one channel whose [data_path] and [array_index] compare
    equal to the arguments, every other channel stays, in its order, and
    the result, or the refusal, is the one of [fcurves.new] on that
    action. *)
Theorem X4_touch_fcurve_replace_removes_match (path index : json) (a : Action) :
  unique_keys a ->
  touch_fcurve path index true a
  = fcurves_new path index
      (set_fcurves (filter (fun c => same_key path index c = false) (fcurves a)) a).
Proof.
  intros Hu. unfold touch_fcurve.
  pose proof (find_curve_same_key path index (fcurves a)) as Hfind.
  destruct (find_curve path index (fcurves a)) as [j|]; simpl.
  - destruct Hfind as (c0 & Hc0 & Hsame).
    unfold bind, fcurves_remove, modify. f_equal. f_equal.
    rewrite (delete_as_filter _ _ _ Hu Hc0).
    apply list_filter_iff. intros c. split.
    + intros Hne. destruct (same_key path index c) eqn:Hc; [|reflexivity].
      exfalso. apply Hne.
      exact (key_matches_unique _ _ _ _ (same_key_matches _ _ _ Hc)
               (same_key_matches _ _ _ Hsame)).
    + intros Hc E. unfold same_key, curve_key in *. injection E as E1 E2.
      rewrite E1, E2, Hsame in Hc. discriminate.
  - rewrite filter_all by exact Hfind. rewrite set_fcurves_same. reflexivity.
Qed.

(** The channel of [prior_action] is removed and the host creates an
    empty one. *)
Lemma X4_witness :
  unique_keys prior_action /\
  touch_fcurve (JStr "location") (JInt 0) true prior_action
  = fcurves_new (JStr "location") (JInt 0)
      (set_fcurves (filter (fun c => same_key (JStr "location") (JInt 0) c = false)
                           (fcurves prior_action)) prior_action).
Proof.
  split; [exact prior_action_unique|].
  exact (X4_touch_fcurve_replace_removes_match (JStr "location") (JInt 0) prior_action
           prior_action_unique).
Defined.

(** ** The members of a record the importer reads *)

(** X5. The processing of a record depends on the thirteen members the
    importer reads and on nothing else of the record: two records that
    agree on these members (they may differ in [group], which the
    exporter writes, or in any other member) are processed alike, on
    every state, with every filter and flag. *)
Theorem X5_import_reads_thirteen_members (float_of_str : string -> option Q)
    (filter : option (gset (string * Z))) (replace_curve : bool) (r1 r2 : json) (st : import_state) :
  (forall f, In f required_fields -> py_getitem r1 f = py_getitem r2 f) ->
  insert_keyframe float_of_str filter replace_curve r1 st
  = insert_keyframe float_of_str filter replace_curve r2 st.
Proof.
  intros H.
  assert (H' : Forall (fun f => py_getitem r1 f = py_getitem r2 f) required_fields)
    by (apply Forall_forall; intros f Hf; apply H, list_elem_of_In, Hf).
  unfold required_fields in H'.
  repeat match goal with
         | H : Forall _ (_ :: _) |- _ =>
             let E := fresh "E" in apply Forall_cons in H as [E H]
         end.
  unfold insert_keyframe, resolve_channel, insert_control_point.
  repeat match goal with
         | E : py_getitem r1 _ = py_getitem r2 _ |- _ => rewrite E; clear E
         end.
  reflexivity.
Qed.

(** The record of the example with another group is imported as the
    record of the example. *)
Lemma X5_witness :
  (forall f, In f required_fields ->
     py_getitem (with_member "group" (JStr "Location") spec_record) f
     = py_getitem spec_record f) /\
  insert_keyframe decimal_literal None true (with_member "group" (JStr "Location") spec_record)
                  (empty_action, [])
  = insert_keyframe decimal_literal None true spec_record (empty_action, []).
Proof.
  assert (H : forall f, In f required_fields ->
                py_getitem (with_member "group" (JStr "Location") spec_record) f
                = py_getitem spec_record f).
  { intros f Hf. simpl in Hf.
    repeat (destruct Hf as [<-|Hf]; [reflexivity|]). destruct Hf. }
  split; [exact H|].
  exact (X5_import_reads_thirteen_members decimal_literal None true _ _ (empty_action, []) H).
Defined.

(** ** Lines 187-201 as the decoding of a control point *)

Lemma keyframe_points_insert_converted (i : nat) (frame value kt : json) (t y : Q)
    (ty : keyframe_type) (a : Action) (c : FCurve) :
  as_float frame = inr t -> as_float value = inr y -> as_enum kt = inr ty ->
  fcurves a !! i = Some c ->
  keyframe_points_insert i [frame; value] kt a
  = Ret (snd (insert_point t y ty (keyframe_points c)))
        (set_fcurves
           (<[i := set_keyframe_points (fst (insert_point t y ty (keyframe_points c))) c]>
              (fcurves a)) a).
Proof.
  intros Ht Hy Hty Hc. unfold keyframe_points_insert, bind.
  rewrite Ht, Hy, Hty. simpl. rewrite Hc.
  destruct (insert_point t y ty (keyframe_points c)). reflexivity.
Qed.

Lemma keyframe_points_insert_refused (i : nat) (args : list json) (kt : json) (e : pyexn)
    (a : Action) :
  decode_position args kt = inl e -> keyframe_points_insert i args kt a = Raise e a.
Proof.
  unfold decode_position, keyframe_points_insert, bind, and_then.
  destruct args as [|frame [|value [|]]]; try (intros [= <-]; reflexivity).
  destruct (as_float frame); simpl; [intros [= <-]; reflexivity|].
  destruct (as_float value); simpl; [intros [= <-]; reflexivity|].
  destruct (as_enum kt); simpl; [intros [= <-]; reflexivity|]. discriminate.
Qed.

Lemma decode_position_inr (args : list json) (kt : json) (t y : Q) (ty : keyframe_type) :
  decode_position args kt = inr (t, y, ty) ->
  exists frame value,
    args = [frame; value] /\ as_float frame = inr t /\ as_float value = inr y /\
    as_enum kt = inr ty.
Proof.
  unfold decode_position, and_then.
  destruct args as [|frame [|value [|]]]; try discriminate.
  destruct (as_float frame) eqn:Ht; [discriminate|].
  destruct (as_float value) eqn:Hy; [discriminate|].
  destruct (as_enum kt) eqn:Hty; [discriminate|].
  intros [= -> -> ->]. exists frame, value. auto.
Qed.

Lemma and_then_assoc {A B C : Type} (r : pyexn + A) (f : A -> pyexn + B)
    (g : B -> pyexn + C) :
  and_then (and_then r f) g = and_then r (fun x => and_then (f x) g).
Proof. destruct r; reflexivity. Qed.

Lemma agrees_pure {A B : Type} (r : pyexn + B) (kd : B -> pyexn + A)
    (km : B -> M Action unit) (s : Action) (target : A -> Action) :
  (forall x, agrees (kd x) (km x) s target) ->
  agrees (and_then r kd) (bind (lift r) km) s target.
Proof.
  intros H. destruct r as [e|x]; simpl; [|apply H].
  eexists; reflexivity.
Qed.

Lemma agrees_step {A B : Type} (d : pyexn + A) (m0 : M Action B) (km : B -> M Action unit)
    (s s1 : Action) (b : B) (target : A -> Action) :
  m0 s = Ret b s1 -> agrees d (km b) s1 target -> agrees d (bind m0 km) s target.
Proof. intros H0 H. unfold agrees, bind in *. rewrite H0. exact H. Qed.

Section DecodeRun.
Variable float_of_str : string -> option Q.

Local Ltac pure_step := rewrite ?and_then_assoc; apply agrees_pure; intros ?.

Local Ltac assign_step Hi :=
  eapply agrees_step; [apply update_keyframe_inserted; exact Hi|].

Lemma insert_control_point_agrees (keyframe : json) (i : nat) (a : Action) (c : FCurve) :
  fcurves a !! i = Some c ->
  agrees (decode_point float_of_str keyframe)
         (insert_control_point float_of_str keyframe i) a
         (fun k => set_fcurves
                     (<[i := set_keyframe_points (put_point k (keyframe_points c)) c]>
                        (fcurves a)) a).
Proof.
  intros Hc. assert (Hi : (i < length (fcurves a))%nat) by (eapply lookup_lt_Some; eauto).
  unfold decode_point, insert_control_point, decode_vector. cbv zeta.
  pure_step. pure_step. pure_step.
  destruct (decode_position x1 x0) as [e|[[t y] ty]] eqn:Hpos; cbn [and_then].
  { exists a. unfold bind. rewrite (keyframe_points_insert_refused _ _ _ _ _ Hpos).
    reflexivity. }
  apply decode_position_inr in Hpos as (frame & value & -> & Ht & Hy & Hty).
  eapply agrees_step;
    [apply (keyframe_points_insert_converted _ _ _ _ _ _ _ _ _ Ht Hy Hty Hc)|].
  pure_step. pure_step. assign_step Hi.
  pure_step. pure_step. assign_step Hi.
  pure_step. pure_step. assign_step Hi.
  pure_step. pure_step. pure_step. pure_step. assign_step Hi.
  pure_step. pure_step. assign_step Hi.
  pure_step. pure_step. pure_step. pure_step. assign_step Hi.
  pure_step. pure_step. assign_step Hi.
  pure_step. pure_step. assign_step Hi.
  pure_step. pure_step.
  unfold agrees. rewrite update_keyframe_inserted by exact Hi.
  rewrite <- insert_point_put. simpl.
  unfold assign_attributes. rewrite !alter_alter. reflexivity.
Qed.

End DecodeRun.

(** ** A record without a member, after typed records and members *)

Section MissingMember.
Variable float_of_str : string -> option Q.
Variable replace_curve : bool.









End MissingMember.





(** X6. What lines 187-201 do with a record is decided by the record
    alone.  The members are read and converted in a fixed order: [co]
    and [type] are read, then [co] is unpacked and the host inserts the
    point, then each other member is read and converted in turn,
    [amplitude], [back] and the handle coordinates by [float()]
    (numbers, booleans and numeric strings; an integer too large for a
    float raises [OverflowError]), [period] and the tags by the host.
    When every step succeeds the lines end normally and the control
    points of the channel are those it had with the decoded point put
    in; otherwise they raise the exception of the first step that
    fails, whatever the container holds. *)
Theorem X6_control_point_decoding (float_of_str : string -> option Q) (keyframe : json)
    (i : nat) (a : Action) (c : FCurve) :
  fcurves a !! i = Some c ->
  match decode_point float_of_str keyframe with
  | inr k =>
      insert_control_point float_of_str keyframe i a
      = Ret tt (set_fcurves
                  (<[i := set_keyframe_points (put_point k (keyframe_points c)) c]>
                     (fcurves a)) a)
  | inl e => exists a', insert_control_point float_of_str keyframe i a = Raise e a'
  end.
Proof. apply insert_control_point_agrees. Qed.

(** The record of the example with the strings ["0.5"] and ["2"] for
    [amplitude] and [back] and the integer [3] for [period], put into the
    channel of [prior_action]. *)
Lemma X6_witness :
  fcurves prior_action !! 0%nat
  = Some (mkFCurve "location" 0 (Some "Object Transforms") [prior_point] []) /\
  insert_control_point decimal_literal
    (with_member "amplitude" (JStr "0.5")
       (with_member "back" (JStr "2") (with_member "period" (JInt 3) spec_record)))
    0%nat prior_action
  = Ret tt (mkAction "Test" ["Object Transforms"]
              [mkFCurve "location" 0 (Some "Object Transforms")
                 [prior_point;
                  mkKeyframe (1, 0)%Q (5 # 10, 0)%Q HT_FREE (15 # 10, 0)%Q HT_FREE IP_BEZIER
                             EZ_AUTO (5 # 10) 2%Q 3%Q KT_KEYFRAME] []]).
Proof.
  split; [reflexivity|].
  exact (X6_control_point_decoding decimal_literal
           (with_member "amplitude" (JStr "0.5")
              (with_member "back" (JStr "2") (with_member "period" (JInt 3) spec_record)))
           0%nat prior_action _ eq_refl).
Defined.

(** The order of the reads: without [type] the record fails on that
    read, before [co] is unpacked; with it, the unpacking of a number
    fails; and [float()] refuses the integer [10^400]. *)
Example control_point_errors :
  insert_control_point decimal_literal (JObj [("co", JInt 5)]) 0%nat prior_action
  = Raise (KeyError "type") prior_action /\
  insert_control_point decimal_literal (JObj [("co", JInt 5); ("type", JStr "KEYFRAME")])
                       0%nat prior_action
  = Raise TypeError prior_action /\
  exists a',
    insert_control_point decimal_literal
      (with_member "amplitude" (JInt (10 ^ 400)) spec_record) 0%nat prior_action
    = Raise OverflowError a'.
Proof.
  split; [reflexivity|]. split; [reflexivity|]. eexists. vm_compute. reflexivity.
Qed.

(** ** What the exporter writes *)

Lemma keyframe_form_conversions (host : SamplingHost) (a : Action) :
  Forall keyframe_form (fcurves a) -> conversions_succeed host a.
Proof.
  intros Hform c Hc Hempty. rewrite Forall_forall in Hform.
  exfalso. apply (Hform c); [apply list_elem_of_In, Hc | exact Hempty].
Qed.

Lemma keyframe_form_records (host : SamplingHost) (a : Action) :
  Forall keyframe_form (fcurves a) ->
  action_records (keyframe_view host) a = action_records id a.
Proof.
  intros Hform. unfold action_records.
  apply flat_map_ext. intros g. unfold group_records.
  assert (Hsub : forall c, In c (filter (fun c => group c = Some g) (fcurves a)) ->
                           keyframe_view host c = id c).
  { intros c Hc. apply list_elem_of_In, list_elem_of_filter in Hc as [_ Hc].
    rewrite Forall_forall in Hform. specialize (Hform c Hc).
    unfold keyframe_view, keyframe_form in *.
    destruct (keyframe_points c); [congruence | reflexivity]. }
  induction (filter (fun c => group c = Some g) (fcurves a)) as [|c l IH];
    simpl; [reflexivity|].
  rewrite (Hsub c) by (left; reflexivity). f_equal. apply IH.
  intros x Hx. apply Hsub. right. exact Hx.
Qed.

(** X7. The export of an action whose channels all have control points
    is a function of the action alone: whatever the host's conversions
    are, they are not called, the action is left as it is, and the
    document holds the name of the action and, group after group in the
    order of [action.groups], channel after channel in the order of
    [action.fcurves], one record per control point in the order of the
    channel, each with the name of the group.  The only failure is that
    of opening the file. *)
Theorem X7_export_of_keyframe_channels (host : SamplingHost) (writable : bool) (a : Action) :
  Forall keyframe_form (fcurves a) ->
  exporter_execute host writable (set_action a)
  = if writable
    then Ret (Finished (document (name a)
                (flat_map
                   (fun g =>
                      flat_map
                        (fun c => map (mkRecord (data_path c) g (array_index c))
                                      (keyframe_points c))
                        (filter (fun c => group c = Some g) (fcurves a)))
                   (groups a))))
             (set_action a)
    else Raise OSError (set_action a).
Proof.
  intros Hform.
  rewrite (exporter_execute_run host a writable (keyframe_form_conversions host a Hform)).
  rewrite (keyframe_form_records host a Hform). reflexivity.
Qed.

Lemma X7_witness :
  Forall keyframe_form (fcurves grouped_action) /\
  exporter_execute range_checked_host true (set_action grouped_action)
  = Ret (Finished (document "Test"
           [location_record spec_point; location_record later_point;
            rotation_record prior_point]))
        (set_action grouped_action).
Proof.
  assert (H : Forall keyframe_form (fcurves grouped_action))
    by (forall_list ltac:(discriminate)).
  split; [exact H|].
  exact (X7_export_of_keyframe_channels range_checked_host true grouped_action H).
Defined.


Lemma typed_records_refl (st : export_state) : typed_records st st.
Proof. intros H. exact H. Qed.

Lemma typed_records_trans (s1 s2 s3 : export_state) :
  typed_records s1 s2 -> typed_records s2 s3 -> typed_records s1 s3.
Proof. unfold typed_records. auto. Qed.

Lemma get_channel_typed (i : nat) : steps typed_records (get_channel i).
Proof.
  intros st. unfold get_channel.
  destruct (fcurves (fst st) !! i); apply typed_records_refl.
Qed.

Lemma convert_channel_typed (host : SamplingHost)
    (convert : SamplingHost -> Z -> Z -> FCurve -> pyexn + FCurve) (i : nat) :
  steps typed_records (convert_channel host convert i).
Proof.
  unfold convert_channel.
  apply (steps_bind _ typed_records_trans); [apply get_channel_typed|]. intros channel.
  destruct (fcurve_range host channel) as [first last].
  apply (steps_bind _ typed_records_trans); [apply (steps_lift _ typed_records_refl)|].
  intros converted. apply steps_modify. intros st H. exact H.
Qed.

Lemma export_channel_typed (host : SamplingHost) (group_name : string) (i : nat) :
  steps typed_records (export_channel host group_name i).
Proof.
  unfold export_channel.
  apply (steps_bind _ typed_records_trans); [apply get_channel_typed|]. intros channel.
  apply (steps_bind _ typed_records_trans).
  { destruct (is_empty (keyframe_points channel));
      [apply convert_channel_typed|apply (steps_ret _ typed_records_refl)]. }
  intros _.
  apply (steps_bind _ typed_records_trans); [apply get_channel_typed|]. intros channel'.
  rewrite map_result_keyframes.
  intros st. change (typed_records st (final_state
    ((extend_keyframes
        (map record_json
           (map (mkRecord (data_path channel') group_name (array_index channel'))
                (keyframe_points channel'))) ;;
      (if is_empty (keyframe_points channel)
       then convert_channel host convert_to_samples i else ret tt)) st))).
  revert st.
  apply (steps_bind _ typed_records_trans).
  { apply steps_modify. intros st [rs Hrs]. simpl. rewrite Hrs, <- map_app. eauto. }
  intros _.
  destruct (is_empty (keyframe_points channel));
    [apply convert_channel_typed|apply (steps_ret _ typed_records_refl)].
Qed.

Lemma export_groups_typed (host : SamplingHost) (gs : list string) :
  steps typed_records (for_each (export_group host) gs).
Proof.
  apply (steps_for_each _ typed_records_refl typed_records_trans). intros g st.
  unfold export_group.
  apply (steps_for_each _ typed_records_refl typed_records_trans).
  apply export_channel_typed.
Qed.

Lemma exporter_writes_document (host : SamplingHost) (writable : bool) (obj obj' : Object)
    (doc : json) :
  exporter_execute host writable obj = Ret (Finished doc) obj' ->
  exists action_name rs, doc = document action_name rs.
Proof.
  unfold exporter_execute.
  destruct (animation_data obj) as [[[a|]]|]; try discriminate.
  pose proof (export_groups_typed host (groups a) (a, [])) as H.
  destruct (for_each (export_group host) (groups a) (a, [])) as [[] st|e st];
    [|discriminate].
  destruct writable; [|discriminate]. intros [= <- _].
  destruct H as [rs Hrs]; [exists []; reflexivity|].
  simpl in Hrs. rewrite Hrs. exists (name a), rs. reflexivity.
Qed.

Lemma resolver_run (float_of_str : string -> option Q) (replace_curve : bool)
    (action_name : string) (records : list json) (b b' : Action) :
  insert_keyframes float_of_str (JList records) None replace_curve b = Ret tt b' ->
  resolver_execute float_of_str replace_curve
    (FileText (Some (raw_document action_name records))) (set_action b)
  = Ret tt (set_action b').
Proof.
  intros Hrun. unfold resolver_execute, bind. cbn.
  unfold on_active_action. cbn. rewrite Hrun. reflexivity.
Qed.

(** X8. Every document the exporter writes is one the importers
    accept: whatever the action exported, the host's conversions and
    the [float()] of the importing side, the action importer builds an
    action from it on any target, and the replacer and the merger import
    it into any action with unique keys, without an exception. *)
Theorem X8_exported_document_imports (host : SamplingHost) (writable : bool)
    (obj obj' : Object) (doc : json) :
  exporter_execute host writable obj = Ret (Finished doc) obj' ->
  (forall float_of_str target,
     exists a', action_importer_execute float_of_str (FileText (Some doc)) target
                = Ret tt (set_action a')) /\
  (forall float_of_str replace_curve b,
     unique_keys b ->
     exists b', resolver_execute float_of_str replace_curve (FileText (Some doc))
                  (set_action b)
                = Ret tt (set_action b') /\ unique_keys b').
Proof.
  intros Hexp. apply exporter_writes_document in Hexp as (nm & rs & ->). split.
  - intros float_of_str target.
    destruct (insert_keyframes_records float_of_str true rs (mkAction nm [] []))
      as (a' & Hrun & _); [constructor|].
    exists a'. apply action_importer_run, Hrun.
  - intros float_of_str replace_curve b Hu.
    destruct (insert_keyframes_records float_of_str replace_curve rs b Hu)
      as (b' & Hrun & Hu' & _).
    exists b'. split; [|exact Hu'].
    apply (resolver_run float_of_str replace_curve nm (map record_json rs)), Hrun.
Qed.

Lemma X8_witness :
  exporter_execute lossless_host true (set_action sampled_action)
  = Ret (Finished (document "Baked"
           [location_record (sample_keyframe (1, 0)%Q);
            location_record (sample_keyframe (2, 1)%Q)]))
        (set_action sampled_action) /\
  (forall float_of_str target,
     exists a', action_importer_execute float_of_str
                  (FileText (Some (document "Baked"
                     [location_record (sample_keyframe (1, 0)%Q);
                      location_record (sample_keyframe (2, 1)%Q)]))) target
                = Ret tt (set_action a')) /\
  (forall float_of_str replace_curve b,
     unique_keys b ->
     exists b', resolver_execute float_of_str replace_curve
                  (FileText (Some (document "Baked"
                     [location_record (sample_keyframe (1, 0)%Q);
                      location_record (sample_keyframe (2, 1)%Q)]))) (set_action b)
                = Ret tt (set_action b') /\ unique_keys b').
Proof.
  assert (H : exporter_execute lossless_host true (set_action sampled_action)
              = Ret (Finished (document "Baked"
                       [location_record (sample_keyframe (1, 0)%Q);
                        location_record (sample_keyframe (2, 1)%Q)]))
                    (set_action sampled_action)) by reflexivity.
  split; [exact H|].
  exact (X8_exported_document_imports lossless_host true _ _ _ H).
Defined.

(** X9. An action the action importer has built has no groups, so the
    exporter writes nothing of it: on every object the action importer
    returns from, the export succeeds with a document without keyframe
    records, whatever the imported document held. *)
Theorem X9_imported_action_exports_nothing (float_of_str : string -> option Q) (f : file)
    (target obj' : Object) (host : SamplingHost) :
  action_importer_execute float_of_str f target = Ret tt obj' ->
  exists action_name,
    exporter_execute host true obj' = Ret (Finished (document action_name [])) obj'.
Proof.
  unfold action_importer_execute, read_json, bind.
  destruct f as [|[doc|]]; try discriminate. cbn.
  destruct (py_getitem doc "name") as [e|name_value]; cbn; [discriminate|].
  unfold actions_new, bind.
  destruct (as_str name_value) as [e|s]; cbn; [discriminate|].
  destruct (py_getitem doc "keyframes") as [e|keyframes]; cbn; [discriminate|].
  unfold on_active_action. cbn.
  pose proof (insert_keyframes_keeps_groups float_of_str keyframes None true
                (mkAction s [] [])) as (_ & Hg & _).
  destruct (insert_keyframes float_of_str keyframes None true (mkAction s [] []))
    as [[] a'|e a']; [|discriminate].
  intros [= <-]. simpl in Hg. exists (name a').
  unfold exporter_execute. cbn. rewrite Hg. reflexivity.
Qed.

Lemma X9_witness :
  (exists obj',
     action_importer_execute decimal_literal
       (FileText (Some (raw_document "Test" [spec_record]))) (mkObject None) = Ret tt obj' /\
     animation_data obj'
     = Some (mkAnimData (Some (mkAction "Test" []
                                 [mkFCurve "location" 0 None [spec_point] []]))) /\
     exists action_name,
       exporter_execute lossless_host true obj'
       = Ret (Finished (document action_name [])) obj').
Proof.
  eexists. split; [reflexivity|]. split; [reflexivity|].
  exact (X9_imported_action_exports_nothing decimal_literal
           (FileText (Some (raw_document "Test" [spec_record]))) (mkObject None) _
           lossless_host eq_refl).
Defined.

(** ** The operators and the target *)

(** X10. The action importer clears the target before it looks at the
    document.  A file that cannot be read leaves the target as it is;
    once the file has parsed the target always ends with animation data,
    a document without [name] raises and leaves it with no action, and
    whatever action the object ends with, however the call ends, is one
    made from scratch: it has no groups and none of its channels is in a
    group. *)
Theorem X10_action_importer_clears_first (float_of_str : string -> option Q)
    (doc : json) (obj : Object) :
  action_importer_execute float_of_str NoSuchFile obj = Raise OSError obj /\
  (forall e,
     py_getitem doc "name" = inl e ->
     action_importer_execute float_of_str (FileText (Some doc)) obj
     = Raise e (mkObject (Some (mkAnimData None)))) /\
  animation_data (final_state (action_importer_execute float_of_str (FileText (Some doc)) obj))
  <> None /\
  (forall a',
     animation_data
       (final_state (action_importer_execute float_of_str (FileText (Some doc)) obj))
     = Some (mkAnimData (Some a')) ->
     groups a' = [] /\ Forall (fun c => group c = None) (fcurves a')).
Proof.
  split; [reflexivity|]. split.
  { intros e He. unfold action_importer_execute, bind. cbn. rewrite He. reflexivity. }
  unfold action_importer_execute, bind. cbn.
  destruct (py_getitem doc "name") as [e|name_value]; cbn;
    [split; [discriminate|intros a'; discriminate]|].
  unfold actions_new, bind.
  destruct (as_str name_value) as [e|s]; cbn;
    [split; [discriminate|intros a'; discriminate]|].
  assert (Hnew : forall a', Some (mkAnimData (Some (mkAction s [] [])))
                            = Some (mkAnimData (Some a')) ->
                            groups a' = [] /\ Forall (fun c => group c = None) (fcurves a'))
    by (intros a' [= <-]; split; [reflexivity|constructor]).
  destruct (py_getitem doc "keyframes") as [e|keyframes]; cbn;
    [split; [discriminate|exact Hnew]|].
  unfold on_active_action. cbn.
  pose proof (insert_keyframes_keeps_groups float_of_str keyframes None true
                (mkAction s [] [])) as (_ & Hg & Hin).
  assert (Hbuilt : forall a',
            Some (mkAnimData (Some (final_state
                    (insert_keyframes float_of_str keyframes None true (mkAction s [] [])))))
            = Some (mkAnimData (Some a')) ->
            groups a' = [] /\ Forall (fun c => group c = None) (fcurves a')).
  { intros a' [= <-]. split; [exact Hg|].
    eapply Forall_impl; [exact Hin|].
    intros c [Hnone|(c0 & [] & _)]. exact Hnone. }
  destruct (insert_keyframes float_of_str keyframes None true (mkAction s [] []));
    (split; [discriminate|exact Hbuilt]).
Qed.

(** ** The context menu and the registration *)

Lemma resolver_not_refused (float_of_str : string -> option Q) (replace_curve : bool)
    (f : file) (obj obj' : Object) :
  has_active_action obj = true ->
  resolver_execute float_of_str replace_curve f obj <> Raise (ValueError no_action_msg) obj'.
Proof.
  intros Hact. unfold resolver_execute, bind, read_json.
  destruct f as [|[doc|]]; try discriminate. cbn. rewrite Hact. cbn.
  destruct (py_getitem doc "keyframes") as [e|keyframes] eqn:Hk; cbn.
  - intros [= ->]. exact (getitem_other _ _ _ Hk eq_refl).
  - unfold on_active_action.
    destruct (animation_data obj) as [[[a|]]|]; try discriminate.
    pose proof (insert_keyframes_other float_of_str keyframes None replace_curve a) as Ho.
    destruct (insert_keyframes float_of_str keyframes None replace_curve a) as [[] a'|e a']
      eqn:Hrun; [discriminate|].
    intros [= -> _]. exact (Ho _ _ eq_refl eq_refl).
Qed.

Lemma exporter_not_refused (host : SamplingHost) (writable : bool) (obj obj' : Object)
    (msg : string) :
  has_active_action obj = true ->
  exporter_execute host writable obj <> Ret (ReportedError msg) obj'.
Proof.
  unfold has_active_action, exporter_execute.
  destruct (animation_data obj) as [[[a|]]|]; try discriminate. intros _.
  destruct (for_each (export_group host) (groups a) (a, [])); [|discriminate].
  destruct writable; discriminate.
Qed.

(** X11. The menu function is not guarded by [poll]: in a context
    without active object it raises [AttributeError] with no entry
    added, and it draws exactly when [poll] holds.  It then ends its
    entries with a separator and always offers the action importer; it
    offers the exporter, the replacer and the merger exactly when the
    object has animation data with an action, which is when their
    [execute] does not refuse the object: an operator the menu offers
    never raises the [ValueError] of [FCurveResolverMixin.execute] and
    never reports the exporter's "No animation data" error. *)
Theorem X11_menu_offers_what_can_run (context : Context) (layout : Layout) :
  match graph_context_menu_func context layout with
  | AttributeError layout' => poll context = false /\ items layout' = items layout
  | Drawn layout' =>
      poll context = true /\
      exists obj added,
        context_object context = Some obj /\
        items layout' = items layout ++ added ++ [MenuSeparator] /\
        offers ANIMIO_OT_action_importer added /\
        (forall cls, cls <> ANIMIO_OT_action_importer ->
           (offers cls added <-> has_active_action obj = true)) /\
        (forall cls float_of_str replace_curve f obj',
           offers cls added -> cls <> ANIMIO_OT_action_importer ->
           resolver_execute float_of_str replace_curve f obj
           <> Raise (ValueError no_action_msg) obj') /\
        (forall host writable msg obj',
           offers ANIMIO_OT_fcurve_exporter added ->
           exporter_execute host writable obj <> Ret (ReportedError msg) obj')
  end.
Proof.
  unfold graph_context_menu_func, poll.
  destruct (context_object context) as [obj|]; [|split; reflexivity].
  split; [reflexivity|]. exists obj.
  destruct (has_active_action obj) eqn:Hact.
  - exists (map (fun cls => MenuOperator (bl_idname cls) (contextual_label cls)) operators).
    split; [reflexivity|].
    split; [simpl; rewrite <- !app_assoc; reflexivity|].
    assert (Hall : forall cls,
      offers cls (map (fun cls => MenuOperator (bl_idname cls) (contextual_label cls))
                      operators)).
    { intros cls. exists (contextual_label cls).
      apply (in_map (fun cls => MenuOperator (bl_idname cls) (contextual_label cls))).
      destruct cls; simpl; auto. }
    split; [apply Hall|]. split; [intros cls _; split; auto|].
    split.
    + intros cls float_of_str replace_curve f obj' _ _.
      apply resolver_not_refused, Hact.
    + intros host writable msg obj' _. apply exporter_not_refused, Hact.
  - exists [MenuOperator (bl_idname ANIMIO_OT_action_importer) "Import Action from JSON"].
    split; [reflexivity|].
    split; [simpl; rewrite <- app_assoc; reflexivity|].
    split; [eexists; left; reflexivity|].
    assert (Hnone : forall cls, cls <> ANIMIO_OT_action_importer ->
      ~ offers cls [MenuOperator (bl_idname ANIMIO_OT_action_importer)
                                 "Import Action from JSON"]).
    { intros cls Hne [text [H|[]]]. injection H as H _. destruct cls; try discriminate.
      apply Hne. reflexivity. }
    split.
    { intros cls Hne. split; [intros H; destruct (Hnone cls Hne H)|discriminate]. }
    split.
    + intros cls float_of_str replace_curve f obj' H Hne. destruct (Hnone cls Hne H).
    + intros host writable msg obj' H.
      destruct (Hnone ANIMIO_OT_fcurve_exporter); [discriminate|exact H].
Qed.

Lemma filter_other_operator (cls : operator) (l : list operator) :
  cls ∉ l -> filter (fun c => c <> cls) l = l.
Proof.
  intros H. apply filter_all, Forall_forall. intros c Hc E. subst. exact (H Hc).
Qed.

Lemma operators_NoDup : NoDup operators.
Proof. apply (bool_decide_unpack _). vm_compute. exact I. Qed.

Lemma register_classes (l : list operator) (host : Registry) :
  NoDup l -> (forall cls, cls ∈ l -> cls ∉ registered host) ->
  for_each register_class l host
  = Ret tt (mkRegistry (registered host ++ l) (graph_context_menu host)).
Proof.
  revert host. induction l as [|cls l IH]; intros host Hnd Hnew; simpl.
  - rewrite app_nil_r. destruct host; reflexivity.
  - apply NoDup_cons in Hnd as [Hcls Hnd].
    unfold bind, register_class at 1.
    rewrite bool_decide_eq_false_2 by (apply Hnew; left).
    rewrite IH; [simpl; rewrite <- app_assoc; reflexivity|exact Hnd|].
    intros c Hc. simpl. rewrite elem_of_app, list_elem_of_singleton.
    intros [H| ->]; [|exact (Hcls Hc)].
    apply (Hnew c); [right; exact Hc|exact H].
Qed.

Lemma unregister_classes (l pre : list operator)
    (menu : list (Context -> Layout -> draw_outcome)) :
  NoDup l -> (forall cls, cls ∈ l -> cls ∉ pre) ->
  for_each unregister_class l (mkRegistry (pre ++ l) menu) = Ret tt (mkRegistry pre menu).
Proof.
  induction l as [|cls l IH]; intros Hnd Hnew; simpl.
  - rewrite app_nil_r. reflexivity.
  - apply NoDup_cons in Hnd as [Hcls Hnd].
    unfold bind, unregister_class at 1. simpl.
    rewrite bool_decide_eq_true_2 by (apply elem_of_app; right; left).
    rewrite filter_app, filter_cons_False by (intros E; apply E; reflexivity).
    rewrite !filter_other_operator; [|exact Hcls|apply Hnew; left].
    apply IH; [exact Hnd|]. intros c Hc. apply Hnew. right. exact Hc.
Qed.

(** X12. [unregister] does not undo [register]: on a host where none of
    the four classes is registered, registering and then unregistering
    the add-on returns without an exception and leaves the registered
    classes as they were, but the context menu of the graph editor keeps
    the menu function [register] has put in front of it. *)
Theorem X12_unregister_keeps_menu_entry (host : Registry) :
  (forall cls, In cls operators -> cls ∉ registered host) ->
  (register ;; unregister) host
  = Ret tt (mkRegistry (registered host)
                       (graph_context_menu_func :: graph_context_menu host)).
Proof.
  intros Hnew.
  assert (Hnew' : forall cls, cls ∈ operators -> cls ∉ registered host)
    by (intros cls Hc; apply Hnew, list_elem_of_In, Hc).
  unfold register, unregister, bind.
  rewrite (register_classes operators host operators_NoDup Hnew'). simpl.
  apply (unregister_classes operators (registered host)); [exact operators_NoDup|exact Hnew'].
Qed.

Lemma X12_witness :
  (forall cls, In cls operators -> cls ∉ registered (mkRegistry [] [])) /\
  (register ;; unregister) (mkRegistry [] [])
  = Ret tt (mkRegistry [] [graph_context_menu_func]).
Proof.
  assert (H : forall cls, In cls operators -> cls ∉ registered (mkRegistry [] []))
    by (intros cls _; apply not_elem_of_nil).
  split; [exact H|].
  exact (X12_unregister_keeps_menu_entry (mkRegistry [] []) H).
Defined.

(** ** Documents that are not a list of records *)

Lemma insert_keyframe_string (float_of_str : string -> option Q)
    (filter : option (gset (string * Z))) (replace_curve : bool) (s : string)
    (st : import_state) :
  insert_keyframe float_of_str filter replace_curve (JStr s) st = Raise TypeError st.
Proof. reflexivity. Qed.

Lemma for_each_strings (float_of_str : string -> option Q)
    (filter : option (gset (string * Z))) (replace_curve : bool) (records : list json)
    (st : import_state) :
  Forall (fun r => exists s, r = JStr s) records ->
  for_each (insert_keyframe float_of_str filter replace_curve) records st
  = match records with
    | [] => Ret tt st
    | _ => Raise TypeError st
    end.
Proof.
  intros H. destruct H as [|r records [s ->] _]; [reflexivity|].
  simpl. unfold bind. rewrite insert_keyframe_string. reflexivity.
Qed.

Lemma chars_strings (s : string) : Forall (fun r => exists s, r = JStr s) (chars s).
Proof. induction s; simpl; constructor; eauto. Qed.

(** X13. A [keyframe_data] that is not a list never changes the action.
    What cannot be iterated raises [TypeError]; a string or a dict is
    iterated, by characters or by keys, and its first item, a string,
    raises [TypeError] where the record is subscripted, before anything
    is touched; only the empty string and the empty dict pass, as a
    document without records. *)
Theorem X13_keyframes_not_a_list (float_of_str : string -> option Q) (keyframe_data : json)
    (filter : option (gset (string * Z))) (replace_curve : bool) (a : Action) :
  (forall l, keyframe_data <> JList l) ->
  insert_keyframes float_of_str keyframe_data filter replace_curve a
  = match py_iter keyframe_data with
    | inr [] => Ret tt a
    | _ => Raise TypeError a
    end.
Proof.
  intros Hl. unfold insert_keyframes, insert_keyframes_loop, bind.
  destruct keyframe_data as [| | | |s|l|fields]; try reflexivity.
  - simpl. rewrite for_each_strings by apply chars_strings.
    destruct (chars s); reflexivity.
  - destruct (Hl l eq_refl).
  - simpl. rewrite for_each_strings
      by (apply Forall_forall; intros r Hr; apply list_elem_of_In, in_map_iff in Hr
            as (kv & <- & _); eauto).
    destruct (map JStr (dict_keys fields)); reflexivity.
Qed.

(** A single record handed over where the list of records is
    expected. *)
Lemma X13_witness :
  (forall l, spec_record <> JList l) /\
  insert_keyframes decimal_literal spec_record None true prior_action
  = Raise TypeError prior_action.
Proof.
  assert (H : forall l, spec_record <> JList l) by (intros l; discriminate).
  split; [exact H|].
  exact (X13_keyframes_not_a_list decimal_literal spec_record None true prior_action H).
Defined.

(** ** Importing a document twice *)

(** X14. The replace import is idempotent on the channels.  For a
    document of typed records and an action with unique keys, importing
    the document with [replace_curve=True] and importing it again both
    return, and every key has after the second import the control
    points it has after the first. *)
Theorem X14_replace_import_idempotent (float_of_str : string -> option Q)
    (rs : list kf_record) (a : Action) :
  unique_keys a ->
  exists a' a'',
    insert_keyframes float_of_str (JList (map record_json rs)) None true a = Ret tt a' /\
    insert_keyframes float_of_str (JList (map record_json rs)) None true a' = Ret tt a'' /\
    unique_keys a'' /\
    forall k, channel_points k a'' = channel_points k a'.
Proof.
  intros Hu.
  destruct (insert_keyframes_records float_of_str true rs a Hu)
    as (a' & Hrun' & Hu' & _ & _ & Hcp').
  destruct (insert_keyframes_records float_of_str true rs a' Hu')
    as (a'' & Hrun'' & Hu'' & _ & _ & Hcp'').
  exists a', a''. split; [exact Hrun'|]. split; [exact Hrun''|]. split; [exact Hu''|].
  intros k. rewrite Hcp'', Hcp'.
  destruct (records_for k rs) as [|r l] eqn:Hk; [reflexivity|].
  rewrite !doc_effect_first by discriminate. reflexivity.
Qed.

Lemma X14_witness :
  unique_keys prior_action /\
  exists a' a'',
    insert_keyframes decimal_literal
      (JList (map record_json [location_record later_point; location_record spec_point]))
      None true prior_action = Ret tt a' /\
    insert_keyframes decimal_literal
      (JList (map record_json [location_record later_point; location_record spec_point]))
      None true a' = Ret tt a'' /\
    unique_keys a'' /\
    forall k, channel_points k a'' = channel_points k a'.
Proof.
  split; [exact prior_action_unique|].
  exact (X14_replace_import_idempotent decimal_literal
           [location_record later_point; location_record spec_point] prior_action
           prior_action_unique).
Defined.
